(** * Streaming subscriptions of openapi-clientlib-js: queue and state machine

    A shallow embedding of [src/openapi/streaming/subscription-queue.js] and
    [src/openapi/streaming/subscription.js].

    - JavaScript objects that are shared and mutated ([subscriptionData], the
      POST body) live in an explicit object store addressed by locations.
    - Methods of [Subscription] are computations in a small monad that threads
      the subscription, collects the observable effects (log entries, HTTP
      requests handed to the transport, user callbacks, timers) in program
      order, and can end in a thrown exception.
    - User callbacks and the transport are opaque: a call to one of them is
      recorded as an event and is assumed not to re-enter the subscription. *)

From stdpp Require Import base numbers option list strings gmap pretty.

Open Scope string_scope.
Open Scope Z_scope.
Open Scope list_scope.

(** ** Actions (subscription-actions.js) *)

Inductive Action :=
| ACTION_SUBSCRIBE
| ACTION_UNSUBSCRIBE
| ACTION_MODIFY_PATCH
| ACTION_UNSUBSCRIBE_BY_TAG_PENDING.

#[global] Instance Action_eq_dec : EqDecision Action.
Proof. solve_decision. Defined.

(** Modelled from the spec: the module [subscription-actions.js] that gives the
    four action constants their numeric values is not among the sources.  The
    spec reads [queue.peekAction() & ACTION_UNSUBSCRIBE] as "the head queued
    action is UNSUBSCRIBE", which is what the bitwise test computes when the
    four constants are distinct single-bit flags; they are taken as such. *)
Definition action_code (a : Action) : Z :=
  match a with
  | ACTION_SUBSCRIBE => 1
  | ACTION_UNSUBSCRIBE => 2
  | ACTION_MODIFY_PATCH => 4
  | ACTION_UNSUBSCRIBE_BY_TAG_PENDING => 8
  end.

(** The [args] object of a queued item: [{ force }] for an unsubscribe, the
    patch delta itself for a modify ([delta] is its opaque content).  A
    property that is absent reads as [undefined]. *)
Record Args := mkArgs {
  force : option bool;
  delta : option string;
}.

(** A queued item [{ action, args }]; either property may be [undefined]. *)
Record QueuedItem := mkItem {
  action : option Action;
  args : option Args;
}.

#[global] Instance Args_eq_dec : EqDecision Args.
Proof. solve_decision. Defined.

#[global] Instance QueuedItem_eq_dec : EqDecision QueuedItem.
Proof. solve_decision. Defined.

(** How a JavaScript call ends: normally, or by throwing. *)
Inductive completion :=
| Normal
| Thrown (msg : string).

(** ** The action queue (subscription-queue.js) *)

Module SubscriptionQueue.

(** [this.items], head of the queue first. *)
Abbreviation t := (list QueuedItem).

Definition isEmpty (items : t) : bool :=
  match items with [] => true | _ => false end.

(** [x.args.force] used as a condition: a [TypeError] when [args] is
    undefined, otherwise the truthiness of the property. *)
Definition args_force (it : QueuedItem) : option bool :=
  match args it with
  | None => None
  | Some a => Some (default false (force a))
  end.

(** [prevItem.args.force = true]. *)
Definition set_force (it : QueuedItem) : QueuedItem :=
  match args it with
  | None => it
  | Some a => mkItem (action it) (Some (mkArgs (Some true) (delta a)))
  end.

Definition type_error : completion :=
  Thrown "TypeError: Cannot read properties of undefined (reading 'force')".

(** The condition of lines 67-84 of [enqueue], with JavaScript's
    short-circuit evaluation; [None] is the [TypeError] of reading [force]
    from an undefined [args]. *)
Definition removes_previous (prevItem queuedItem : QueuedItem) : option bool :=
  let prevAction := action prevItem in
  let action := action queuedItem in
  c1 ← (if bool_decide (prevAction = Some ACTION_UNSUBSCRIBE)
           && bool_decide (action = Some ACTION_SUBSCRIBE)
        then negb <$> args_force prevItem else Some false);
  if c1 : bool then Some true else
  if bool_decide (prevAction = Some ACTION_SUBSCRIBE)
     && (bool_decide (action = Some ACTION_UNSUBSCRIBE)
         || bool_decide (action = Some ACTION_UNSUBSCRIBE_BY_TAG_PENDING))
  then Some true else
  c3 ← (if bool_decide (prevAction = Some ACTION_MODIFY_PATCH)
        then
          c ← (if bool_decide (action = Some ACTION_UNSUBSCRIBE)
               then args_force queuedItem else Some false);
          Some (c || bool_decide (action = Some ACTION_UNSUBSCRIBE_BY_TAG_PENDING))
        else Some false);
  if c3 : bool then Some true else
  Some (bool_decide (prevAction = Some ACTION_UNSUBSCRIBE)
        && bool_decide (action = Some ACTION_UNSUBSCRIBE_BY_TAG_PENDING)).

(** [enqueue] on the reversed array: the last item of [this.items] is the
    head of [ritems], [splice(-1)] drops it, [push] conses.  The result is
    the completion and the array as the call leaves it. *)
Fixpoint enqueue_rev (ritems : list QueuedItem) (queuedItem : QueuedItem)
  : completion * list QueuedItem :=
  match action queuedItem with
  | None => (Thrown "Subscription queued action is invalid", ritems)
  | Some act =>
    match ritems with
    | [] => (Normal, [queuedItem])
    | prevItem :: rest =>
      if bool_decide (Some act = action prevItem)
         && negb (bool_decide (act = ACTION_MODIFY_PATCH))
      then
        (* unless its a patch, doing the same thing twice is a noop *)
        if bool_decide (act = ACTION_UNSUBSCRIBE) then
          match args_force queuedItem with
          | None => (type_error, ritems)
          | Some false => (Normal, ritems)
          | Some true =>
            match args_force prevItem with
            | None => (type_error, ritems)
            | Some true => (Normal, ritems)
            | Some false => (Normal, set_force prevItem :: rest)
            end
          end
        else (Normal, ritems)
      else
        match removes_previous prevItem queuedItem with
        | None => (type_error, ritems)
        | Some true => enqueue_rev rest queuedItem
        | Some false => (Normal, queuedItem :: ritems)
        end
    end
  end.

Definition enqueue (items : t) (queuedItem : QueuedItem) : completion * t :=
  let '(c, ritems) := enqueue_rev (reverse items) queuedItem in
  (c, reverse ritems).

(** The loop body's test of [clearPatches]. *)
Definition keeps (it : QueuedItem) : bool :=
  negb (bool_decide (action it = Some ACTION_SUBSCRIBE))
  && negb (bool_decide (action it = Some ACTION_MODIFY_PATCH)).

(** The [for] loop of [clearPatches]; the result is [newItems] from the
    current position on. *)
Fixpoint clearPatches_loop (reachedNonPatchSubscribe : bool) (items : t) : t :=
  match items with
  | [] => []
  | it :: rest =>
    if negb reachedNonPatchSubscribe && keeps it
    then it :: clearPatches_loop true rest
    else clearPatches_loop reachedNonPatchSubscribe rest
  end.

Definition clearPatches (items : t) : t := clearPatches_loop false items.

Definition peekAction (items : t) : option Action :=
  match items with
  | [] => None
  | it :: _ => action it
  end.

Definition is_unsubscribe (it : QueuedItem) : bool :=
  bool_decide (action it = Some ACTION_UNSUBSCRIBE)
  || bool_decide (action it = Some ACTION_UNSUBSCRIBE_BY_TAG_PENDING).

(** The downward loop of [dequeue]: the item of greatest index that is an
    unsubscribe, with [items.slice(i + 1)]. *)
Fixpoint last_unsubscribe (items : t) : option (QueuedItem * t) :=
  match items with
  | [] => None
  | it :: rest =>
    match last_unsubscribe rest with
    | Some found => Some found
    | None => if is_unsubscribe it then Some (it, rest) else None
    end
  end.

(** [dequeue]: the returned value ([None] is [undefined]) and the array
    left behind. *)
Definition dequeue (items : t) : option QueuedItem * t :=
  match items with
  | [] => (None, [])
  | nextItem :: rest =>
    if isEmpty rest then (Some nextItem, rest)
    else match last_unsubscribe rest with
         | Some (item, after) => (Some item, after)
         | None => (Some nextItem, rest)
         end
  end.

Definition reset (items : t) : t := [].

End SubscriptionQueue.

(** Items as [subscription.js] builds them. *)
Definition SUB : QueuedItem := mkItem (Some ACTION_SUBSCRIBE) None.
Definition UNSUB (f : bool) : QueuedItem :=
  mkItem (Some ACTION_UNSUBSCRIBE) (Some (mkArgs (Some f) None)).
Definition PATCH (delta : string) : QueuedItem :=
  mkItem (Some ACTION_MODIFY_PATCH) (Some (mkArgs None (Some delta))).
Definition BYTAG : QueuedItem := mkItem (Some ACTION_UNSUBSCRIBE_BY_TAG_PENDING) None.

(** A burst of [enqueue] calls on one queue; the burst ends at the first call
    that throws. *)
Fixpoint enqueue_all (items : SubscriptionQueue.t) (burst : list QueuedItem)
  : completion * SubscriptionQueue.t :=
  match burst with
  | [] => (Normal, items)
  | queuedItem :: rest =>
    match SubscriptionQueue.enqueue items queuedItem with
    | (Normal, items') => enqueue_all items' rest
    | thrown => thrown
    end
  end.

(** [dequeue] in the words of the specification, to compare with the code:
    "removes head and returns it; if the queue is then non-empty and contains
    any UNSUBSCRIBE or UNSUBSCRIBE_BY_TAG_PENDING at or after position 0, it
    skips forward to the last such item, discarding all items strictly before
    it". *)
Fixpoint skip_forward_as_specified (items : SubscriptionQueue.t) : option SubscriptionQueue.t :=
  match items with
  | [] => None
  | it :: rest =>
    match skip_forward_as_specified rest with
    | Some kept => Some kept
    | None => if SubscriptionQueue.is_unsubscribe it then Some (it :: rest) else None
    end
  end.

Definition dequeue_as_specified (items : SubscriptionQueue.t)
  : option QueuedItem * SubscriptionQueue.t :=
  match items with
  | [] => (None, [])
  | head :: rest => (Some head, default rest (skip_forward_as_specified rest))
  end.


(** ** JavaScript values and the object store *)

Definition loc := positive.

Inductive val :=
| VUndefined
| VNull
| VBool (b : bool)
| VNum (n : Z)
| VStr (s : string)
| VArr (l : list string)
| VObj (l : loc).

#[global] Instance val_eq_dec : EqDecision val.
Proof. solve_decision. Defined.

(** An object is its own properties; the store maps locations to objects. *)
Abbreviation obj := (gmap string val).
Abbreviation objects := (gmap loc (gmap string val)).

(** Truthiness, as [if (x)] and [!x] see a value. *)
Definition truthy (v : val) : bool :=
  match v with
  | VUndefined | VNull => false
  | VBool b => b
  | VNum n => negb (n =? 0)
  | VStr s => negb (bool_decide (s = ""))
  | VArr _ | VObj _ => true
  end.

Fixpoint join_comma (l : list string) : string :=
  match l with
  | [] => ""
  | [x] => x
  | x :: rest => x +:+ "," +:+ join_comma rest
  end.

(** The string a value turns into under [+] with a string. *)
Definition to_string (v : val) : string :=
  match v with
  | VUndefined => "undefined"
  | VNull => "null"
  | VBool true => "true"
  | VBool false => "false"
  | VNum n => pretty n
  | VStr s => s
  | VArr l => join_comma l
  | VObj _ => "[object Object]"
  end.

Definition obj_at (st : objects) (l : loc) : obj := default ∅ (st !! l).

(** [o.k]: [undefined] when the property is absent. *)
Definition get_prop (st : objects) (l : loc) (k : string) : val :=
  default VUndefined (obj_at st l !! k).

(** [o.k = v]. *)
Definition set_prop (l : loc) (k : string) (v : val) (st : objects) : objects :=
  <[l := <[k := v]> (obj_at st l)]> st.

(** [delete o.k]. *)
Definition delete_prop (l : loc) (k : string) (st : objects) : objects :=
  <[l := delete k (obj_at st l)]> st.

(** [{}]: a location the store does not use yet, holding the empty object. *)
Definition alloc (st : objects) : loc * objects :=
  let l := fresh (dom st) in (l, <[l := ∅]> st).

(** Modelled from the spec: [extend] of [utils/object.js] is not among the
    sources.  Called without the deep flag it copies the own properties of each
    source onto [target], later sources winning, and returns [target]
    ("POST body = subscription_args ∪ {ContextId, ReferenceId, KnownSchemas}"). *)
Definition extend (target : loc) (sources : list obj) (st : objects) : objects :=
  <[target := foldl (λ acc src, src ∪ acc) (obj_at st target) sources]> st.

(** ** External collaborators *)

(** Modelled from the spec: [parser/parser-facade.js] and the parsers are not
    among the sources.  [ParserFacade] "maps a MIME type to a parser object
    exposing parse, addSchema, getSchemaNames, getSchemaName"; a [parse] that
    throws is [None].  Nothing else is assumed about them. *)
Class ParserFacade := {
  Parser : Type;
  getParser : val → string → string → Parser;
  getDefaultFormat : string;
  getSchemaNames : Parser → list string;
  getSchemaName : Parser → option string;
  addSchema : Parser → string → string → Parser;
  parse : Parser → string → option string → option string;
}.

(** A streaming message [{ ReferenceId, Data }]. *)
Record Message := mkMessage {
  ReferenceId : string;
  Data : string;
}.

(** The body of a successful subscribe response ([result.response]). *)
Record SubscribeResponse := mkSubscribeResponse {
  InactivityTimeout : option Z;
  Snapshot : string;
  Schema : option string;
  resp_SchemaName : option string;
}.

(** The envelope of a failed request:
    [{ isNetworkError?, response?: { ErrorCode?, Message? } }]. *)
Record ErrorBody := mkErrorBody {
  ErrorCode : option string;
  ErrorMessage : option string;
}.

Record ErrorResponse := mkErrorResponse {
  isNetworkError : bool;
  response : option ErrorBody;
}.

(** The [options] of [onModify]. *)
Record ModifyOptions := mkModifyOptions {
  isPatch : bool;
  patchArgsDelta : option Args;
}.

(** ** Observable effects *)

Inductive LogLevel := LogDebug | LogInfo | LogWarn | LogError.

(** A request handed to the transport. *)
Inductive Request :=
| HttpPost (servicePath url : string) (body : gmap string val) (headers : option (gmap string val))
| HttpDelete (servicePath urlTemplate : string) (contextId referenceId : option string)
| HttpPatch (servicePath urlTemplate : string) (contextId referenceId : option string)
    (body : option Args).

(** The callbacks bound to a request's promise, with the reference id they
    capture. *)
Inductive Handlers :=
| SubscribeHandlers (referenceId : option string)
| UnsubscribeHandlers (referenceId : option string)
| ModifyPatchHandlers (referenceId : option string)
| CleanUpHandlers.

(** What [onUpdate] is called with: a parsed message, or a raw snapshot. *)
Inductive Update :=
| UpdateMessage (m : Message)
| UpdateSnapshot (snapshot : string).

Inductive Event :=
| Log (level : LogLevel) (message : string)
| Transport (request : Request) (handlers : Handlers)
| StateChanged (callback : nat) (state : option Z)
| OnUpdate (message : Update) (type : Z)
| OnError (response : option ErrorResponse)
| OnQueueEmpty
| OnNetworkError
| OnSubscriptionCreated
| SetTimeout (ms : Z)
| ClearTimeout.

Definition is_http (e : Event) : bool :=
  match e with Transport _ _ => true | _ => false end.

Definition is_log (e : Event) : bool :=
  match e with Log _ _ => true | _ => false end.

(** How a method call ends.  [OutOfFuel] belongs to the model only: it is the
    result of a recursion whose bound was too small, and no [try] catches it. *)
Inductive outcome (A : Type) :=
| Ret (a : A)
| Exc (msg : string)
| OutOfFuel.

Arguments Ret {A} a.
Arguments Exc {A} msg.
Arguments OutOfFuel {A}.

(** ** Constants of subscription.js *)

Definition FORMAT_PROTOBUF : string := "application/x-protobuf".
Definition FORMAT_JSON : string := "application/json".
Definition ERROR_UNSUPPORTED_FORMAT : string := "UnsupportedSubscriptionFormat".
Definition DUPLICATE_KEY_MESSAGE : string :=
  "Subscription Key (Streaming Session, Reference Id) already in use".

Definition UPDATE_TYPE_SNAPSHOT : Z := 1.
Definition UPDATE_TYPE_DELTA : Z := 2.

(** A state is whatever [this.STATE_...] evaluates to: a number, or
    [undefined] ([None]). *)
Definition STATE_SUBSCRIBE_REQUESTED : option Z := Some 1.
Definition STATE_SUBSCRIBED : option Z := Some 2.
Definition STATE_UNSUBSCRIBE_REQUESTED : option Z := Some 4.
Definition STATE_UNSUBSCRIBED : option Z := Some 8.
Definition STATE_PATCH_REQUESTED : option Z := Some 16.

(** [Subscription.prototype] is given the five constants above (lines 682 to
    686) and no [STATE_READY_FOR_UNSUBSCRIBE_BY_TAG]: every read of
    [this.STATE_READY_FOR_UNSUBSCRIBE_BY_TAG] yields [undefined]. *)
Definition STATE_READY_FOR_UNSUBSCRIBE_BY_TAG : option Z := None.

(** [ToInt32], applied by [|] and [&] to their operands. *)
Definition to_int32 (v : option Z) : Z :=
  match v with
  | None => 0
  | Some n => (n + 2 ^ 31) `mod` 2 ^ 32 - 2 ^ 31
  end.

Definition TRANSITIONING_STATES : Z :=
  Z.lor (Z.lor (Z.lor (to_int32 STATE_SUBSCRIBE_REQUESTED)
                      (to_int32 STATE_UNSUBSCRIBE_REQUESTED))
               (to_int32 STATE_PATCH_REQUESTED))
        (to_int32 STATE_READY_FOR_UNSUBSCRIBE_BY_TAG).

(** [this.TRANSITIONING_STATES & this.currentState], as a condition. *)
Definition is_transitioning (currentState : option Z) : bool :=
  negb (Z.land TRANSITIONING_STATES (to_int32 currentState) =? 0).

(** [this.queue.peekAction() & ACTION_UNSUBSCRIBE], as a condition. *)
Definition peek_is_unsubscribe (items : SubscriptionQueue.t) : bool :=
  negb (Z.land (to_int32 (action_code <$> SubscriptionQueue.peekAction items))
               (to_int32 (Some (action_code ACTION_UNSUBSCRIBE))) =? 0).

(** Truthiness of a string-valued property that may be absent. *)
Definition truthy_str (o : option string) : bool :=
  match o with
  | Some s => negb (bool_decide (s = ""))
  | None => false
  end.

(** ** The subscription (subscription.js) *)

Section Subscription.

Context `{ParserFacade}.

(** The fields of [this], and below them the part of the environment the
    methods read and write: the module-level [referenceIdCounter], the object
    store and the clock behind [new Date().getTime()], which is taken not to
    advance during one call.  A callback field is [true] when the callback is
    set; [networkErrorSubscribingTimer] is [true] while the timer handle is
    held.  The transport is opaque and has no field. *)
Record Subscription := mkSubscription {
  streamingContextId : string;
  currentStreamingContextId : option string;
  referenceId : option string;
  queue : SubscriptionQueue.t;
  parser : Parser;
  onStateChangedCallbacks : list nat;
  servicePath : string;
  url : string;
  onSubscriptionCreated : bool;
  subscriptionData : loc;
  onUpdate : bool;
  onError : bool;
  onQueueEmpty : bool;
  headers : option loc;
  onNetworkError : bool;
  connectionAvailable : bool;
  currentState : option Z;
  inactivityTimeout : option Z;
  latestActivity : option Z;
  updatesBeforeSubscribed : option (list Message);
  networkErrorSubscribingTimer : bool;
  isDisposed : bool;
  SchemaName : option string;
  referenceIdCounter : Z;
  store : objects;
  now : Z;
}.

Definition set_currentStreamingContextId v (s : Subscription) : Subscription :=
  mkSubscription (streamingContextId s) v (referenceId s) (queue s)
    (parser s) (onStateChangedCallbacks s) (servicePath s) (url s)
    (onSubscriptionCreated s) (subscriptionData s) (onUpdate s) (onError
    s) (onQueueEmpty s) (headers s) (onNetworkError s)
    (connectionAvailable s) (currentState s) (inactivityTimeout s)
    (latestActivity s) (updatesBeforeSubscribed s)
    (networkErrorSubscribingTimer s) (isDisposed s) (SchemaName s)
    (referenceIdCounter s) (store s) (now s).

Definition set_referenceId v (s : Subscription) : Subscription :=
  mkSubscription (streamingContextId s) (currentStreamingContextId s) v
    (queue s) (parser s) (onStateChangedCallbacks s) (servicePath s) (url
    s) (onSubscriptionCreated s) (subscriptionData s) (onUpdate s)
    (onError s) (onQueueEmpty s) (headers s) (onNetworkError s)
    (connectionAvailable s) (currentState s) (inactivityTimeout s)
    (latestActivity s) (updatesBeforeSubscribed s)
    (networkErrorSubscribingTimer s) (isDisposed s) (SchemaName s)
    (referenceIdCounter s) (store s) (now s).

Definition set_queue v (s : Subscription) : Subscription :=
  mkSubscription (streamingContextId s) (currentStreamingContextId s)
    (referenceId s) v (parser s) (onStateChangedCallbacks s) (servicePath
    s) (url s) (onSubscriptionCreated s) (subscriptionData s) (onUpdate s)
    (onError s) (onQueueEmpty s) (headers s) (onNetworkError s)
    (connectionAvailable s) (currentState s) (inactivityTimeout s)
    (latestActivity s) (updatesBeforeSubscribed s)
    (networkErrorSubscribingTimer s) (isDisposed s) (SchemaName s)
    (referenceIdCounter s) (store s) (now s).

Definition set_parser v (s : Subscription) : Subscription :=
  mkSubscription (streamingContextId s) (currentStreamingContextId s)
    (referenceId s) (queue s) v (onStateChangedCallbacks s) (servicePath
    s) (url s) (onSubscriptionCreated s) (subscriptionData s) (onUpdate s)
    (onError s) (onQueueEmpty s) (headers s) (onNetworkError s)
    (connectionAvailable s) (currentState s) (inactivityTimeout s)
    (latestActivity s) (updatesBeforeSubscribed s)
    (networkErrorSubscribingTimer s) (isDisposed s) (SchemaName s)
    (referenceIdCounter s) (store s) (now s).

Definition set_onStateChangedCallbacks v (s : Subscription) : Subscription :=
  mkSubscription (streamingContextId s) (currentStreamingContextId s)
    (referenceId s) (queue s) (parser s) v (servicePath s) (url s)
    (onSubscriptionCreated s) (subscriptionData s) (onUpdate s) (onError
    s) (onQueueEmpty s) (headers s) (onNetworkError s)
    (connectionAvailable s) (currentState s) (inactivityTimeout s)
    (latestActivity s) (updatesBeforeSubscribed s)
    (networkErrorSubscribingTimer s) (isDisposed s) (SchemaName s)
    (referenceIdCounter s) (store s) (now s).

Definition set_connectionAvailable v (s : Subscription) : Subscription :=
  mkSubscription (streamingContextId s) (currentStreamingContextId s)
    (referenceId s) (queue s) (parser s) (onStateChangedCallbacks s)
    (servicePath s) (url s) (onSubscriptionCreated s) (subscriptionData s)
    (onUpdate s) (onError s) (onQueueEmpty s) (headers s) (onNetworkError
    s) v (currentState s) (inactivityTimeout s) (latestActivity s)
    (updatesBeforeSubscribed s) (networkErrorSubscribingTimer s)
    (isDisposed s) (SchemaName s) (referenceIdCounter s) (store s) (now s).

Definition set_currentState v (s : Subscription) : Subscription :=
  mkSubscription (streamingContextId s) (currentStreamingContextId s)
    (referenceId s) (queue s) (parser s) (onStateChangedCallbacks s)
    (servicePath s) (url s) (onSubscriptionCreated s) (subscriptionData s)
    (onUpdate s) (onError s) (onQueueEmpty s) (headers s) (onNetworkError
    s) (connectionAvailable s) v (inactivityTimeout s) (latestActivity s)
    (updatesBeforeSubscribed s) (networkErrorSubscribingTimer s)
    (isDisposed s) (SchemaName s) (referenceIdCounter s) (store s) (now s).

Definition set_inactivityTimeout v (s : Subscription) : Subscription :=
  mkSubscription (streamingContextId s) (currentStreamingContextId s)
    (referenceId s) (queue s) (parser s) (onStateChangedCallbacks s)
    (servicePath s) (url s) (onSubscriptionCreated s) (subscriptionData s)
    (onUpdate s) (onError s) (onQueueEmpty s) (headers s) (onNetworkError
    s) (connectionAvailable s) (currentState s) v (latestActivity s)
    (updatesBeforeSubscribed s) (networkErrorSubscribingTimer s)
    (isDisposed s) (SchemaName s) (referenceIdCounter s) (store s) (now s).

Definition set_latestActivity v (s : Subscription) : Subscription :=
  mkSubscription (streamingContextId s) (currentStreamingContextId s)
    (referenceId s) (queue s) (parser s) (onStateChangedCallbacks s)
    (servicePath s) (url s) (onSubscriptionCreated s) (subscriptionData s)
    (onUpdate s) (onError s) (onQueueEmpty s) (headers s) (onNetworkError
    s) (connectionAvailable s) (currentState s) (inactivityTimeout s) v
    (updatesBeforeSubscribed s) (networkErrorSubscribingTimer s)
    (isDisposed s) (SchemaName s) (referenceIdCounter s) (store s) (now s).

Definition set_updatesBeforeSubscribed v (s : Subscription) : Subscription :=
  mkSubscription (streamingContextId s) (currentStreamingContextId s)
    (referenceId s) (queue s) (parser s) (onStateChangedCallbacks s)
    (servicePath s) (url s) (onSubscriptionCreated s) (subscriptionData s)
    (onUpdate s) (onError s) (onQueueEmpty s) (headers s) (onNetworkError
    s) (connectionAvailable s) (currentState s) (inactivityTimeout s)
    (latestActivity s) v (networkErrorSubscribingTimer s) (isDisposed s)
    (SchemaName s) (referenceIdCounter s) (store s) (now s).

Definition set_networkErrorSubscribingTimer v (s : Subscription) : Subscription :=
  mkSubscription (streamingContextId s) (currentStreamingContextId s)
    (referenceId s) (queue s) (parser s) (onStateChangedCallbacks s)
    (servicePath s) (url s) (onSubscriptionCreated s) (subscriptionData s)
    (onUpdate s) (onError s) (onQueueEmpty s) (headers s) (onNetworkError
    s) (connectionAvailable s) (currentState s) (inactivityTimeout s)
    (latestActivity s) (updatesBeforeSubscribed s) v (isDisposed s)
    (SchemaName s) (referenceIdCounter s) (store s) (now s).

Definition set_isDisposed v (s : Subscription) : Subscription :=
  mkSubscription (streamingContextId s) (currentStreamingContextId s)
    (referenceId s) (queue s) (parser s) (onStateChangedCallbacks s)
    (servicePath s) (url s) (onSubscriptionCreated s) (subscriptionData s)
    (onUpdate s) (onError s) (onQueueEmpty s) (headers s) (onNetworkError
    s) (connectionAvailable s) (currentState s) (inactivityTimeout s)
    (latestActivity s) (updatesBeforeSubscribed s)
    (networkErrorSubscribingTimer s) v (SchemaName s) (referenceIdCounter
    s) (store s) (now s).

Definition set_SchemaName v (s : Subscription) : Subscription :=
  mkSubscription (streamingContextId s) (currentStreamingContextId s)
    (referenceId s) (queue s) (parser s) (onStateChangedCallbacks s)
    (servicePath s) (url s) (onSubscriptionCreated s) (subscriptionData s)
    (onUpdate s) (onError s) (onQueueEmpty s) (headers s) (onNetworkError
    s) (connectionAvailable s) (currentState s) (inactivityTimeout s)
    (latestActivity s) (updatesBeforeSubscribed s)
    (networkErrorSubscribingTimer s) (isDisposed s) v (referenceIdCounter
    s) (store s) (now s).

Definition set_referenceIdCounter v (s : Subscription) : Subscription :=
  mkSubscription (streamingContextId s) (currentStreamingContextId s)
    (referenceId s) (queue s) (parser s) (onStateChangedCallbacks s)
    (servicePath s) (url s) (onSubscriptionCreated s) (subscriptionData s)
    (onUpdate s) (onError s) (onQueueEmpty s) (headers s) (onNetworkError
    s) (connectionAvailable s) (currentState s) (inactivityTimeout s)
    (latestActivity s) (updatesBeforeSubscribed s)
    (networkErrorSubscribingTimer s) (isDisposed s) (SchemaName s) v
    (store s) (now s).

Definition set_store v (s : Subscription) : Subscription :=
  mkSubscription (streamingContextId s) (currentStreamingContextId s)
    (referenceId s) (queue s) (parser s) (onStateChangedCallbacks s)
    (servicePath s) (url s) (onSubscriptionCreated s) (subscriptionData s)
    (onUpdate s) (onError s) (onQueueEmpty s) (headers s) (onNetworkError
    s) (connectionAvailable s) (currentState s) (inactivityTimeout s)
    (latestActivity s) (updatesBeforeSubscribed s)
    (networkErrorSubscribingTimer s) (isDisposed s) (SchemaName s)
    (referenceIdCounter s) v (now s).

(** *** The monad of method bodies *)

Definition M (A : Type) : Type :=
  Subscription → outcome A * Subscription * list Event.

#[global] Instance M_ret : MRet M := λ A a s, (Ret a, s, []).

#[global] Instance M_bind : MBind M := λ A B f m s,
  match m s with
  | (Ret a, s1, t1) =>
    match f a s1 with
    | (o, s2, t2) => (o, s2, t1 ++ t2)
    end
  | (Exc msg, s1, t1) => (Exc msg, s1, t1)
  | (OutOfFuel, s1, t1) => (OutOfFuel, s1, t1)
  end.

Definition get : M Subscription := λ s, (Ret s, s, []).
Definition gets {A} (f : Subscription → A) : M A := λ s, (Ret (f s), s, []).
Definition modify (f : Subscription → Subscription) : M unit := λ s, (Ret (), f s, []).
Definition emit (e : Event) : M unit := λ s, (Ret (), s, [e]).
Definition emits (t : list Event) : M unit := λ s, (Ret (), s, t).
Definition throw {A} (msg : string) : M A := λ s, (Exc msg, s, []).
Definition out_of_fuel {A} : M A := λ s, (OutOfFuel, s, []).
Definition skip : M unit := mret ().

(** [try { m } catch (error) { h }]. *)
Definition try_catch {A} (m : M A) (h : string → M A) : M A := λ s,
  match m s with
  | (Exc msg, s1, t1) =>
    match h msg s1 with
    | (o, s2, t2) => (o, s2, t1 ++ t2)
    end
  | r => r
  end.

Definition when (c : bool) (m : M unit) : M unit := if c then m else skip.

(** *** Local methods *)

Definition getSubscribeUrl (url : string) (subscriptionData : loc) (st : objects) : string :=
  if negb (truthy (get_prop st subscriptionData "Top")) then url
  else url +:+ "?$top=" +:+ to_string (get_prop st subscriptionData "Top").

Definition normalizeSubscribeData (data : loc) (st : objects) : objects :=
  if bool_decide (is_Some (obj_at st data !! "Top"))
  then delete_prop data "Top" st
  else st.

Definition onActivity : M unit :=
  modify (λ s, set_latestActivity (Some (now s)) s).

Definition setState (state : option Z) : M unit :=
  modify (set_currentState state);;
  callbacks ← gets onStateChangedCallbacks;
  emits ((λ callback, StateChanged callback state) <$> callbacks).

Definition request_url (s : Subscription) : string :=
  url s +:+ "/{contextId}/{referenceId}".

(** The objects [subscribe] builds (lines 70 to 81): the POST body [data], a
    copy of [this.subscriptionData] extended with the ids and normalised, and
    the copy of the headers; the result is the two locations and the store. *)
Definition build_post (s : Subscription) (referenceId0 : string)
  : loc * option loc * objects :=
  let '(data, st1) := alloc (store s) in
  let st2 :=
    extend data
      [obj_at st1 (subscriptionData s);
       {[ "ContextId" := VStr (streamingContextId s);
          "ReferenceId" := VStr referenceId0;
          "KnownSchemas" := VArr (getSchemaNames (parser s)) ]}] st1 in
  let '(optionsHeaders, st3) :=
    match headers s with
    | Some h =>
      let '(copy, st) := alloc st2 in
      (Some copy, extend copy [obj_at st h] st)
    | None => (None, st2)
    end in
  (data, optionsHeaders, normalizeSubscribeData data st3).

Definition subscribe : M unit :=
  counter ← gets referenceIdCounter;
  let referenceId0 := pretty counter in
  modify (set_referenceIdCounter (counter + 1));;
  modify (set_referenceId (Some referenceId0));;
  modify (set_updatesBeforeSubscribed None);;
  s ← get;
  let subscribeUrl := getSubscribeUrl (url s) (subscriptionData s) (store s) in
  let '(data, optionsHeaders, st) := build_post s referenceId0 in
  modify (set_store st);;
  emit (Log LogDebug "Posting to create a subscription");;
  setState STATE_SUBSCRIBE_REQUESTED;;
  modify (set_currentStreamingContextId (Some (streamingContextId s)));;
  emit (Transport
          (HttpPost (servicePath s) subscribeUrl (obj_at st data)
                    (obj_at st <$> optionsHeaders))
          (SubscribeHandlers (Some referenceId0))).

Definition unsubscribe : M unit :=
  setState STATE_UNSUBSCRIBE_REQUESTED;;
  s ← get;
  emit (Transport
          (HttpDelete (servicePath s) (request_url s)
                      (currentStreamingContextId s) (referenceId s))
          (UnsubscribeHandlers (referenceId s))).

Definition modifyPatch (args : option Args) : M unit :=
  setState STATE_PATCH_REQUESTED;;
  s ← get;
  emit (Transport
          (HttpPatch (servicePath s) (request_url s)
                     (currentStreamingContextId s) (referenceId s) args)
          (ModifyPatchHandlers (referenceId s))).

Definition unsubscribeByTagPending : M unit :=
  setState STATE_READY_FOR_UNSUBSCRIBE_BY_TAG.

Definition queue_enqueue (queuedItem : QueuedItem) : M unit := λ s,
  match SubscriptionQueue.enqueue (queue s) queuedItem with
  | (Normal, items) => (Ret (), set_queue items s, [])
  | (Thrown msg, items) => (Exc msg, set_queue items s, [])
  end.

Definition queue_dequeue : M (option QueuedItem) := λ s,
  match SubscriptionQueue.dequeue (queue s) with
  | (item, items) => (Ret item, set_queue items s, [])
  end.

Definition queue_isEmpty : M bool :=
  gets (λ s, SubscriptionQueue.isEmpty (queue s)).

(** [switch (this.currentState)] of [performAction], one per action. *)
Definition performSubscribe : M unit :=
  state ← gets currentState;
  if bool_decide (state = STATE_SUBSCRIBED) then skip
  else if bool_decide (state = STATE_UNSUBSCRIBED) then
    modify (λ s, set_queue (SubscriptionQueue.clearPatches (queue s)) s);;
    subscribe
  else emit (Log LogError "Unanticipated state in performAction Subscribe").

Definition performModifyPatch (args : option Args) : M unit :=
  state ← gets currentState;
  if bool_decide (state = STATE_SUBSCRIBED) then modifyPatch args
  else emit (Log LogError "Unanticipated state in performAction Patch").

Definition performUnsubscribe : M unit :=
  state ← gets currentState;
  if bool_decide (state = STATE_SUBSCRIBED) then unsubscribe
  else if bool_decide (state = STATE_UNSUBSCRIBED) then skip
  else emit (Log LogError "Unanticipated state in performAction Unsubscribe").

Definition performUnsubscribeByTagPending : M unit :=
  state ← gets currentState;
  if bool_decide (state = STATE_SUBSCRIBED) || bool_decide (state = STATE_UNSUBSCRIBED)
  then unsubscribeByTagPending
  else emit (Log LogError "Unanticipated state in performAction UnsubscribeByTagPending").

(** [switch (action)] of [performAction]. *)
Definition dispatchAction (queuedItem : QueuedItem) : M unit :=
  match action queuedItem with
  | Some ACTION_SUBSCRIBE => performSubscribe
  | Some ACTION_MODIFY_PATCH => performModifyPatch (args queuedItem)
  | Some ACTION_UNSUBSCRIBE => performUnsubscribe
  | Some ACTION_UNSUBSCRIBE_BY_TAG_PENDING => performUnsubscribeByTagPending
  | None => throw "unrecognised action undefined"
  end.

Definition type_error_queuedItem : string :=
  "TypeError: Cannot destructure 'queuedItem' as it is undefined.".

(** [performAction]; it calls itself on the item it dequeues, so that the
    queue, which no call makes longer, bounds the recursion: [fuel] is that
    bound. *)
Fixpoint performAction (fuel : nat) (queuedItem : QueuedItem)
    (isLastQueuedAction : bool) : M unit :=
  match fuel with
  | O => out_of_fuel
  | S fuel' =>
    dispatchAction queuedItem;;
    hasOnQueueEmpty ← gets onQueueEmpty;
    when (hasOnQueueEmpty && isLastQueuedAction) (emit OnQueueEmpty);;
    s ← get;
    if negb (SubscriptionQueue.isEmpty (queue s))
       && negb (is_transitioning (currentState s))
    then
      next ← queue_dequeue;
      isLast ← queue_isEmpty;
      match next with
      | Some item => performAction fuel' item isLast
      | None => throw type_error_queuedItem
      end
    else skip
  end.

(** The bound for a call of [performAction] in state [s]. *)
Definition fuel_for (s : Subscription) : nat := S (length (queue s)).

Definition tryPerformAction (action : Action) (args : option Args) : M unit :=
  timer ← gets networkErrorSubscribingTimer;
  when timer (emit ClearTimeout;; modify (set_networkErrorSubscribingTimer false));;
  s ← get;
  if negb (connectionAvailable s) || is_transitioning (currentState s)
  then queue_enqueue (mkItem (Some action) args)
  else performAction (fuel_for s) (mkItem (Some action) args) false.

Definition onReadyToPerformNextAction : M unit :=
  s ← get;
  if negb (connectionAvailable s) || SubscriptionQueue.isEmpty (queue s) then skip
  else
    next ← queue_dequeue;
    isLast ← queue_isEmpty;
    s' ← get;
    match next with
    | Some item => performAction (fuel_for s') item isLast
    | None => throw type_error_queuedItem
    end.

(** *** Exported methods: requests of the caller *)

Definition onSubscribe : M unit :=
  disposed ← gets isDisposed;
  if disposed : bool
  then throw "Subscribing a disposed subscription - you will not get data"
  else tryPerformAction ACTION_SUBSCRIBE None.

Definition onUnsubscribe (forceUnsubscribe : bool) : M unit :=
  disposed ← gets isDisposed;
  when disposed
    (emit (Log LogWarn "Unsubscribing a disposed subscription - this is not necessary"));;
  tryPerformAction ACTION_UNSUBSCRIBE (Some (mkArgs (Some forceUnsubscribe) None)).

Definition onModify (newArgs : val) (options : option ModifyOptions) : M unit :=
  disposed ← gets isDisposed;
  if disposed : bool
  then throw "Modifying a disposed subscription - you will not get data"
  else
    modify (λ s, set_store (set_prop (subscriptionData s) "Arguments" newArgs (store s)) s);;
    match options with
    | Some (mkModifyOptions true None) =>
      throw "Modify options patchArgsDelta is not defined"
    | Some (mkModifyOptions true (Some patchArgsDelta)) =>
      tryPerformAction ACTION_MODIFY_PATCH (Some patchArgsDelta)
    | _ =>
      onUnsubscribe true;;
      onSubscribe
    end.

Definition dispose : M unit := modify (set_isDisposed true).

Definition reset : M unit :=
  state ← gets currentState;
  if bool_decide (state = STATE_UNSUBSCRIBED)
     || bool_decide (state = STATE_UNSUBSCRIBE_REQUESTED)
  then skip
  else if bool_decide (state = STATE_SUBSCRIBE_REQUESTED)
          || bool_decide (state = STATE_SUBSCRIBED)
  then
    items ← gets queue;
    if peek_is_unsubscribe items then skip
    else onUnsubscribe true;; onSubscribe
  else if bool_decide (state = STATE_PATCH_REQUESTED)
  then
    setState STATE_SUBSCRIBED;;
    onUnsubscribe true;;
    onSubscribe
  else if bool_decide (state = STATE_READY_FOR_UNSUBSCRIBE_BY_TAG)
  then skip
  else emit (Log LogError "Reset was called but subscription is in an unknown state").

Definition onConnectionUnavailable : M unit :=
  modify (set_connectionAvailable false);;
  timer ← gets networkErrorSubscribingTimer;
  when timer
    (emit ClearTimeout;;
     modify (set_networkErrorSubscribingTimer false);;
     tryPerformAction ACTION_SUBSCRIBE None).

Definition onConnectionAvailable : M unit :=
  modify (set_connectionAvailable true);;
  state ← gets currentState;
  when (negb (is_transitioning state)) onReadyToPerformNextAction.

Definition onUnsubscribeByTagPending : M unit :=
  tryPerformAction ACTION_UNSUBSCRIBE_BY_TAG_PENDING None.

Definition onUnsubscribeByTagComplete : M unit :=
  setState STATE_UNSUBSCRIBED;;
  onReadyToPerformNextAction.

Definition isReadyForUnsubscribeByTag : M bool :=
  gets (λ s, bool_decide (currentState s = STATE_READY_FOR_UNSUBSCRIBE_BY_TAG)).

Definition addStateChangedCallback (callback : nat) : M unit :=
  modify (λ s,
    if bool_decide (callback ∈ onStateChangedCallbacks s) then s
    else set_onStateChangedCallbacks (onStateChangedCallbacks s ++ [callback]) s).

(** [splice(index, 1)] at the first index of [callback]. *)
Fixpoint remove_first (callback : nat) (l : list nat) : list nat :=
  match l with
  | [] => []
  | x :: rest => if bool_decide (x = callback) then rest else x :: remove_first callback rest
  end.

Definition removeStateChangedCallback (callback : nat) : M unit :=
  modify (λ s, set_onStateChangedCallbacks (remove_first callback (onStateChangedCallbacks s)) s).

(** *** Streaming data *)

Definition type_error_onUpdate : string := "TypeError: this.onUpdate is not a function".

Definition processUpdate (message : Message) (type : Z) : M unit :=
  s ← get;
  match parse (parser s) (Data message) (SchemaName s) with
  | None =>
    emit (Log LogError "Error occurred parsing Data");;
    (* if we cannot understand an update we should re-subscribe *)
    reset
  | Some data =>
    if onUpdate s
    then emit (OnUpdate (UpdateMessage (mkMessage (ReferenceId message) data)) type)
    else throw type_error_onUpdate
  end.

(** The result is [Some false] for [return false] and [None] for a return
    without a value. *)
Definition onStreamingData (message : Message) : M (option bool) :=
  onActivity;;
  state ← gets currentState;
  if bool_decide (state = STATE_UNSUBSCRIBE_REQUESTED) then mret None
  else if bool_decide (state = STATE_UNSUBSCRIBED) then mret (Some false)
  else if bool_decide (state = STATE_SUBSCRIBE_REQUESTED) then
    modify (λ s, set_updatesBeforeSubscribed
                   (Some (default [] (updatesBeforeSubscribed s) ++ [message])) s);;
    mret None
  else
    (if bool_decide (state = STATE_SUBSCRIBED) || bool_decide (state = STATE_PATCH_REQUESTED)
     then skip
     else emit (Log LogError "Unanticipated state onStreamingData"));;
    try_catch (processUpdate message UPDATE_TYPE_DELTA)
      (λ _, emit (Log LogError "Exception occurred in streaming delta update callback"));;
    mret None.

Definition onHeartbeat : M unit :=
  state ← gets currentState;
  when (bool_decide (state = STATE_SUBSCRIBE_REQUESTED))
    (emit (Log LogDebug "Received heartbeat for a subscription we havent subscribed to yet"));;
  onActivity.

Definition processSnapshot (response : SubscribeResponse) : M unit :=
  match Schema response, resp_SchemaName response with
  | Some schema, Some schemaName =>
    when (truthy_str (Some schema) && truthy_str (Some schemaName))
      (modify (set_SchemaName (Some schemaName));;
       modify (λ s, set_parser (addSchema (parser s) schema schemaName) s))
  | _, _ => skip
  end;;
  when (negb (truthy_str (resp_SchemaName response)))
    (modify (λ s, set_SchemaName (getSchemaName (parser s)) s);;
     s ← get;
     when (bool_decide (get_prop (store s) (subscriptionData s) "Format" = VStr FORMAT_PROTOBUF)
           && negb (truthy_str (SchemaName s)))
       (modify (set_parser (getParser (VStr getDefaultFormat) (servicePath s) (url s)))));;
  hasOnUpdate ← gets onUpdate;
  if hasOnUpdate : bool
  then emit (OnUpdate (UpdateSnapshot (Snapshot response)) UPDATE_TYPE_SNAPSHOT)
  else throw type_error_onUpdate.

(** *** Responses of the transport *)

(** The loop over [this.updatesBeforeSubscribed] in [onSubscribeSuccess]; the
    array and its length are read again at every turn. *)
Fixpoint replayUpdates (fuel : nat) (i : nat) : M unit :=
  match fuel with
  | O => out_of_fuel
  | S fuel' =>
    updates ← gets updatesBeforeSubscribed;
    match updates with
    | None => throw "TypeError: Cannot read properties of null (reading 'length')"
    | Some l =>
      match l !! i with
      | Some message => onStreamingData message;; replayUpdates fuel' (S i)
      | None => skip
      end
    end
  end.

(** [!responseData.InactivityTimeout === 0] is [(!x) === 0]: a boolean is
    never strictly equal to a number. *)
Definition inactivity_warning (responseData : SubscribeResponse) : bool := false.

Definition onSubscribeSuccess (referenceId0 : option string)
    (responseData : SubscribeResponse) : M unit :=
  current ← gets referenceId;
  if negb (bool_decide (referenceId0 = current)) then
    emit (Log LogInfo
      "Received an Ok subscribe response for subscribing a subscription that has afterwards been reset - ignoring")
  else
    setState STATE_SUBSCRIBED;;
    modify (set_inactivityTimeout (Some (default 0 (InactivityTimeout responseData))));;
    when (inactivity_warning responseData)
      (emit (Log LogWarn
         "inactivity timeout is 0 - interpreting as never timeout. Remove warning if normal."));;
    onActivity;;
    created ← gets onSubscriptionCreated;
    when created (emit OnSubscriptionCreated);;
    items ← gets queue;
    (* do not fire events if we are waiting to unsubscribe *)
    when (negb (bool_decide (SubscriptionQueue.peekAction items = Some ACTION_UNSUBSCRIBE)))
      (try_catch (processSnapshot responseData)
         (λ _, emit (Log LogError "Exception occurred in streaming snapshot update callback"));;
       updates ← gets updatesBeforeSubscribed;
       match updates with
       | Some l => replayUpdates (S (length l)) 0
       | None => skip
       end);;
    modify (set_updatesBeforeSubscribed None);;
    onReadyToPerformNextAction.

Definition cleanUpLeftOverSubscription (referenceId0 : option string) : M unit :=
  s ← get;
  emit (Transport
          (HttpDelete (servicePath s) (request_url s)
                      (currentStreamingContextId s) referenceId0)
          CleanUpHandlers).

Definition isDupeRequest (envelope : option ErrorResponse) : bool :=
  match envelope with
  | Some r =>
    match response r with
    | Some body => bool_decide (ErrorMessage body = Some DUPLICATE_KEY_MESSAGE)
    | None => false
    end
  | None => false
  end.

Definition errorCode (envelope : option ErrorResponse) : option string :=
  match envelope with
  | Some r =>
    match response r with
    | Some body => ErrorCode body
    | None => None
    end
  | None => None
  end.

Definition is_network_error (envelope : option ErrorResponse) : bool :=
  match envelope with
  | Some r => isNetworkError r
  | None => false
  end.

(** The body of the timer that [onSubscribeError] starts. *)
Definition onNetworkErrorTimeout : M unit :=
  modify (set_networkErrorSubscribingTimer false);;
  tryPerformAction ACTION_SUBSCRIBE None.

(** In the two blocks that may return early the result says whether the
    handler has returned. *)
Definition onSubscribeError (referenceId0 : option string)
    (response : option ErrorResponse) : M unit :=
  current ← gets referenceId;
  if negb (bool_decide (referenceId0 = current)) then
    emit (Log LogDebug
      "Received an error response for subscribing a subscription that has afterwards been reset - ignoring")
  else
    willUnsubscribe ← gets (λ s, peek_is_unsubscribe (queue s));
    setState STATE_UNSUBSCRIBED;;
    returned ←
      (if isDupeRequest response then
         emit (Log LogError "A duplicate request occurred subscribing");;
         cleanUpLeftOverSubscription referenceId0;;
         (* if a duplicate request we reset as it should pass 2nd time around *)
         if negb willUnsubscribe
         then tryPerformAction ACTION_SUBSCRIBE None;; mret true
         else mret false
       else mret false);
    if returned : bool then skip else
    s ← get;
    returned ←
      (if bool_decide (errorCode response = Some ERROR_UNSUPPORTED_FORMAT)
          && bool_decide (get_prop (store s) (subscriptionData s) "Format" = VStr FORMAT_PROTOBUF)
       then
         emit (Log LogWarn "Protobuf is not supported, falling back to JSON");;
         modify (set_store (set_prop (subscriptionData s) "Format" (VStr FORMAT_JSON) (store s)));;
         modify (set_parser (getParser (VStr FORMAT_JSON) (servicePath s) (url s)));;
         if negb willUnsubscribe
         then tryPerformAction ACTION_SUBSCRIBE None;; mret true
         else mret false
       else mret false);
    if returned : bool then skip else
    if is_network_error response && negb willUnsubscribe then
      emit (Log LogDebug "A network error occurred subscribing");;
      emit (SetTimeout 5000);;
      modify (set_networkErrorSubscribingTimer true);;
      hasOnNetworkError ← gets onNetworkError;
      when hasOnNetworkError (emit OnNetworkError)
    else
      when (negb (is_network_error response))
        (emit (Log LogError "An error occurred subscribing"));;
      (* if we are unsubscribed, do not fire the error handler *)
      hasOnError ← gets onError;
      when (negb willUnsubscribe && hasOnError) (emit (OnError response));;
      onReadyToPerformNextAction.

Definition onUnsubscribeSuccess (referenceId0 : option string) : M unit :=
  current ← gets referenceId;
  if negb (bool_decide (referenceId0 = current)) then
    emit (Log LogDebug
      "Received an error response for subscribing a subscription that has afterwards been reset - ignoring")
  else
    setState STATE_UNSUBSCRIBED;;
    onReadyToPerformNextAction.

Definition onUnsubscribeError (referenceId0 : option string) : M unit :=
  current ← gets referenceId;
  if negb (bool_decide (referenceId0 = current)) then
    emit (Log LogDebug
      "Received an error response for unsubscribing a subscription that has afterwards been reset - ignoring")
  else
    setState STATE_UNSUBSCRIBED;;
    emit (Log LogInfo "An error occurred unsubscribing");;
    onReadyToPerformNextAction.

Definition onModifyPatchSuccess (referenceId0 : option string) : M unit :=
  current ← gets referenceId;
  if negb (bool_decide (referenceId0 = current)) then
    emit (Log LogDebug
      "Received a response for modify patch a subscription that has afterwards been reset - ignoring")
  else
    setState STATE_SUBSCRIBED;;
    onReadyToPerformNextAction.

Definition onModifyPatchError (referenceId0 : option string) : M unit :=
  current ← gets referenceId;
  if negb (bool_decide (referenceId0 = current)) then
    emit (Log LogDebug
      "Received an error response for modify patch a subscription that has afterwards been reset - ignoring")
  else
    setState STATE_SUBSCRIBED;;
    emit (Log LogError "An error occurred patching");;
    onReadyToPerformNextAction.

End Subscription.

(** ** A concrete world, for examples *)

(** A facade whose parsers are the lists of schema names registered so far and
    whose [parse] fails on the empty string only. *)
Definition SchemaList : ParserFacade := {|
  Parser := list string;
  getParser := λ _ _ _, [];
  getDefaultFormat := FORMAT_JSON;
  getSchemaNames := λ p, p;
  getSchemaName := λ p, last p;
  addSchema := λ p _ name, p ++ [name];
  parse := λ _ data _, if bool_decide (data = "") then None else Some data;
|}.

(** The store after [new Subscription(..)] was given the object
    [{ Format, RefreshRate: 1000, Top: 10 }] at location 1. *)
Definition args_store (format : string) : objects :=
  {[ 1%positive := {[ "Format" := VStr format; "RefreshRate" := VNum 1000; "Top" := VNum 10 ]} ]}.

(** The subscription as the constructor leaves it (unsubscribed, connection
    available, empty queue, [onSubscriptionCreated], [onUpdate] and [onError]
    set) once the state observer 7 has been added. *)
Definition new_subscription (format : string) : @Subscription SchemaList :=
  @mkSubscription SchemaList
    "ctx" None None [] [] [7%nat] "sp" "/prices" true 1%positive
    true true false None false true STATE_UNSUBSCRIBED None None None
    false false None 1 (args_store format) 1000.

(** The state a computation leaves behind, and its events. *)
Definition state_of {PF : ParserFacade} {A} (r : outcome A * @Subscription PF * list Event)
  : @Subscription PF := r.1.2.

Definition events_of {PF : ParserFacade} {A} (r : outcome A * @Subscription PF * list Event)
  : list Event := r.2.

Definition outcome_of {PF : ParserFacade} {A} (r : outcome A * @Subscription PF * list Event)
  : outcome A := r.1.1.

(** States reached from [new_subscription] through the exported methods and
    the handlers. *)
Definition snapshot_response : SubscribeResponse :=
  mkSubscribeResponse (Some 30) "snapshot" None None.

(** [onSubscribe()]: SUBSCRIBE_REQUESTED with reference id "1". *)
Definition requested (format : string) : @Subscription SchemaList :=
  state_of (onSubscribe (new_subscription format)).

(** ... and the POST succeeded: SUBSCRIBED. *)
Definition subscribed (format : string) : @Subscription SchemaList :=
  state_of (onSubscribeSuccess (Some "1") snapshot_response (requested format)).

(** ... and [dispose()]. *)
Definition disposed : @Subscription SchemaList :=
  state_of (dispose (subscribed FORMAT_JSON)).

(** [onUnsubscribeByTagPending()] on the new subscription. *)
Definition ready_for_unsubscribe_by_tag : @Subscription SchemaList :=
  state_of (onUnsubscribeByTagPending (new_subscription FORMAT_JSON)).

(** [onSubscribe()], [onUnsubscribeByTagComplete()], [onSubscribe()]: the
    request with reference id "1" is still unanswered and the current
    reference id is "2". *)
Definition resubscribed : @Subscription SchemaList :=
  state_of (onSubscribe
    (state_of (onUnsubscribeByTagComplete (requested FORMAT_JSON)))).

Definition duplicate_key_error : option ErrorResponse :=
  Some (mkErrorResponse false (Some (mkErrorBody None (Some DUPLICATE_KEY_MESSAGE)))).

Definition unsupported_format_error : option ErrorResponse :=
  Some (mkErrorResponse false (Some (mkErrorBody (Some ERROR_UNSUPPORTED_FORMAT) None))).

Definition unsupported_duplicate_error : option ErrorResponse :=
  Some (mkErrorResponse false
          (Some (mkErrorBody (Some ERROR_UNSUPPORTED_FORMAT) (Some DUPLICATE_KEY_MESSAGE)))).

(** ** Predicates used in the statements *)

(** What running queued actions leaves alone: the parser, the reference to
    [subscriptionData], and every object that was in the store. *)
Definition frame {PF : ParserFacade} (s s' : @Subscription PF) : Prop :=
  parser s' = parser s ∧
  subscriptionData s' = subscriptionData s ∧
  servicePath s' = servicePath s ∧
  url s' = url s ∧
  store s ⊆ store s'.

Definition is_onError (e : Event) : bool :=
  match e with OnError _ => true | _ => false end.

(** The result of running actions from state [s]: the recursion bound was
    enough, the frame holds, the queue did not grow and [onError] was not
    called. *)
Definition settles {PF : ParserFacade} {A} (s : @Subscription PF)
    (r : outcome A * @Subscription PF * list Event) : Prop :=
  outcome_of r ≠ OutOfFuel ∧
  frame s (state_of r) ∧
  (length (queue (state_of r)) ≤ length (queue s))%nat ∧
  Forall (λ e, is_onError e = false) (events_of r).

(** The subscription after [onSubscribeError] fell back to JSON and before it
    goes on: unsubscribed, with [Format] and the parser replaced. *)
Definition fallen_back {PF : ParserFacade} (s : @Subscription PF) : @Subscription PF :=
  set_parser (getParser (VStr FORMAT_JSON) (servicePath s) (url s))
    (set_store (set_prop (subscriptionData s) "Format" (VStr FORMAT_JSON) (store s))
       (set_currentState STATE_UNSUBSCRIBED s)).

(** ** More of subscription-queue.js and subscription.js *)

(** An item as [subscription.js] queues them: it has an action, and an
    UNSUBSCRIBE comes with its [args] object. *)
Definition well_formed (it : QueuedItem) : Prop :=
  is_Some (action it) ∧ (action it = Some ACTION_UNSUBSCRIBE → is_Some (args it)).

(** Neighbours that [enqueue] never leaves side by side, whatever the force
    flags: the same action twice unless it is a patch, a subscribe before an
    unsubscribe of either kind, and anything with an action before an
    unsubscribe by tag. *)
Definition follows (prev next : QueuedItem) : bool :=
  negb (bool_decide (action next = action prev)
        && negb (bool_decide (action next = Some ACTION_MODIFY_PATCH)))
  && negb (bool_decide (action prev = Some ACTION_SUBSCRIBE)
           && SubscriptionQueue.is_unsubscribe next)
  && negb (bool_decide (is_Some (action prev))
           && bool_decide (action next = Some ACTION_UNSUBSCRIBE_BY_TAG_PENDING)).

Fixpoint tidy (items : SubscriptionQueue.t) : bool :=
  match items with
  | prev :: rest =>
    match rest with
    | next :: _ => follows prev next && tidy rest
    | [] => true
    end
  | [] => true
  end.


(** Requests handed to the transport in a run, counted. *)
Fixpoint requests (t : list Event) : nat :=
  match t with
  | [] => 0
  | e :: t' => ((if is_http e then 1 else 0) + requests t')%nat
  end.

(** The reference ids captured by the POSTs of a run, in order. *)
Fixpoint post_ids (t : list Event) : list (option string) :=
  match t with
  | [] => []
  | Transport (HttpPost _ _ _ _) (SubscribeHandlers referenceId0) :: t' =>
    referenceId0 :: post_ids t'
  | _ :: t' => post_ids t'
  end.

(** The requests of a run with their handlers, in order. *)
Fixpoint sent (t : list Event) : list (Request * Handlers) :=
  match t with
  | [] => []
  | Transport request handlers :: t' => (request, handlers) :: sent t'
  | _ :: t' => sent t'
  end.

(** What [onUpdate] was called with in a run, in order. *)
Fixpoint updates (t : list Event) : list (Update * Z) :=
  match t with
  | [] => []
  | OnUpdate update type :: t' => (update, type) :: updates t'
  | _ :: t' => updates t'
  end.

(** The events of requesting and performing actions: log entries, requests,
    state notifications, [onQueueEmpty] and the cancelling of the retry timer;
    not among them are [onUpdate], [onError], [onSubscriptionCreated],
    [onNetworkError] and the arming of a timer. *)
Definition is_action_event (e : Event) : bool :=
  match e with
  | Log _ _ | Transport _ _ | StateChanged _ _ | OnQueueEmpty | ClearTimeout => true
  | _ => false
  end.

Definition is_onUpdate (e : Event) : bool :=
  match e with OnUpdate _ _ => true | _ => false end.

Section MoreSubscription.

Context `{ParserFacade}.


(** [s'] is [s] except for the fields that performing an action writes: the
    state, the queue, the reference id and its counter, the buffer of early
    updates, the store and [currentStreamingContextId]. *)
Definition same_but_action_fields (s s' : Subscription) : Prop :=
  s' = mkSubscription (streamingContextId s) (currentStreamingContextId s')
         (referenceId s') (queue s') (parser s) (onStateChangedCallbacks s)
         (servicePath s) (url s) (onSubscriptionCreated s) (subscriptionData s)
         (onUpdate s) (onError s) (onQueueEmpty s) (headers s) (onNetworkError s)
         (connectionAvailable s) (currentState s') (inactivityTimeout s)
         (latestActivity s) (updatesBeforeSubscribed s')
         (networkErrorSubscribingTimer s) (isDisposed s) (SchemaName s)
         (referenceIdCounter s') (store s') (now s).

(** The reference id moves with a POST only: without a POST in the run the id
    and the counter are as before; with one, the id is the decimal form of
    the old counter, captured by that POST, and the counter went up by one. *)
Definition reference_id_follows_post (s s' : Subscription) (t : list Event) : Prop :=
  match post_ids t with
  | [] => referenceId s' = referenceId s ∧ referenceIdCounter s' = referenceIdCounter s
  | [referenceId0] =>
    referenceId0 = Some (pretty (referenceIdCounter s)) ∧
    referenceId s' = referenceId0 ∧
    referenceIdCounter s' = referenceIdCounter s + 1 ∧
    currentState s' = STATE_SUBSCRIBE_REQUESTED
  | _ => False
  end.

(** The result of performing actions from [s]: only action fields change,
    only action events happen, at most one request is made and then the state
    is a transitioning one, and the reference id follows the POST. *)
Definition acts {A} (s : Subscription) (r : outcome A * Subscription * list Event) : Prop :=
  same_but_action_fields s (state_of r) ∧
  Forall (λ e, is_action_event e = true) (events_of r) ∧
  (requests (events_of r) ≤ 1)%nat ∧
  (requests (events_of r) = 1%nat → is_transitioning (currentState (state_of r)) = true) ∧
  reference_id_follows_post s (state_of r) (events_of r).

(** [m] keeps the property [I] of the subscription, emits only events that
    satisfy [E], and returns or throws within its recursion bound. *)
Definition preserves {A} (I : Subscription → Prop) (E : Event → Prop) (m : M A) : Prop :=
  ∀ s, I s →
    I (state_of (m s)) ∧ Forall E (events_of (m s)) ∧ outcome_of (m s) ≠ OutOfFuel.

(** [m] relates the subscription before to the subscription and the events
    after by [R]. *)
Definition respects {A} (R : Subscription → Subscription → list Event → Prop)
    (m : M A) : Prop :=
  ∀ s, R s (state_of (m s)) (events_of (m s)).

(** What the session looks like to the streaming layer: the fields that no
    request of the caller and no response to a DELETE or PATCH writes. *)
Definition same_session (s s' : Subscription) : Prop :=
  isDisposed s' = isDisposed s ∧
  connectionAvailable s' = connectionAvailable s ∧
  latestActivity s' = latestActivity s ∧
  inactivityTimeout s' = inactivityTimeout s ∧
  parser s' = parser s ∧
  SchemaName s' = SchemaName s ∧
  onStateChangedCallbacks s' = onStateChangedCallbacks s ∧
  subscriptionData s' = subscriptionData s.

(** The queue as the methods keep it: every item has an action, an
    UNSUBSCRIBE has its [args], and no neighbours are left that [enqueue]
    merges. *)
Definition queue_ok (s : Subscription) : Prop :=
  Forall well_formed (queue s) ∧ tidy (queue s) = true.




(** Started where [P] holds, [m] returns, and [Q] holds where it ends. *)
Definition completes {A} (P : Subscription → Prop) (m : M A)
    (Q : Subscription → Prop) : Prop :=
  ∀ s, P s → (∃ a, outcome_of (m s) = Ret a) ∧ Q (state_of (m s)).

(** The exported methods by which the caller requests an action. *)
Inductive Call :=
| CallSubscribe
| CallUnsubscribe (forceUnsubscribe : bool)
| CallModify (newArgs : val) (options : option ModifyOptions)
| CallUnsubscribeByTagPending.

Definition call (c : Call) : M unit :=
  match c with
  | CallSubscribe => onSubscribe
  | CallUnsubscribe forceUnsubscribe => onUnsubscribe forceUnsubscribe
  | CallModify newArgs options => onModify newArgs options
  | CallUnsubscribeByTagPending => onUnsubscribeByTagPending
  end.

(** Calls made one after the other with no response in between; a call that
    throws does not keep the caller from making the next one. *)
Fixpoint calls (l : list Call) (s : Subscription) : Subscription * list Event :=
  match l with
  | [] => (s, [])
  | c :: rest =>
    let r := call c s in
    let '(s', t') := calls rest (state_of r) in
    (s', events_of r ++ t')
  end.

(** A stretch of a run in which the single request slot is respected: at most
    one request, after which the state is a transitioning one; none at all
    from a transitioning state, which then stays; and the reference id follows
    the POST. *)
Definition one_slot (s s' : Subscription) (t : list Event) : Prop :=
  (requests t = 0%nat ∨
   (requests t = 1%nat ∧ is_transitioning (currentState s') = true)) ∧
  (is_transitioning (currentState s) = true →
   requests t = 0%nat ∧ currentState s' = currentState s) ∧
  reference_id_follows_post s s' t.

(** [m] returns or throws within its recursion bound. *)
Definition returns {A} (m : M A) : Prop :=
  ∀ s, outcome_of (m s) ≠ OutOfFuel.

(** What performing actions and handling an update do to the buffer of
    early updates: outside SUBSCRIBE_REQUESTED the buffer is left alone or,
    when a subscribe takes place, dropped; a dropped buffer stays dropped. *)
Definition buffer_kept (s s' : Subscription) (t : list Event) : Prop :=
  (currentState s ≠ STATE_SUBSCRIBE_REQUESTED →
   (currentState s' ≠ STATE_SUBSCRIBE_REQUESTED ∧
    updatesBeforeSubscribed s' = updatesBeforeSubscribed s) ∨
   updatesBeforeSubscribed s' = None) ∧
  (updatesBeforeSubscribed s = None → updatesBeforeSubscribed s' = None).

(** The replay loop of [onSubscribeSuccess] can go on: no update is added to
    the buffer it reads. *)
Definition replayable (s : Subscription) : Prop :=
  currentState s ≠ STATE_SUBSCRIBE_REQUESTED ∨ updatesBeforeSubscribed s = None.



(** Everything that can happen to a subscription: a call of an exported
    method, a message of the streaming connection, a response of the
    transport, or the retry timer firing. *)
Inductive Entry :=
| EnterCall (c : Call)
| EnterReset
| EnterDispose
| EnterAddStateChangedCallback (callback : nat)
| EnterRemoveStateChangedCallback (callback : nat)
| EnterConnectionUnavailable
| EnterConnectionAvailable
| EnterStreamingData (message : Message)
| EnterHeartbeat
| EnterUnsubscribeByTagComplete
| EnterSubscribeSuccess (referenceId0 : option string) (responseData : SubscribeResponse)
| EnterSubscribeError (referenceId0 : option string) (response : option ErrorResponse)
| EnterUnsubscribeSuccess (referenceId0 : option string)
| EnterUnsubscribeError (referenceId0 : option string)
| EnterModifyPatchSuccess (referenceId0 : option string)
| EnterModifyPatchError (referenceId0 : option string)
| EnterNetworkErrorTimeout.

Definition enter (e : Entry) : M unit :=
  match e with
  | EnterCall c => call c
  | EnterReset => reset
  | EnterDispose => dispose
  | EnterAddStateChangedCallback callback => addStateChangedCallback callback
  | EnterRemoveStateChangedCallback callback => removeStateChangedCallback callback
  | EnterConnectionUnavailable => onConnectionUnavailable
  | EnterConnectionAvailable => onConnectionAvailable
  | EnterStreamingData message => onStreamingData message;; mret ()
  | EnterHeartbeat => onHeartbeat
  | EnterUnsubscribeByTagComplete => onUnsubscribeByTagComplete
  | EnterSubscribeSuccess referenceId0 responseData =>
    onSubscribeSuccess referenceId0 responseData
  | EnterSubscribeError referenceId0 response => onSubscribeError referenceId0 response
  | EnterUnsubscribeSuccess referenceId0 => onUnsubscribeSuccess referenceId0
  | EnterUnsubscribeError referenceId0 => onUnsubscribeError referenceId0
  | EnterModifyPatchSuccess referenceId0 => onModifyPatchSuccess referenceId0
  | EnterModifyPatchError referenceId0 => onModifyPatchError referenceId0
  | EnterNetworkErrorTimeout => onNetworkErrorTimeout
  end.

(** A history: entries one after the other, whatever each one returns or
    throws. *)
Fixpoint enters (l : list Entry) (s : Subscription) : Subscription * list Event :=
  match l with
  | [] => (s, [])
  | e :: rest =>
    let r := enter e s in
    let '(s', t') := enters rest (state_of r) in
    (s', events_of r ++ t')
  end.


(** A stretch of a run in which actions are requested and performed and
    nothing else happens. *)
Definition acting (s s' : Subscription) (t : list Event) : Prop :=
  same_session s s' ∧ Forall (λ e, is_action_event e = true) t.

(** The entries that only request or perform actions: the calls of the
    caller, a reset, the responses to a DELETE and to a PATCH, the end of an
    unsubscribe by tag and the retry timer. *)
Definition only_acts (e : Entry) : bool :=
  match e with
  | EnterCall _ | EnterReset | EnterUnsubscribeByTagComplete
  | EnterUnsubscribeSuccess _ | EnterUnsubscribeError _
  | EnterModifyPatchSuccess _ | EnterModifyPatchError _
  | EnterNetworkErrorTimeout => true
  | _ => false
  end.

(** A stretch of a run during which the connection stays unavailable and
    nothing is handed to the transport. *)
Definition offline (s s' : Subscription) (t : list Event) : Prop :=
  connectionAvailable s = false →
  connectionAvailable s' = false ∧ requests t = 0%nat.

(** The two entries that do not wait for the connection: the connection
    coming back, and a subscribe error for a duplicate key, whose cleanup
    DELETE is sent at once. *)
Definition asks_while_offline (e : Entry) : bool :=
  match e with
  | EnterConnectionAvailable => true
  | EnterSubscribeError _ response => isDupeRequest response
  | _ => false
  end.

(** Disposing is final. *)
Definition stays_disposed (s s' : Subscription) (t : list Event) : Prop :=
  isDisposed s = true → isDisposed s' = true.

(** The states that the observer [callback] was told of, in order. *)
Fixpoint notified (callback : nat) (t : list Event) : list (option Z) :=
  match t with
  | [] => []
  | StateChanged c state :: t' =>
    if bool_decide (c = callback) then state :: notified callback t'
    else notified callback t'
  | _ :: t' => notified callback t'
  end.

(** A stretch of a run that keeps the observer [callback] registered and
    informed: the last state it was told of is the current one. *)
Definition informed (callback : nat) (s s' : Subscription) (t : list Event) : Prop :=
  callback ∈ onStateChangedCallbacks s →
  callback ∈ onStateChangedCallbacks s' ∧
  currentState s' = default (currentState s) (last (notified callback t)).

(** The entry that takes the observer [callback] off the list. *)
Definition removes (callback : nat) (e : Entry) : bool :=
  match e with
  | EnterRemoveStateChangedCallback c => bool_decide (c = callback)
  | _ => false
  end.

(** Messages arriving one after the other. *)
Fixpoint receive (messages : list Message) : M unit :=
  match messages with
  | [] => skip
  | message :: rest => onStreamingData message;; receive rest
  end.

(** The parser and the schema name after [processSnapshot]. *)
Definition schema_after (responseData : SubscribeResponse) (s : Subscription)
  : Parser * option string :=
  (parser (state_of (processSnapshot responseData s)),
   SchemaName (state_of (processSnapshot responseData s))).

End MoreSubscription.

(** More states of the concrete world. *)

(** The subscription of the examples with an unsubscribe waiting for the
    response to the subscribe. *)
Definition unsubscribing : @Subscription SchemaList :=
  state_of (onUnsubscribe false (requested FORMAT_JSON)).

(** ... and the subscribed one after the connection was lost. *)
Definition disconnected : @Subscription SchemaList :=
  state_of (onConnectionUnavailable (subscribed FORMAT_JSON)).

Definition network_error : option ErrorResponse :=
  Some (mkErrorResponse true None).

(** * Properties *)

(** ** The queue *)

Section QueueFacts.

Import SubscriptionQueue.

Implicit Types (items rest before after : SubscriptionQueue.t) (it u : QueuedItem).

Lemma last_unsubscribe_none items :
  Forall (λ it, is_unsubscribe it = false) items → last_unsubscribe items = None.
Proof.
  induction 1 as [|it rest Hit _ IH]; simpl; [done|].
  by rewrite IH, Hit.
Qed.

Lemma last_unsubscribe_found before u after :
  is_unsubscribe u = true →
  Forall (λ it, is_unsubscribe it = false) after →
  last_unsubscribe (before ++ u :: after) = Some (u, after).
Proof.
  intros Hu Hafter. induction before as [|it before IH]; simpl.
  - by rewrite (last_unsubscribe_none after), Hu.
  - by rewrite IH.
Qed.

Lemma clearPatches_loop_reached items : clearPatches_loop true items = [].
Proof. induction items as [|it rest IH]; simpl; auto. Qed.

Lemma enqueue_snoc items it queuedItem :
  enqueue (items ++ [it]) queuedItem =
  (let '(c, ritems) := enqueue_rev (it :: reverse items) queuedItem in (c, reverse ritems)).
Proof. unfold enqueue. by rewrite reverse_snoc. Qed.

(** C4 (as amended): [dequeue] removes the head; when no unsubscribe is left
    behind it the head is returned and the rest stays, otherwise the last
    UNSUBSCRIBE or UNSUBSCRIBE_BY_TAG_PENDING item is returned in place of the
    head and only the items strictly after it stay in the queue. *)
Theorem dequeue_skips_to_last_unsubscribe (head : QueuedItem) rest :
  (Forall (λ it, is_unsubscribe it = false) rest →
   dequeue (head :: rest) = (Some head, rest)) ∧
  (∀ before u after,
     rest = before ++ u :: after →
     is_unsubscribe u = true →
     Forall (λ it, is_unsubscribe it = false) after →
     dequeue (head :: rest) = (Some u, after)).
Proof.
  split.
  - intros Hrest. unfold dequeue.
    destruct rest as [|it rest']; [done|].
    cbn [isEmpty]. by rewrite last_unsubscribe_none.
  - intros before u after -> Hu Hafter. unfold dequeue.
    rewrite last_unsubscribe_found by done.
    by destruct before.
Qed.

Lemma dequeue_skips_to_last_unsubscribe_witness :
  dequeue [PATCH "a"; PATCH "b"] = (Some (PATCH "a"), [PATCH "b"]) ∧
  dequeue [SUB; PATCH "a"; UNSUB false; PATCH "b"] = (Some (UNSUB false), [PATCH "b"]).
Proof.
  split.
  - apply (proj1 (dequeue_skips_to_last_unsubscribe (PATCH "a") [PATCH "b"])).
    by repeat constructor.
  - apply (proj2 (dequeue_skips_to_last_unsubscribe SUB [PATCH "a"; UNSUB false; PATCH "b"])
             [PATCH "a"] (UNSUB false) [PATCH "b"]).
    + reflexivity.
    + reflexivity.
    + by repeat constructor.
Defined.

(** C4 (as stated) fails: with a patch at the head and an unsubscribe behind
    it, the code returns the unsubscribe and leaves the queue empty, where the
    claim has the head returned and the unsubscribe kept. *)
Lemma dequeue_does_not_return_head :
  dequeue [PATCH "a"; UNSUB false] = (Some (UNSUB false), []) ∧
  dequeue_as_specified [PATCH "a"; UNSUB false] = (Some (PATCH "a"), [UNSUB false]) ∧
  dequeue [PATCH "a"; UNSUB false] ≠ dequeue_as_specified [PATCH "a"; UNSUB false].
Proof. by repeat split. Qed.


End QueueFacts.

Section EnqueueFacts.

Import SubscriptionQueue.

(** C6: enqueueing an item whose action is that of the tail, and is not
    MODIFY_PATCH, leaves the queue as it is, except that for UNSUBSCRIBE the
    tail's [force] becomes the disjunction of the two; and the burst SUBSCRIBE,
    UNSUBSCRIBE(false), SUBSCRIBE, UNSUBSCRIBE(false) on the empty queue leaves
    exactly one UNSUBSCRIBE(false). *)
Theorem enqueue_duplicate_idempotent (items : SubscriptionQueue.t)
    (tail a : QueuedItem) (act : Action) :
  action a = Some act →
  action tail = Some act →
  act ≠ ACTION_MODIFY_PATCH →
  (act ≠ ACTION_UNSUBSCRIBE →
   enqueue (items ++ [tail]) a = (Normal, items ++ [tail])) ∧
  (∀ ft fa,
     act = ACTION_UNSUBSCRIBE →
     args_force tail = Some ft →
     args_force a = Some fa →
     ∃ tail',
       enqueue (items ++ [tail]) a = (Normal, items ++ [tail']) ∧
       action tail' = action tail ∧
       args_force tail' = Some (ft || fa) ∧
       delta <$> args tail' = delta <$> args tail ∧
       (ft || negb fa = true → tail' = tail)) ∧
  enqueue_all [] [SUB; UNSUB false; SUB; UNSUB false] = (Normal, [UNSUB false]).
Proof.
  intros Ha Htail Hpatch. split; [|split; [|reflexivity]].
  - intros Hunsub. rewrite enqueue_snoc. cbn [enqueue_rev].
    rewrite Ha, Htail.
    rewrite !bool_decide_true by done.
    rewrite (bool_decide_false (act = ACTION_MODIFY_PATCH)) by done.
    rewrite (bool_decide_false (act = ACTION_UNSUBSCRIBE)) by done.
    cbn [andb negb]. by rewrite reverse_cons, reverse_involutive.
  - intros ft fa -> Hft Hfa. rewrite enqueue_snoc. cbn [enqueue_rev].
    rewrite Ha, Htail, Hfa, Hft.
    rewrite (bool_decide_false (_ = ACTION_MODIFY_PATCH)) by done.
    rewrite !bool_decide_true by done. cbn [andb negb].
    destruct fa, ft; rewrite ?reverse_cons, ?reverse_involutive;
      try (exists tail; repeat split; done).
    exists (set_force tail). repeat split.
    + unfold set_force. by destruct (args tail).
    + unfold set_force, args_force in *. by destruct (args tail).
    + unfold set_force. destruct (args tail) eqn:E; simpl; by rewrite ?E.
    + done.
Qed.

Lemma enqueue_duplicate_idempotent_witness :
  enqueue [PATCH "a"; BYTAG] BYTAG = (Normal, [PATCH "a"; BYTAG]) ∧
  ∃ tail',
    enqueue [PATCH "a"; UNSUB false] (UNSUB true) = (Normal, [PATCH "a"; tail']) ∧
    args_force tail' = Some true.
Proof.
  split.
  - apply (proj1 (enqueue_duplicate_idempotent [PATCH "a"] BYTAG BYTAG
                    ACTION_UNSUBSCRIBE_BY_TAG_PENDING eq_refl eq_refl ltac:(discriminate))).
    discriminate.
  - destruct (proj1 (proj2 (enqueue_duplicate_idempotent [PATCH "a"] (UNSUB false) (UNSUB true)
                    ACTION_UNSUBSCRIBE eq_refl eq_refl ltac:(discriminate)))
                    false true eq_refl eq_refl eq_refl) as (tail' & Henq & _ & Hforce & _).
    exists tail'. split; [exact Henq | exact Hforce].
Defined.

End EnqueueFacts.

(** ** The subscription *)

Section SubscriptionFacts.

Context `{ParserFacade}.

Implicit Types (s : Subscription) (t : list Event).

(** Unfolds the monad so that a call on a state computes. *)
Ltac run :=
  unfold when, skip;
  unfold mbind, M_bind, mret, M_ret, get, gets, modify, emit, emits, throw,
    try_catch; cbn beta iota.

(** Decides the comparisons of constants left in the goal. *)
Ltac decide_constants :=
  repeat match goal with
  | |- context [bool_decide ?P] =>
    first [ rewrite (bool_decide_true P) by (vm_compute; reflexivity)
          | rewrite (bool_decide_false P) by (vm_compute; discriminate) ]
  end.

(** *** The store *)

Lemma alloc_fresh (st : objects) : st !! (alloc st).1 = None.
Proof. apply not_elem_of_dom, is_fresh. Qed.

Lemma lookup_extend_ne target sources (st : objects) l :
  l ≠ target → extend target sources st !! l = st !! l.
Proof. intros. unfold extend. by rewrite lookup_insert_ne. Qed.

Lemma obj_at_extend target sources (st : objects) :
  obj_at (extend target sources st) target =
  foldl (λ acc src, src ∪ acc) (obj_at st target) sources.
Proof. unfold obj_at at 1, extend. by rewrite lookup_insert_eq. Qed.

Lemma lookup_normalize_ne data (st : objects) l :
  l ≠ data → normalizeSubscribeData data st !! l = st !! l.
Proof.
  intros. unfold normalizeSubscribeData, delete_prop.
  case_bool_decide; [|done]. by rewrite lookup_insert_ne.
Qed.

Lemma obj_at_normalize data (st : objects) :
  obj_at (normalizeSubscribeData data st) data = delete "Top" (obj_at st data).
Proof.
  unfold normalizeSubscribeData, delete_prop. case_bool_decide as Htop.
  - unfold obj_at at 1. by rewrite lookup_insert_eq.
  - rewrite delete_id; [done|].
    destruct (obj_at st data !! "Top") eqn:E; [|done].
    exfalso. apply Htop. eauto.
Qed.

Lemma build_post_frame s referenceId0 data optionsHeaders st :
  build_post s referenceId0 = (data, optionsHeaders, st) →
  store s ⊆ st.
Proof.
  unfold build_post, alloc. intros Hb.
  apply map_subseteq_spec. intros l o Hl.
  assert (l ≠ fresh (dom (store s))) as Hdata.
  { intros ->. pose proof (alloc_fresh (store s)) as Hf. cbn in Hf. congruence. }
  set (st1 := <[fresh (dom (store s)) := ∅]> (store s)) in *.
  set (st2 := extend (fresh (dom (store s))) _ st1) in *.
  assert (st2 !! l = Some o) as Hl2.
  { unfold st2, st1. by rewrite lookup_extend_ne, lookup_insert_ne by done. }
  destruct (headers s) as [h|]; simplify_eq.
  - rewrite lookup_normalize_ne by done.
    assert (l ≠ fresh (dom st2)) as Hcopy.
    { intros ->. pose proof (alloc_fresh st2) as Hf. cbn in Hf. congruence. }
    by rewrite lookup_extend_ne, lookup_insert_ne by done.
  - by rewrite lookup_normalize_ne by done.
Qed.

(** The POST body is a copy: the properties of [subscriptionData], overridden
    by the three ids, without [Top]. *)
Lemma build_post_body s referenceId0 data optionsHeaders st o :
  build_post s referenceId0 = (data, optionsHeaders, st) →
  store s !! subscriptionData s = Some o →
  obj_at st data =
  delete "Top"
    ({[ "ContextId" := VStr (streamingContextId s);
        "ReferenceId" := VStr referenceId0;
        "KnownSchemas" := VArr (getSchemaNames (parser s)) ]} ∪ o).
Proof.
  unfold build_post, alloc. intros Hb Ho.
  assert (subscriptionData s ≠ fresh (dom (store s))) as Hdata.
  { intros Heq. pose proof (alloc_fresh (store s)) as Hf. cbn in Hf. congruence. }
  set (st1 := <[fresh (dom (store s)) := ∅]> (store s)) in *.
  assert (obj_at st1 (subscriptionData s) = o) as Hsd.
  { unfold obj_at, st1. by rewrite lookup_insert_ne, Ho by done. }
  assert (obj_at st1 (fresh (dom (store s))) = ∅) as Hempty.
  { unfold obj_at, st1. by rewrite lookup_insert_eq. }
  rewrite Hsd in Hb.
  set (st2 := extend (fresh (dom (store s))) _ st1) in *.
  assert (obj_at st2 (fresh (dom (store s))) =
          {[ "ContextId" := VStr (streamingContextId s);
             "ReferenceId" := VStr referenceId0;
             "KnownSchemas" := VArr (getSchemaNames (parser s)) ]} ∪ o) as Hbody.
  { unfold st2. rewrite obj_at_extend, Hempty. cbn [foldl].
    by rewrite (right_id_L ∅ (∪)). }
  destruct (headers s) as [h|]; simplify_eq; rewrite obj_at_normalize; f_equal.
  - rewrite <- Hbody.
    assert (fresh (dom (store s)) ≠ fresh (dom st2)) as Hcopy.
    { intros Heq. pose proof (alloc_fresh st2) as Hf. cbn in Hf.
      rewrite <- Heq in Hf. unfold st2, extend in Hf.
      by rewrite lookup_insert_eq in Hf. }
    unfold obj_at. by rewrite lookup_extend_ne, lookup_insert_ne by done.
  - done.
Qed.

(** *** The subscribe step *)

Lemma subscribe_run s :
  subscribe s =
  (let referenceId0 := pretty (referenceIdCounter s) in
   let '(data, optionsHeaders, st) := build_post s referenceId0 in
   (Ret (),
    set_currentStreamingContextId (Some (streamingContextId s))
      (set_currentState STATE_SUBSCRIBE_REQUESTED
         (set_store st
            (set_updatesBeforeSubscribed None
               (set_referenceId (Some referenceId0)
                  (set_referenceIdCounter (referenceIdCounter s + 1) s))))),
    Log LogDebug "Posting to create a subscription"
    :: ((λ callback, StateChanged callback STATE_SUBSCRIBE_REQUESTED)
          <$> onStateChangedCallbacks s)
    ++ [Transport
          (HttpPost (servicePath s)
                    (getSubscribeUrl (url s) (subscriptionData s) (store s))
                    (obj_at st data) (obj_at st <$> optionsHeaders))
          (SubscribeHandlers (Some referenceId0))])).
Proof.
  unfold subscribe, setState. run.
  change (build_post (set_updatesBeforeSubscribed _ _) ?r) with (build_post s r).
  by destruct (build_post s (pretty (referenceIdCounter s))) as [[data optionsHeaders] st].
Qed.




(** *** Running queued actions *)

Lemma frame_refl s : frame s s.
Proof. by repeat split. Qed.

Lemma frame_trans s1 s2 s3 : frame s1 s2 → frame s2 s3 → frame s1 s3.
Proof.
  intros (Hp & Hd & Hsp & Hu & Hst) (Hp' & Hd' & Hsp' & Hu' & Hst').
  repeat split; [congruence..|]. by etrans.
Qed.

Lemma frame_fields s s' :
  parser s' = parser s → subscriptionData s' = subscriptionData s →
  servicePath s' = servicePath s → url s' = url s → store s' = store s →
  frame s s'.
Proof. intros ???? Hst. repeat split; [done..|]. by rewrite Hst. Qed.

Lemma frame_lookup s s' o :
  frame s s' →
  store s !! subscriptionData s = Some o →
  store s' !! subscriptionData s = Some o.
Proof. intros (_ & _ & _ & _ & Hst) Ho. by eapply lookup_weaken. Qed.

Lemma clearPatches_loop_length reached items :
  (length (SubscriptionQueue.clearPatches_loop reached items) ≤ length items)%nat.
Proof.
  revert reached. induction items as [|it rest IH]; intros reached; cbn; [done|].
  destruct (negb reached && SubscriptionQueue.keeps it); cbn.
  - specialize (IH true). lia.
  - specialize (IH reached). lia.
Qed.

Lemma last_unsubscribe_length items u after :
  SubscriptionQueue.last_unsubscribe items = Some (u, after) →
  (length after < length items)%nat.
Proof.
  revert u after. induction items as [|it rest IH]; intros u after; cbn; [done|].
  destruct (SubscriptionQueue.last_unsubscribe rest) as [[u' after']|] eqn:E.
  - intros [= -> ->]. specialize (IH _ _ eq_refl). lia.
  - destruct (SubscriptionQueue.is_unsubscribe it); [|done].
    intros [= -> ->]. lia.
Qed.

Lemma dequeue_length it rest :
  (length (SubscriptionQueue.dequeue (it :: rest)).2 < length (it :: rest))%nat ∧
  is_Some (SubscriptionQueue.dequeue (it :: rest)).1.
Proof.
  unfold SubscriptionQueue.dequeue.
  destruct rest as [|it' rest']; cbn [SubscriptionQueue.isEmpty]; [cbn; split; [lia|eauto]|].
  destruct (SubscriptionQueue.last_unsubscribe (it' :: rest')) as [[u after]|] eqn:E.
  - apply last_unsubscribe_length in E. cbn in *. split; [lia|eauto].
  - cbn. split; [lia|eauto].
Qed.

Lemma settles_intro {A} s (o : outcome A) s' t :
  o ≠ OutOfFuel →
  frame s s' →
  (length (queue s') ≤ length (queue s))%nat →
  Forall (λ e, is_onError e = false) t →
  settles s (o, s', t).
Proof. intros. split; [done|split; [done|split; done]]. Qed.

Lemma setState_run state s :
  setState state s =
  (Ret (), set_currentState state s,
   (λ callback, StateChanged callback state) <$> onStateChangedCallbacks s).
Proof. reflexivity. Qed.

Lemma no_onError_stateChanged state (callbacks : list nat) :
  Forall (λ e, is_onError e = false)
    ((λ callback, StateChanged callback state) <$> callbacks).
Proof. apply Forall_fmap, Forall_true. by intros ?. Qed.

Lemma subscribe_settles s : settles s (subscribe s).
Proof.
  rewrite subscribe_run. cbn zeta.
  destruct (build_post s (pretty (referenceIdCounter s)))
    as [[data optionsHeaders] st] eqn:Hb.
  apply settles_intro; [done| |done|].
  - repeat split; try done. cbn. by eapply build_post_frame.
  - constructor; [reflexivity|]. apply Forall_app. split.
    + apply no_onError_stateChanged.
    + by repeat constructor.
Qed.

Lemma dispatchAction_settles queuedItem s : settles s (dispatchAction queuedItem s).
Proof.
  pose proof (no_onError_stateChanged) as Hsc.
  unfold dispatchAction.
  destruct (action queuedItem) as [[]|].
  - unfold performSubscribe. run.
    destruct (bool_decide (currentState s = STATE_SUBSCRIBED)).
    { by apply settles_intro; [|apply frame_refl|..]. }
    destruct (bool_decide (currentState s = STATE_UNSUBSCRIBED)).
    + cbn.
      pose proof (subscribe_settles
        (set_queue (SubscriptionQueue.clearPatches (queue s)) s)) as Hs.
      destruct (subscribe _) as [[o s'] t].
      destruct Hs as (Ho & Hf & Hlen & Hev).
      unfold outcome_of, state_of, events_of in *. cbn in *.
      pose proof (clearPatches_loop_length false (queue s)) as Hcl.
      unfold SubscriptionQueue.clearPatches in *.
      destruct o; (apply settles_intro; [done|apply Hf|lia|done]).
    + cbn. apply settles_intro; [done|apply frame_refl|done|by repeat constructor].
  - unfold performUnsubscribe, unsubscribe. run.
    destruct (bool_decide (currentState s = STATE_SUBSCRIBED)); cbn.
    { apply settles_intro; [done|by apply frame_fields|done|].
      apply Forall_app; split; [apply Hsc | by repeat constructor]. }
    destruct (bool_decide (currentState s = STATE_UNSUBSCRIBED)); cbn.
    + by apply settles_intro; [|apply frame_refl|..].
    + apply settles_intro; [done|apply frame_refl|done|by repeat constructor].
  - unfold performModifyPatch, modifyPatch. run.
    destruct (bool_decide (currentState s = STATE_SUBSCRIBED)); cbn.
    + apply settles_intro; [done|by apply frame_fields|done|].
      apply Forall_app; split; [apply Hsc | by repeat constructor].
    + apply settles_intro; [done|apply frame_refl|done|by repeat constructor].
  - unfold performUnsubscribeByTagPending, unsubscribeByTagPending. run.
    destruct (_ || _); cbn.
    + apply settles_intro; [done|by apply frame_fields|done|apply Hsc].
    + apply settles_intro; [done|apply frame_refl|done|by repeat constructor].
  - by apply settles_intro; [|apply frame_refl|..].
Qed.

Lemma performAction_unfold fuel queuedItem isLastQueuedAction s :
  performAction (S fuel) queuedItem isLastQueuedAction s =
  match dispatchAction queuedItem s with
  | (Ret _, s1, t1) =>
    let t2 := if onQueueEmpty s1 && isLastQueuedAction then [OnQueueEmpty] else [] in
    if negb (SubscriptionQueue.isEmpty (queue s1))
       && negb (is_transitioning (currentState s1))
    then
      match SubscriptionQueue.dequeue (queue s1) with
      | (Some item, items) =>
        match performAction fuel item (SubscriptionQueue.isEmpty items)
                (set_queue items s1) with
        | (o, s3, t3) => (o, s3, t1 ++ t2 ++ t3)
        end
      | (None, items) => (Exc type_error_queuedItem, set_queue items s1, t1 ++ t2)
      end
    else (Ret (), s1, t1 ++ t2)
  | (Exc msg, s1, t1) => (Exc msg, s1, t1)
  | (OutOfFuel, s1, t1) => (OutOfFuel, s1, t1)
  end.
Proof.
  cbn [performAction]. unfold queue_dequeue, queue_isEmpty. run.
  destruct (dispatchAction queuedItem s) as [[[[]|msg|] s1] t1]; [|done..].
  destruct (onQueueEmpty s1 && isLastQueuedAction); cbn;
    destruct (negb (SubscriptionQueue.isEmpty (queue s1))
              && negb (is_transitioning (currentState s1))); cbn;
    rewrite ?app_nil_r; try done;
    destruct (SubscriptionQueue.dequeue (queue s1)) as [[item|] items]; cbn;
    rewrite ?app_nil_r; try done;
    by destruct (performAction fuel item _ _) as [[o s3] t3].
Qed.

(** [performAction] returns when its bound exceeds the length of the queue,
    and what it runs keeps the frame. *)
Lemma performAction_settles fuel : ∀ queuedItem isLastQueuedAction s,
  (length (queue s) < fuel)%nat →
  settles s (performAction fuel queuedItem isLastQueuedAction s).
Proof.
  induction fuel as [|fuel IH]; intros queuedItem isLast s Hfuel; [lia|].
  rewrite performAction_unfold.
  pose proof (dispatchAction_settles queuedItem s) as Hd.
  destruct (dispatchAction queuedItem s) as [[[[]|msg|] s1] t1]; [|done..].
  destruct Hd as (_ & Hf & Hlen & Hev).
  unfold state_of, events_of in Hf, Hlen, Hev. cbn in Hf, Hlen, Hev.
  cbn zeta.
  assert (Forall (λ e, is_onError e = false)
            (if onQueueEmpty s1 && isLast then [OnQueueEmpty] else [])) as Hev2.
  { destruct (_ && _); by repeat constructor. }
  destruct (negb (SubscriptionQueue.isEmpty (queue s1))
            && negb (is_transitioning (currentState s1))) eqn:Hcont.
  - destruct (queue s1) as [|it rest] eqn:Hq; [done|].
    pose proof (dequeue_length it rest) as [Hdl [item Hitem]].
    destruct (SubscriptionQueue.dequeue (it :: rest)) as [next items].
    cbn in Hdl, Hitem. subst next.
    assert (length (queue (set_queue items s1)) < fuel)%nat as Hfuel'.
    { cbn in Hlen |- *. lia. }
    pose proof (IH item (SubscriptionQueue.isEmpty items) _ Hfuel') as Hs.
    destruct (performAction fuel item _ _) as [[o s3] t3].
    destruct Hs as (Ho & Hf3 & Hlen3 & Hev3).
    unfold outcome_of, state_of, events_of in Ho, Hf3, Hlen3, Hev3.
    cbn in Ho, Hf3, Hlen3, Hev3.
    apply settles_intro; [done| | |].
    + eapply frame_trans; [exact Hf|]. eapply frame_trans; [|exact Hf3].
      by apply frame_fields.
    + cbn in Hlen, Hdl. lia.
    + by rewrite !Forall_app.
  - apply settles_intro; [done|done|done|]. by rewrite Forall_app.
Qed.

Lemma onReadyToPerformNextAction_unfold s :
  onReadyToPerformNextAction s =
  if negb (connectionAvailable s) || SubscriptionQueue.isEmpty (queue s)
  then (Ret (), s, [])
  else
    match SubscriptionQueue.dequeue (queue s) with
    | (Some item, items) =>
      performAction (S (length items)) item (SubscriptionQueue.isEmpty items)
        (set_queue items s)
    | (None, items) => (Exc type_error_queuedItem, set_queue items s, [])
    end.
Proof.
  unfold onReadyToPerformNextAction, queue_dequeue, queue_isEmpty, fuel_for. run.
  destruct (negb (connectionAvailable s) || SubscriptionQueue.isEmpty (queue s)); [done|].
  destruct (SubscriptionQueue.dequeue (queue s)) as [[item|] items]; [|done].
  cbn [queue set_queue].
  by destruct (performAction (S (length items)) item _ _) as [[o s3] t3].
Qed.

Lemma onReadyToPerformNextAction_settles s :
  settles s (onReadyToPerformNextAction s).
Proof.
  rewrite onReadyToPerformNextAction_unfold.
  destruct (negb (connectionAvailable s) || SubscriptionQueue.isEmpty (queue s)) eqn:Hc.
  { by apply settles_intro; [|apply frame_refl|..]. }
  destruct (queue s) as [|it rest] eqn:Hq.
  { cbn in Hc. by rewrite orb_true_r in Hc. }
  pose proof (dequeue_length it rest) as [Hdl [item Hitem]].
  destruct (SubscriptionQueue.dequeue (it :: rest)) as [next items].
  cbn in Hdl, Hitem. subst next.
  pose proof (performAction_settles (S (length items)) item
                (SubscriptionQueue.isEmpty items) (set_queue items s)
                ltac:(cbn; lia)) as Hs.
  destruct (performAction (S (length items)) item _ _) as [[o s3] t3].
  destruct Hs as (Ho & Hf3 & Hlen3 & Hev3).
  unfold outcome_of, state_of, events_of in Ho, Hf3, Hlen3, Hev3.
  cbn in Ho, Hf3, Hlen3, Hev3.
  apply settles_intro; [done| | |done].
  - eapply frame_trans; [|exact Hf3]. by apply frame_fields.
  - rewrite Hq. cbn. lia.
Qed.

Lemma tryPerformAction_unfold action args s :
  tryPerformAction action args s =
  (let s0 := if networkErrorSubscribingTimer s
             then set_networkErrorSubscribingTimer false s else s in
   let t0 := if networkErrorSubscribingTimer s then [ClearTimeout] else [] in
   if negb (connectionAvailable s) || is_transitioning (currentState s)
   then
     match SubscriptionQueue.enqueue (queue s) (mkItem (Some action) args) with
     | (Normal, items) => (Ret (), set_queue items s0, t0)
     | (Thrown msg, items) => (Exc msg, set_queue items s0, t0)
     end
   else
     match performAction (S (length (queue s))) (mkItem (Some action) args) false s0 with
     | (o, s2, t2) => (o, s2, t0 ++ t2)
     end).
Proof.
  unfold tryPerformAction, queue_enqueue, fuel_for. run.
  destruct (networkErrorSubscribingTimer s) eqn:Htimer; cbn [app];
    cbn [connectionAvailable currentState queue set_networkErrorSubscribingTimer];
    destruct (negb (connectionAvailable s) || is_transitioning (currentState s));
    cbn beta iota; cbn [queue set_networkErrorSubscribingTimer];
    try (by destruct (SubscriptionQueue.enqueue _ _) as [[|msg] items]);
    by destruct (performAction _ _ _ _) as [[o s2] t2].
Qed.

(** [tryPerformAction] returns, keeps the frame and does not call [onError];
    it may make the queue longer. *)
Lemma tryPerformAction_frame action args s :
  outcome_of (tryPerformAction action args s) ≠ OutOfFuel ∧
  frame s (state_of (tryPerformAction action args s)) ∧
  Forall (λ e, is_onError e = false) (events_of (tryPerformAction action args s)).
Proof.
  rewrite tryPerformAction_unfold. cbn zeta.
  set (s0 := if networkErrorSubscribingTimer s
             then set_networkErrorSubscribingTimer false s else s).
  set (t0 := if networkErrorSubscribingTimer s then [ClearTimeout] else []).
  assert (frame s s0) as Hf0.
  { unfold s0. destruct (networkErrorSubscribingTimer s);
      [by apply frame_fields | apply frame_refl]. }
  assert (Forall (λ e, is_onError e = false) t0) as Hev0.
  { unfold t0. destruct (networkErrorSubscribingTimer s); by repeat constructor. }
  assert (queue s0 = queue s) as Hq0.
  { unfold s0. by destruct (networkErrorSubscribingTimer s). }
  destruct (negb (connectionAvailable s) || is_transitioning (currentState s)).
  - destruct (SubscriptionQueue.enqueue (queue s) _) as [[|msg] items];
      (split; [done|split; [|done]]);
      (eapply frame_trans; [exact Hf0|by apply frame_fields]).
  - pose proof (performAction_settles (S (length (queue s)))
                  (mkItem (Some action) args) false s0
                  ltac:(rewrite Hq0; lia)) as (Ho & Hf & _ & Hev).
    destruct (performAction _ _ _ s0) as [[o s2] t2].
    unfold outcome_of, state_of, events_of in *. cbn in *.
    split; [done|split; [apply (frame_trans _ _ _ Hf0 Hf)|by apply Forall_app]].
Qed.

(** *** Stale responses *)

Lemma onSubscribeSuccess_stale referenceId0 responseData s :
  referenceId0 ≠ referenceId s →
  ∃ level message,
    onSubscribeSuccess referenceId0 responseData s = (Ret (), s, [Log level message]).
Proof.
  intros Hne. unfold onSubscribeSuccess. run.
  rewrite bool_decide_false by done. cbn. eauto.
Qed.

Lemma onSubscribeError_stale referenceId0 response s :
  referenceId0 ≠ referenceId s →
  ∃ level message,
    onSubscribeError referenceId0 response s = (Ret (), s, [Log level message]).
Proof.
  intros Hne. unfold onSubscribeError. run.
  rewrite bool_decide_false by done. cbn. eauto.
Qed.

Lemma onUnsubscribeSuccess_stale referenceId0 s :
  referenceId0 ≠ referenceId s →
  ∃ level message,
    onUnsubscribeSuccess referenceId0 s = (Ret (), s, [Log level message]).
Proof.
  intros Hne. unfold onUnsubscribeSuccess. run.
  rewrite bool_decide_false by done. cbn. eauto.
Qed.

Lemma onUnsubscribeError_stale referenceId0 s :
  referenceId0 ≠ referenceId s →
  ∃ level message,
    onUnsubscribeError referenceId0 s = (Ret (), s, [Log level message]).
Proof.
  intros Hne. unfold onUnsubscribeError. run.
  rewrite bool_decide_false by done. cbn. eauto.
Qed.

Lemma onModifyPatchSuccess_stale referenceId0 s :
  referenceId0 ≠ referenceId s →
  ∃ level message,
    onModifyPatchSuccess referenceId0 s = (Ret (), s, [Log level message]).
Proof.
  intros Hne. unfold onModifyPatchSuccess. run.
  rewrite bool_decide_false by done. cbn. eauto.
Qed.

Lemma onModifyPatchError_stale referenceId0 s :
  referenceId0 ≠ referenceId s →
  ∃ level message,
    onModifyPatchError referenceId0 s = (Ret (), s, [Log level message]).
Proof.
  intros Hne. unfold onModifyPatchError. run.
  rewrite bool_decide_false by done. cbn. eauto.
Qed.

(** C2: a response whose captured reference id is not the current one leaves
    the subscription as it is (state, inactivity timeout, latest activity,
    queue, parser and all the rest), calls no user callback and no state
    observer, and issues no request: each of the six handlers returns after
    one log entry. *)
Theorem stale_response_ignored (referenceId0 : option string) s
    (responseData : SubscribeResponse) (response : option ErrorResponse) :
  referenceId0 ≠ referenceId s →
  (∃ level message,
     onSubscribeSuccess referenceId0 responseData s = (Ret (), s, [Log level message])) ∧
  (∃ level message,
     onSubscribeError referenceId0 response s = (Ret (), s, [Log level message])) ∧
  (∃ level message,
     onUnsubscribeSuccess referenceId0 s = (Ret (), s, [Log level message])) ∧
  (∃ level message,
     onUnsubscribeError referenceId0 s = (Ret (), s, [Log level message])) ∧
  (∃ level message,
     onModifyPatchSuccess referenceId0 s = (Ret (), s, [Log level message])) ∧
  (∃ level message,
     onModifyPatchError referenceId0 s = (Ret (), s, [Log level message])).
Proof.
  intros Hne.
  repeat split;
    eauto using onSubscribeSuccess_stale, onSubscribeError_stale,
      onUnsubscribeSuccess_stale, onUnsubscribeError_stale,
      onModifyPatchSuccess_stale, onModifyPatchError_stale.
Qed.

(** *** Events of a sequence *)

Lemma bind_events_l {A B} (m : M A) (f : A → M B) s e :
  e ∈ events_of (m s) → e ∈ events_of ((m ≫= f) s).
Proof.
  unfold events_of, mbind, M_bind.
  destruct (m s) as [[[a|msg|] s1] t1]; cbn; [|done..].
  destruct (f a s1) as [[o s2] t2]; cbn. intros. apply elem_of_app; by left.
Qed.

Lemma bind_events_r {A B} (m : M A) (f : A → M B) s a s1 t1 e :
  m s = (Ret a, s1, t1) →
  e ∈ events_of (f a s1) → e ∈ events_of ((m ≫= f) s).
Proof.
  unfold events_of, mbind, M_bind. intros ->.
  destruct (f a s1) as [[o s2] t2]; cbn. intros. apply elem_of_app; by right.
Qed.

(** *** Actions requested in a transitioning state *)

Lemma is_transitioning_states :
  is_transitioning STATE_SUBSCRIBE_REQUESTED = true ∧
  is_transitioning STATE_UNSUBSCRIBE_REQUESTED = true ∧
  is_transitioning STATE_PATCH_REQUESTED = true ∧
  is_transitioning STATE_SUBSCRIBED = false ∧
  is_transitioning STATE_UNSUBSCRIBED = false ∧
  is_transitioning STATE_READY_FOR_UNSUBSCRIBE_BY_TAG = false.
Proof. by repeat split. Qed.

(** While the state is one of the three requested states (or the connection is
    down), [tryPerformAction] cancels a pending retry timer and enqueues: the
    state does not change and no request is made. *)
Lemma tryPerformAction_enqueues action args s :
  negb (connectionAvailable s) || is_transitioning (currentState s) = true →
  tryPerformAction action args s =
  (let s0 := if networkErrorSubscribingTimer s
             then set_networkErrorSubscribingTimer false s else s in
   let t0 := if networkErrorSubscribingTimer s then [ClearTimeout] else [] in
   match SubscriptionQueue.enqueue (queue s) (mkItem (Some action) args) with
   | (Normal, items) => (Ret (), set_queue items s0, t0)
   | (Thrown msg, items) => (Exc msg, set_queue items s0, t0)
   end).
Proof.
  intros Hq. unfold tryPerformAction, queue_enqueue. run.
  destruct (networkErrorSubscribingTimer s) eqn:Htimer; cbn;
    rewrite Hq; cbn;
    by destruct (SubscriptionQueue.enqueue _ _) as [[|msg] items].
Qed.

(** In the three requested states an action is queued: the state stays, and
    the only event can be the cancellation of the retry timer. *)
Lemma requested_states_enqueue action args s :
  currentState s ∈ [STATE_SUBSCRIBE_REQUESTED; STATE_UNSUBSCRIBE_REQUESTED;
                    STATE_PATCH_REQUESTED] →
  let r := tryPerformAction action args s in
  currentState (state_of r) = currentState s ∧
  queue (state_of r) = (SubscriptionQueue.enqueue (queue s) (mkItem (Some action) args)).2 ∧
  Forall (λ e, e = ClearTimeout) (events_of r).
Proof.
  intros Hstate r. subst r.
  rewrite tryPerformAction_enqueues.
  - cbn zeta.
    destruct (SubscriptionQueue.enqueue (queue s) _) as [[|msg] items];
      destruct (networkErrorSubscribingTimer s); cbn; by repeat constructor.
  - apply orb_true_iff. right.
    repeat (apply elem_of_cons in Hstate as [->|Hstate]); try reflexivity.
    by apply elem_of_nil in Hstate.
Qed.

(** *** After dispose *)

(** C5 (as amended): on a disposed subscription [onSubscribe] and [onModify]
    throw before doing anything, so they issue no request; [onUnsubscribe]
    logs a warning and then requests the unsubscribe as it does on a live
    subscription. *)
Theorem disposed_subscribe_and_modify_throw s :
  isDisposed s = true →
  (∃ msg, onSubscribe s = (Exc msg, s, [])) ∧
  (∀ newArgs options, ∃ msg, onModify newArgs options s = (Exc msg, s, [])) ∧
  (∀ forceUnsubscribe, ∃ message,
     onUnsubscribe forceUnsubscribe s =
     (let '(o, s', t) :=
        tryPerformAction ACTION_UNSUBSCRIBE (Some (mkArgs (Some forceUnsubscribe) None)) s in
      (o, s', Log LogWarn message :: t))).
Proof.
  intros Hd. repeat split.
  - unfold onSubscribe. run. rewrite Hd. eauto.
  - intros. unfold onModify. run. rewrite Hd. eauto.
  - intros. unfold onUnsubscribe. run. rewrite Hd. cbn.
    eexists. by destruct (tryPerformAction _ _ s) as [[[[]|msg|] s'] t].
Qed.

(** *** Streaming data *)

(** C8 (as amended): a message that parses, on a subscription with an
    [onUpdate] callback, is delivered as a DELTA update in SUBSCRIBED and in
    PATCH_REQUESTED; in a state outside the five of the [switch] an error is
    logged and the message is delivered as a DELTA update all the same. *)
Theorem onStreamingData_delivers_delta (message : Message) (data : string) s :
  parse (parser s) (Data message) (SchemaName s) = Some data →
  onUpdate s = true →
  let delivered :=
    OnUpdate (UpdateMessage (mkMessage (ReferenceId message) data)) UPDATE_TYPE_DELTA in
  let s' := set_latestActivity (Some (now s)) s in
  (currentState s = STATE_SUBSCRIBED ∨ currentState s = STATE_PATCH_REQUESTED →
   onStreamingData message s = (Ret None, s', [delivered])) ∧
  (currentState s ∉ [STATE_UNSUBSCRIBE_REQUESTED; STATE_UNSUBSCRIBED;
                     STATE_SUBSCRIBE_REQUESTED; STATE_SUBSCRIBED;
                     STATE_PATCH_REQUESTED] →
   ∃ text, onStreamingData message s = (Ret None, s', [Log LogError text; delivered])).
Proof.
  intros Hparse Hupdate delivered s'. split.
  - intros Hstate. unfold onStreamingData, onActivity, processUpdate. run. cbn.
    destruct Hstate as [-> | ->]; decide_constants; cbn; by rewrite Hparse, Hupdate.
  - intros Hstate. unfold onStreamingData, onActivity, processUpdate. run. cbn.
    rewrite !bool_decide_false by (intros Heq; apply Hstate; rewrite Heq; set_solver).
    cbn. rewrite Hparse, Hupdate. eauto.
Qed.


(** *** Subscribe errors *)

#[local] Arguments tryPerformAction : simpl never.
#[local] Arguments onReadyToPerformNextAction : simpl never.
#[local] Arguments set_prop : simpl never.

Lemma get_prop_set_prop l k v (st : objects) :
  get_prop (set_prop l k v st) l k = v.
Proof.
  unfold get_prop, set_prop, obj_at.
  rewrite lookup_insert_eq. cbn. by rewrite lookup_insert_eq.
Qed.

(** Unsupported format, nothing to unsubscribe: fall back and subscribe again. *)
Lemma onSubscribeError_unsupported_retry response s :
  errorCode response = Some ERROR_UNSUPPORTED_FORMAT →
  get_prop (store s) (subscriptionData s) "Format" = VStr FORMAT_PROTOBUF →
  isDupeRequest response = false →
  peek_is_unsubscribe (queue s) = false →
  ∃ text,
    onSubscribeError (referenceId s) response s =
    (let '(o, s2, t2) := tryPerformAction ACTION_SUBSCRIBE None (fallen_back s) in
     (o, s2,
      ((λ callback, StateChanged callback STATE_UNSUBSCRIBED) <$> onStateChangedCallbacks s)
      ++ Log LogWarn text :: t2)).
Proof.
  intros Hcode Hformat Hdupe Hwill.
  unfold onSubscribeError, cleanUpLeftOverSubscription, setState. run.
  rewrite bool_decide_true by done. cbn [negb].
  rewrite Hwill, Hdupe. cbn. rewrite Hcode, Hformat.
  rewrite !bool_decide_true by done. cbn.
  eexists. fold (fallen_back s).
  destruct (tryPerformAction ACTION_SUBSCRIBE None (fallen_back s)) as [[[[]|msg|] s2] t2];
    by rewrite ?app_nil_r.
Qed.

(** Unsupported format with an unsubscribe at the head of the queue: fall
    back, call no [onError], and run the queue. *)
Lemma onSubscribeError_unsupported_unsubscribing response s :
  errorCode response = Some ERROR_UNSUPPORTED_FORMAT →
  get_prop (store s) (subscriptionData s) "Format" = VStr FORMAT_PROTOBUF →
  peek_is_unsubscribe (queue s) = true →
  ∃ t1,
    Forall (λ e, is_onError e = false) t1 ∧
    onSubscribeError (referenceId s) response s =
    (let '(o, s2, t2) := onReadyToPerformNextAction (fallen_back s) in
     (o, s2, t1 ++ t2)).
Proof.
  intros Hcode Hformat Hwill.
  pose proof (no_onError_stateChanged STATE_UNSUBSCRIBED (onStateChangedCallbacks s)) as Hsc.
  exists (((λ callback, StateChanged callback STATE_UNSUBSCRIBED) <$> onStateChangedCallbacks s)
          ++ (if isDupeRequest response
              then [Log LogError "A duplicate request occurred subscribing";
                    Transport (HttpDelete (servicePath s) (request_url s)
                                 (currentStreamingContextId s) (referenceId s))
                      CleanUpHandlers]
              else [])
          ++ [Log LogWarn "Protobuf is not supported, falling back to JSON"]
          ++ (if is_network_error response then []
              else [Log LogError "An error occurred subscribing"])).
  split.
  { rewrite !Forall_app. repeat split; [done|..].
    - destruct (isDupeRequest response); by repeat constructor.
    - by repeat constructor.
    - destruct (is_network_error response); by repeat constructor. }
  unfold onSubscribeError, cleanUpLeftOverSubscription, setState. run.
  rewrite bool_decide_true by done. cbn [negb].
  rewrite Hwill.
  destruct (isDupeRequest response); cbn; rewrite Hcode, Hformat;
    rewrite !bool_decide_true by done; cbn;
    destruct (is_network_error response); cbn; fold (fallen_back s);
    destruct (onReadyToPerformNextAction (fallen_back s)) as [[[[]|msg|] s2] t2];
    rewrite ?app_nil_r, <- ?app_assoc; reflexivity.
Qed.

Lemma get_prop_frame s1 s2 k :
  frame s1 s2 →
  is_Some (store s1 !! subscriptionData s1) →
  get_prop (store s2) (subscriptionData s1) k = get_prop (store s1) (subscriptionData s1) k.
Proof.
  intros Hf [o Ho]. unfold get_prop, obj_at.
  by rewrite (frame_lookup _ _ _ Hf Ho), Ho.
Qed.

Lemma fallen_back_format s :
  is_Some (store (fallen_back s) !! subscriptionData (fallen_back s)) ∧
  get_prop (store (fallen_back s)) (subscriptionData s) "Format" = VStr FORMAT_JSON.
Proof.
  unfold fallen_back. cbn. split.
  - unfold set_prop. rewrite lookup_insert_eq. eauto.
  - apply get_prop_set_prop.
Qed.

(** C7 (as amended): a subscribe error for the current reference id with
    ErrorCode UnsupportedSubscriptionFormat, on a subscription whose Format is
    protobuf, that has not already returned through the duplicate-key retry
    (the response is no duplicate-key error, or an unsubscribe is at the head
    of the queue): Format becomes JSON and the parser the JSON parser; and when
    no unsubscribe is at the head of the queue the handler ends by requesting
    SUBSCRIBE again and calls no [onError]. *)
Theorem unsupported_format_falls_back_to_json referenceId0 response s :
  referenceId0 = referenceId s →
  errorCode response = Some ERROR_UNSUPPORTED_FORMAT →
  get_prop (store s) (subscriptionData s) "Format" = VStr FORMAT_PROTOBUF →
  isDupeRequest response = false ∨ peek_is_unsubscribe (queue s) = true →
  let r := onSubscribeError referenceId0 response s in
  outcome_of r ≠ OutOfFuel ∧
  get_prop (store (state_of r)) (subscriptionData s) "Format" = VStr FORMAT_JSON ∧
  parser (state_of r) = getParser (VStr FORMAT_JSON) (servicePath s) (url s) ∧
  (peek_is_unsubscribe (queue s) = false →
   Forall (λ e, is_onError e = false) (events_of r) ∧
   ∃ t1,
     r = (let '(o, s2, t2) := tryPerformAction ACTION_SUBSCRIBE None (fallen_back s) in
          (o, s2, t1 ++ t2))).
Proof.
  intros -> Hcode Hformat Hdupe r. subst r.
  destruct (fallen_back_format s) as [Hsome Hjson].
  destruct (peek_is_unsubscribe (queue s)) eqn:Hwill.
  - destruct (onSubscribeError_unsupported_unsubscribing response s Hcode Hformat Hwill)
      as (t1 & Ht1 & ->).
    pose proof (onReadyToPerformNextAction_settles (fallen_back s)) as (Ho & Hf & _ & Hev).
    destruct (onReadyToPerformNextAction (fallen_back s)) as [[o s2] t2].
    unfold outcome_of, state_of, events_of in *. cbn in Ho, Hf, Hev |- *.
    split; [done|split; [|split; [|done]]].
    + by rewrite <- Hjson, <- (get_prop_frame _ _ _ Hf Hsome).
    + by destruct Hf as [-> _].
  - destruct Hdupe as [Hdupe|]; [|done].
    destruct (onSubscribeError_unsupported_retry response s Hcode Hformat Hdupe Hwill)
      as (text & ->).
    pose proof (tryPerformAction_frame ACTION_SUBSCRIBE None (fallen_back s)) as (Ho & Hf & Hev).
    destruct (tryPerformAction ACTION_SUBSCRIBE None (fallen_back s)) as [[o s2] t2].
    unfold outcome_of, state_of, events_of in *. cbn in Ho, Hf, Hev |- *.
    split; [done|split; [|split; [|intros _; split]]].
    + by rewrite <- Hjson, <- (get_prop_frame _ _ _ Hf Hsome).
    + by destruct Hf as [-> _].
    + rewrite Forall_app. split; [apply no_onError_stateChanged|by constructor].
    + eexists (_ ++ [_]). by rewrite <- app_assoc.
Qed.

(** C3 (as amended): a subscribe error that carries the duplicate-key message
    is ignored, cleanup DELETE included, when its captured reference id is not
    the current one; when it is the current one, the cleanup DELETE is issued
    with [currentStreamingContextId] and the captured reference id. *)
Theorem duplicate_cleanup_only_for_current_id referenceId0 response s :
  isDupeRequest response = true →
  (referenceId0 ≠ referenceId s →
   ∃ level message,
     onSubscribeError referenceId0 response s = (Ret (), s, [Log level message])) ∧
  (referenceId0 = referenceId s →
   Transport
     (HttpDelete (servicePath s) (request_url s) (currentStreamingContextId s) referenceId0)
     CleanUpHandlers
   ∈ events_of (onSubscribeError referenceId0 response s)).
Proof.
  intros Hdupe. split; [apply onSubscribeError_stale|].
  intros ->. unfold onSubscribeError.
  eapply bind_events_r; [reflexivity|]. cbn beta.
  rewrite bool_decide_true by done. cbn [negb].
  eapply bind_events_r; [reflexivity|].
  eapply bind_events_r; [apply setState_run|].
  apply bind_events_l. rewrite Hdupe.
  eapply bind_events_r; [reflexivity|].
  apply bind_events_l. cbn. apply list_elem_of_singleton. reflexivity.
Qed.


End SubscriptionFacts.

(** ** Runs in the concrete world *)

Section Runs.

#[local] Existing Instance SchemaList.

(** C1 (the code at the failing input): after [onUnsubscribeByTagPending()] the
    state is the undefined [STATE_READY_FOR_UNSUBSCRIBE_BY_TAG], which the
    bitwise test does not see as transitioning; each of the four actions is
    then performed at once, logs an unanticipated state, and is not queued. *)
Theorem ready_for_unsubscribe_by_tag_does_not_queue :
  currentState ready_for_unsubscribe_by_tag = STATE_READY_FOR_UNSUBSCRIBE_BY_TAG ∧
  is_transitioning (currentState ready_for_unsubscribe_by_tag) = false ∧
  tryPerformAction ACTION_SUBSCRIBE None ready_for_unsubscribe_by_tag =
    (Ret (), ready_for_unsubscribe_by_tag,
     [Log LogError "Unanticipated state in performAction Subscribe"]) ∧
  tryPerformAction ACTION_UNSUBSCRIBE (Some (mkArgs (Some false) None))
      ready_for_unsubscribe_by_tag =
    (Ret (), ready_for_unsubscribe_by_tag,
     [Log LogError "Unanticipated state in performAction Unsubscribe"]) ∧
  tryPerformAction ACTION_MODIFY_PATCH (Some (mkArgs None (Some "delta")))
      ready_for_unsubscribe_by_tag =
    (Ret (), ready_for_unsubscribe_by_tag,
     [Log LogError "Unanticipated state in performAction Patch"]) ∧
  tryPerformAction ACTION_UNSUBSCRIBE_BY_TAG_PENDING None ready_for_unsubscribe_by_tag =
    (Ret (), ready_for_unsubscribe_by_tag,
     [Log LogError "Unanticipated state in performAction UnsubscribeByTagPending"]) ∧
  queue ready_for_unsubscribe_by_tag = [].
Proof. repeat split; vm_compute; reflexivity. Qed.

Lemma stale_response_ignored_witness :
  Some "1" ≠ referenceId resubscribed ∧
  ∃ level message,
    onSubscribeSuccess (Some "1") snapshot_response resubscribed =
    (Ret (), resubscribed, [Log level message]).
Proof.
  assert (Some "1" ≠ referenceId resubscribed) as Hne by (vm_compute; discriminate).
  split; [exact Hne|].
  exact (proj1 (stale_response_ignored (Some "1") resubscribed snapshot_response None Hne)).
Defined.

(** C3 (as stated) fails: the duplicate-key error for reference id "1" reaches
    a subscription whose reference id is "2"; the handler logs and returns,
    and no DELETE is issued. *)
Lemma stale_duplicate_issues_no_cleanup :
  isDupeRequest duplicate_key_error = true ∧
  Some "1" ≠ referenceId resubscribed ∧
  existsb is_http (events_of (onSubscribeError (Some "1") duplicate_key_error resubscribed))
  = false.
Proof. repeat split; vm_compute; (reflexivity || discriminate). Qed.

Lemma duplicate_cleanup_only_for_current_id_witness :
  (∃ level message,
     onSubscribeError (Some "1") duplicate_key_error resubscribed =
     (Ret (), resubscribed, [Log level message])) ∧
  Transport
    (HttpDelete "sp" "/prices/{contextId}/{referenceId}" (Some "ctx") (Some "1"))
    CleanUpHandlers
  ∈ events_of (onSubscribeError (Some "1") duplicate_key_error (requested FORMAT_JSON)).
Proof.
  split.
  - apply (proj1 (duplicate_cleanup_only_for_current_id (Some "1") duplicate_key_error
                    resubscribed eq_refl)).
    vm_compute; discriminate.
  - apply (proj2 (duplicate_cleanup_only_for_current_id (Some "1") duplicate_key_error
                    (requested FORMAT_JSON) eq_refl)).
    vm_compute; reflexivity.
Defined.

(** C5 (as stated) fails: [onUnsubscribe()] on the disposed, subscribed
    subscription hands a DELETE to the transport. *)
Lemma disposed_subscription_still_unsubscribes :
  isDisposed disposed = true ∧
  events_of (onUnsubscribe false disposed) =
  [Log LogWarn "Unsubscribing a disposed subscription - this is not necessary";
   StateChanged 7 STATE_UNSUBSCRIBE_REQUESTED;
   Transport
     (HttpDelete "sp" "/prices/{contextId}/{referenceId}" (Some "ctx") (Some "1"))
     (UnsubscribeHandlers (Some "1"))] ∧
  existsb is_http (events_of (onUnsubscribe false disposed)) = true.
Proof. repeat split; vm_compute; reflexivity. Qed.

Lemma disposed_subscribe_and_modify_throw_witness :
  isDisposed disposed = true ∧
  ∃ msg, onSubscribe disposed = (Exc msg, disposed, []).
Proof.
  split; [reflexivity|].
  exact (proj1 (disposed_subscribe_and_modify_throw disposed eq_refl)).
Defined.

(** C7 (as stated) fails: the error carries both the unsupported-format code
    and the duplicate-key message, for the current reference id and a protobuf
    subscription with an empty queue; the handler returns through the
    duplicate-key retry and Format is still protobuf. *)
Lemma unsupported_duplicate_keeps_protobuf :
  Some "1" = referenceId (requested FORMAT_PROTOBUF) ∧
  errorCode unsupported_duplicate_error = Some ERROR_UNSUPPORTED_FORMAT ∧
  get_prop (store (requested FORMAT_PROTOBUF))
    (subscriptionData (requested FORMAT_PROTOBUF)) "Format" = VStr FORMAT_PROTOBUF ∧
  get_prop
    (store (state_of (onSubscribeError (Some "1") unsupported_duplicate_error
                        (requested FORMAT_PROTOBUF))))
    (subscriptionData (requested FORMAT_PROTOBUF)) "Format" = VStr FORMAT_PROTOBUF.
Proof. repeat split; vm_compute; reflexivity. Qed.

Lemma unsupported_format_falls_back_to_json_witness :
  get_prop
    (store (state_of (onSubscribeError (Some "1") unsupported_format_error
                        (requested FORMAT_PROTOBUF))))
    (subscriptionData (requested FORMAT_PROTOBUF)) "Format" = VStr FORMAT_JSON.
Proof.
  apply (unsupported_format_falls_back_to_json (Some "1") unsupported_format_error
           (requested FORMAT_PROTOBUF)).
  - vm_compute; reflexivity.
  - vm_compute; reflexivity.
  - vm_compute; reflexivity.
  - left. vm_compute; reflexivity.
Defined.

(** C8 (as stated) fails: in the state left by [onUnsubscribeByTagPending()],
    which is none of the five of the [switch], the error is logged and the
    message is delivered to [onUpdate] all the same. *)
Lemma unanticipated_state_still_delivers :
  (currentState ready_for_unsubscribe_by_tag
     ∉ [STATE_UNSUBSCRIBE_REQUESTED; STATE_UNSUBSCRIBED; STATE_SUBSCRIBE_REQUESTED;
        STATE_SUBSCRIBED; STATE_PATCH_REQUESTED]) ∧
  events_of (onStreamingData (mkMessage "1" "x") ready_for_unsubscribe_by_tag) =
  [Log LogError "Unanticipated state onStreamingData";
   OnUpdate (UpdateMessage (mkMessage "1" "x")) UPDATE_TYPE_DELTA].
Proof.
  split; [|vm_compute; reflexivity].
  repeat (apply not_elem_of_cons; split; [vm_compute; discriminate|]).
  apply not_elem_of_nil.
Qed.

Lemma onStreamingData_delivers_delta_witness :
  onStreamingData (mkMessage "1" "x") (subscribed FORMAT_JSON) =
  (Ret None, set_latestActivity (Some 1000) (subscribed FORMAT_JSON),
   [OnUpdate (UpdateMessage (mkMessage "1" "x")) UPDATE_TYPE_DELTA]).
Proof.
  apply (proj1 (onStreamingData_delivers_delta (mkMessage "1" "x") "x"
                  (subscribed FORMAT_JSON) eq_refl eq_refl)).
  left. vm_compute; reflexivity.
Defined.


End Runs.

(** * Further properties *)

(** ** The queue *)

Section MoreQueueFacts.

Import SubscriptionQueue.

Implicit Types (items ritems rest : SubscriptionQueue.t) (it queuedItem : QueuedItem).

Lemma set_force_well_formed it : well_formed it → well_formed (set_force it).
Proof.
  unfold well_formed, set_force. intros [Ha Hu].
  destruct (args it) eqn:E; cbn; rewrite ?E; split; eauto.
Qed.

Lemma set_force_action it : action (set_force it) = action it.
Proof. unfold set_force. by destruct (args it). Qed.

(** What [enqueue] returns, on the reversed array: the new item, or the old
    last item with [force] possibly set, on top of a final part of the old
    reversed array. *)
Lemma enqueue_rev_shape ritems queuedItem r :
  enqueue_rev ritems queuedItem = (Normal, r) →
  ∃ last keep,
    r = last :: keep ∧ keep `suffix_of` ritems ∧
    (last = queuedItem
     ∨ ∃ p, p :: keep `suffix_of` ritems ∧ action p = action queuedItem ∧
            (last = p ∨ last = set_force p)).
Proof.
  revert r. induction ritems as [|prev rest IH]; intros r; cbn.
  - destruct (action queuedItem); intros [= <-].
    exists queuedItem, []. by repeat split; [|left].
  - destruct (action queuedItem) as [act|] eqn:Hact; [|done].
    destruct (bool_decide (Some act = action prev)
              && negb (bool_decide (act = ACTION_MODIFY_PATCH))) eqn:Hdup.
    + apply andb_true_iff in Hdup as [Hsame%bool_decide_eq_true _].
      assert (∀ last, (last = prev ∨ last = set_force prev) →
              ∃ last0 keep, last :: rest = last0 :: keep ∧ keep `suffix_of` prev :: rest ∧
                (last0 = queuedItem
                 ∨ ∃ p, p :: keep `suffix_of` prev :: rest ∧ action p = Some act ∧
                        (last0 = p ∨ last0 = set_force p))) as Hkeep.
      { intros last Hlast. exists last, rest. repeat split.
        - by apply suffix_cons_r.
        - right. exists prev. by repeat split. }
      destruct (bool_decide (act = ACTION_UNSUBSCRIBE)).
      * destruct (args_force queuedItem) as [[]|]; [|intros [= <-]; eauto|done].
        destruct (args_force prev) as [[]|]; [| |done]; intros [= <-]; eauto.
      * intros [= <-]; eauto.
    + destruct (removes_previous prev queuedItem) as [[]|] eqn:Hrem; [| |done].
      * intros Hrec. destruct (IH _ Hrec) as (last & keep & -> & Hsuf & Hlast).
        exists last, keep. repeat split.
        -- by apply suffix_cons_r.
        -- destruct Hlast as [Hlast|(p & Hp & Hpa & Hl)]; [by left|].
           right. exists p. repeat split; [by apply suffix_cons_r|done..].
      * intros [= <-]. exists queuedItem, (prev :: rest). by repeat split; [|left].
Qed.



Lemma removes_previous_well_formed prev queuedItem :
  well_formed prev → well_formed queuedItem →
  is_Some (removes_previous prev queuedItem).
Proof.
  intros [[pa Hpa] Hpargs] [[qa Hqa] Hqargs].
  unfold removes_previous, args_force. rewrite Hpa, Hqa.
  destruct pa, qa; cbn;
    try (destruct (Hpargs Hpa) as [a ->]); try (destruct (Hqargs Hqa) as [b ->]);
    cbn; try destruct (default false (force _)); cbn; eauto.
Qed.

Lemma enqueue_rev_well_formed ritems queuedItem :
  Forall well_formed ritems → well_formed queuedItem →
  ∃ r, enqueue_rev ritems queuedItem = (Normal, r) ∧ Forall well_formed r.
Proof.
  intros Hitems Hq. induction Hitems as [|prev rest Hprev Hrest IH]; cbn.
  - pose proof Hq as [[act Hact] _]. rewrite Hact.
    exists [queuedItem]. split; [done|]. constructor; [exact Hq|constructor].
  - pose proof Hq as [[act Hact] Hargs]. rewrite Hact.
    destruct (bool_decide (Some act = action prev)
              && negb (bool_decide (act = ACTION_MODIFY_PATCH))) eqn:Hdup.
    + apply andb_true_iff in Hdup as [Hsame%bool_decide_eq_true _].
      case_bool_decide as Hunsub.
      * subst act. destruct (Hargs Hact) as [a Ha].
        destruct Hprev as [Hpa Hpargs]. destruct (Hpargs (eq_sym Hsame)) as [b Hb].
        unfold args_force. rewrite Ha, Hb.
        destruct (default false (force a)), (default false (force b));
          eexists; (split; [done|]); constructor; try done;
          try (by split; eauto).
        apply set_force_well_formed. by split; eauto.
      * eexists. split; [done|]. by constructor.
    + destruct (removes_previous_well_formed prev queuedItem Hprev Hq) as [[] ->].
      * exact IH.
      * eexists. split; [done|]. constructor; [exact Hq|by constructor].
Qed.

(** X2: [enqueue] throws only for an item without action or when a [force]
    flag has to be read from missing [args]: for the items that
    [subscription.js] queues it never throws, and the queue keeps holding only
    such items. *)
Theorem enqueue_well_formed_never_throws items queuedItem :
  Forall well_formed items → well_formed queuedItem →
  ∃ items', enqueue items queuedItem = (Normal, items') ∧ Forall well_formed items'.
Proof.
  intros Hitems Hq. unfold enqueue.
  destruct (enqueue_rev_well_formed (reverse items) queuedItem) as (r & -> & Hr).
  - by apply Forall_reverse.
  - done.
  - eexists. split; [done|]. by apply Forall_reverse.
Qed.

Lemma enqueue_well_formed_never_throws_witness :
  ∃ items', enqueue [UNSUB true; SUB] (UNSUB false) = (Normal, items') ∧
            Forall well_formed items'.
Proof.
  apply enqueue_well_formed_never_throws.
  - repeat constructor; cbn; eauto; discriminate.
  - repeat constructor; cbn; eauto.
Defined.

(** The same throw without an action, whatever the queue: nothing is queued. *)
Lemma enqueue_without_action items queuedItem :
  action queuedItem = None →
  enqueue items queuedItem = (Thrown "Subscription queued action is invalid", items).
Proof.
  intros Hq. unfold enqueue.
  assert (enqueue_rev (reverse items) queuedItem =
          (Thrown "Subscription queued action is invalid", reverse items)) as ->.
  { destruct (reverse items); cbn; by rewrite Hq. }
  by rewrite reverse_involutive.
Qed.

Lemma tidy_snoc items it :
  tidy (items ++ [it]) = tidy items && from_option (λ p, follows p it) true (last items).
Proof.
  induction items as [|a [|b rest] IH]; cbn in *.
  - done.
  - by rewrite !andb_true_r.
  - rewrite IH. by rewrite andb_assoc.
Qed.

Lemma follows_set_force_r prev next : follows prev (set_force next) = follows prev next.
Proof. unfold follows, is_unsubscribe. by rewrite !set_force_action. Qed.

Lemma follows_pushed prev queuedItem act :
  action queuedItem = Some act →
  bool_decide (Some act = action prev) && negb (bool_decide (act = ACTION_MODIFY_PATCH)) = false →
  removes_previous prev queuedItem = Some false →
  follows prev queuedItem = true.
Proof.
  intros Hact Hdup Hrem. unfold follows, removes_previous, is_unsubscribe, args_force in *.
  rewrite Hact in *.
  destruct (action prev) as [[]|], act; cbn in *; try done;
    destruct (args prev) as [a|]; cbn in *; try done;
    try destruct (default false (force a)); cbn in *; try done;
    destruct (args queuedItem) as [b|]; cbn in *; try done;
    try destruct (default false (force b)); cbn in *; done.
Qed.

Lemma enqueue_rev_tidy queuedItem ritems : ∀ r,
  tidy (reverse ritems) = true →
  enqueue_rev ritems queuedItem = (Normal, r) →
  tidy (reverse r) = true.
Proof.
  induction ritems as [|prev rest IH]; intros r Htidy; cbn.
  - destruct (action queuedItem); by intros [= <-].
  - destruct (action queuedItem) as [act|] eqn:Hact; [|done].
    rewrite reverse_cons, tidy_snoc, last_reverse in Htidy.
    apply andb_true_iff in Htidy as [Hrest Hprev].
    assert (tidy (reverse (set_force prev :: rest)) = true) as Hforced.
    { rewrite reverse_cons, tidy_snoc, last_reverse, Hrest. cbn.
      destruct (head rest); cbn in *; [|done]. by rewrite follows_set_force_r. }
    assert (tidy (reverse (prev :: rest)) = true) as Hsame.
    { by rewrite reverse_cons, tidy_snoc, last_reverse, Hrest. }
    destruct (bool_decide (Some act = action prev)
              && negb (bool_decide (act = ACTION_MODIFY_PATCH))) eqn:Hdup.
    + destruct (bool_decide (act = ACTION_UNSUBSCRIBE)); [|by intros [= <-]].
      destruct (args_force queuedItem) as [[]|]; [|by intros [= <-]|done].
      destruct (args_force prev) as [[]|]; [| |done]; by intros [= <-].
    + destruct (removes_previous prev queuedItem) as [[]|] eqn:Hrem; [| |done].
      * by apply IH.
      * intros [= <-].
        rewrite reverse_cons, tidy_snoc, last_reverse, Hsame. cbn.
        by eapply follows_pushed.
Qed.

Lemma enqueue_tidy items queuedItem items' :
  tidy items = true →
  enqueue items queuedItem = (Normal, items') →
  tidy items' = true.
Proof.
  unfold enqueue. intros Htidy.
  destruct (enqueue_rev (reverse items) queuedItem) as [c r] eqn:Hr.
  intros [= -> <-]. eapply enqueue_rev_tidy; [|done].
  by rewrite reverse_involutive.
Qed.

Lemma enqueue_has_action items queuedItem items' :
  Forall (λ it, is_Some (action it)) items →
  enqueue items queuedItem = (Normal, items') →
  Forall (λ it, is_Some (action it)) items'.
Proof.
  intros Hitems Henq.
  assert (is_Some (action queuedItem)) as Hq.
  { destruct (action queuedItem) eqn:E; [eauto|].
    by rewrite (enqueue_without_action _ _ E) in Henq. }
  unfold enqueue in Henq.
  destruct (enqueue_rev (reverse items) queuedItem) as [c r] eqn:Hr.
  injection Henq as -> <-.
  destruct (enqueue_rev_shape _ _ _ Hr) as (last & keep & -> & [k Hk] & Hlast).
  apply Forall_reverse in Hitems. rewrite Hk in Hitems.
  apply Forall_app in Hitems as [Hkept Hkeep].
  apply Forall_reverse. constructor; [|done].
  destruct Hlast as [->|(p & [k' Hp] & Hpa & Hl)]; [done|].
  rewrite Hk in Hp.
  assert (is_Some (action p)) as Hpsome by (rewrite Hpa; done).
  destruct Hl as [->| ->]; [done|]. by rewrite set_force_action.
Qed.

Lemma tidy_by_tag_at_head items : ∀ i it,
  tidy items = true →
  Forall (λ it, is_Some (action it)) items →
  items !! S i = Some it →
  action it ≠ Some ACTION_UNSUBSCRIBE_BY_TAG_PENDING.
Proof.
  induction items as [|a [|b rest] IH]; intros i it Htidy Hact Hi; [done..|].
  cbn [tidy] in Htidy. apply andb_true_iff in Htidy as [Hab Hrest].
  apply Forall_cons in Hact as [Ha Hact].
  destruct i as [|i].
  - cbn in Hi. injection Hi as <-. intros Hb.
    unfold follows in Hab. apply andb_true_iff in Hab as [_ Hab].
    apply negb_true_iff, andb_false_iff in Hab as [Hab|Hab];
      by apply bool_decide_eq_false in Hab.
  - by apply (IH i it).
Qed.

(** X3: a burst of [enqueue] calls on a tidy queue leaves a tidy queue: no
    action but a patch twice in a row, no subscribe right before an
    unsubscribe of either kind; and, when every queued item has an action, an
    UNSUBSCRIBE_BY_TAG_PENDING can only be at the head of the queue. *)
Theorem enqueue_all_keeps_tidy burst : ∀ items items',
  tidy items = true →
  Forall (λ it, is_Some (action it)) items →
  enqueue_all items burst = (Normal, items') →
  tidy items' = true ∧
  ∀ i it, items' !! S i = Some it → action it ≠ Some ACTION_UNSUBSCRIBE_BY_TAG_PENDING.
Proof.
  assert (∀ items items',
            tidy items = true → Forall (λ it, is_Some (action it)) items →
            enqueue_all items burst = (Normal, items') →
            tidy items' = true ∧ Forall (λ it, is_Some (action it)) items') as Hinv.
  { induction burst as [|queuedItem burst IH]; intros items items' Htidy Hact; cbn.
    - by intros [= <-].
    - destruct (enqueue items queuedItem) as [[|msg] items1] eqn:Henq; [|done].
      apply IH; [by eapply enqueue_tidy|by eapply enqueue_has_action]. }
  intros items items' Htidy Hact Hburst.
  destruct (Hinv _ _ Htidy Hact Hburst) as [Ht Ha].
  split; [done|]. intros i it. by apply tidy_by_tag_at_head.
Qed.

Lemma enqueue_all_keeps_tidy_witness :
  tidy [BYTAG; UNSUB true; SUB] = true.
Proof.
  apply (enqueue_all_keeps_tidy [BYTAG; PATCH "a"; UNSUB true; SUB; SUB] [] _ eq_refl).
  - constructor.
  - reflexivity.
Defined.

Lemma enqueue_rev_by_tag_drops queuedItem rafter rest :
  action queuedItem = Some ACTION_UNSUBSCRIBE_BY_TAG_PENDING →
  Forall (λ it, ∃ a, action it = Some a ∧ a ≠ ACTION_UNSUBSCRIBE_BY_TAG_PENDING) rafter →
  enqueue_rev (rafter ++ rest) queuedItem = enqueue_rev rest queuedItem.
Proof.
  intros Hq Hafter. induction Hafter as [|prev rafter (a & Ha & Hne) _ IH]; [done|].
  cbn. rewrite Hq at 1. rewrite Ha.
  rewrite (bool_decide_false (Some _ = Some a)) by congruence. cbn [andb].
  unfold removes_previous. rewrite Ha, Hq.
  destruct a; cbn; done.
Qed.

(** X4: enqueueing an UNSUBSCRIBE_BY_TAG_PENDING discards everything that is
    queued behind the last queued UNSUBSCRIBE_BY_TAG_PENDING, which it leaves
    as the tail; without one it discards the whole queue and is the only item
    left. *)
Theorem enqueue_by_tag_discards_the_rest before after queuedItem :
  action queuedItem = Some ACTION_UNSUBSCRIBE_BY_TAG_PENDING →
  Forall (λ it, ∃ a, action it = Some a ∧ a ≠ ACTION_UNSUBSCRIBE_BY_TAG_PENDING) after →
  enqueue after queuedItem = (Normal, [queuedItem]) ∧
  ∀ pending,
    action pending = Some ACTION_UNSUBSCRIBE_BY_TAG_PENDING →
    enqueue (before ++ pending :: after) queuedItem = (Normal, before ++ [pending]).
Proof.
  intros Hq Hafter. apply Forall_reverse in Hafter. split.
  - unfold enqueue.
    rewrite <- (app_nil_r (reverse after)), enqueue_rev_by_tag_drops by done.
    cbn. by rewrite Hq.
  - intros pending Hp. unfold enqueue.
    rewrite reverse_app, reverse_cons, <- app_assoc.
    rewrite enqueue_rev_by_tag_drops by done.
    cbn [enqueue_rev app]. rewrite Hq, Hp.
    rewrite (bool_decide_true (Some _ = Some _)) by done.
    rewrite (bool_decide_false (_ = ACTION_MODIFY_PATCH)) by done.
    rewrite (bool_decide_false (_ = ACTION_UNSUBSCRIBE)) by done.
    cbn [andb negb].
    by rewrite reverse_cons, reverse_involutive.
Qed.

Lemma enqueue_by_tag_discards_the_rest_witness :
  enqueue [PATCH "a"; UNSUB false; SUB] BYTAG = (Normal, [BYTAG]) ∧
  enqueue ([SUB] ++ BYTAG :: [PATCH "a"; UNSUB false; SUB]) BYTAG = (Normal, [SUB] ++ [BYTAG]).
Proof.
  assert (Forall (λ it, ∃ a, action it = Some a ∧ a ≠ ACTION_UNSUBSCRIBE_BY_TAG_PENDING)
            [PATCH "a"; UNSUB false; SUB]) as Hafter.
  { repeat constructor; eexists; (split; [reflexivity|discriminate]). }
  destruct (enqueue_by_tag_discards_the_rest [SUB] [PATCH "a"; UNSUB false; SUB] BYTAG
              eq_refl Hafter) as [H1 H2].
  split; [exact H1|exact (H2 BYTAG eq_refl)].
Defined.



End MoreQueueFacts.

(** ** The subscription *)

Section MoreSubscriptionFacts.

Context `{ParserFacade}.

Implicit Types (s : Subscription) (t : list Event).

Ltac run :=
  unfold when, skip;
  unfold mbind, M_bind, mret, M_ret, get, gets, modify, emit, emits, throw,
    try_catch; cbn beta iota.

Ltac decide_constants :=
  repeat match goal with
  | |- context [bool_decide ?P] =>
    first [ rewrite (bool_decide_true P) by (vm_compute; reflexivity)
          | rewrite (bool_decide_false P) by (vm_compute; discriminate) ]
  end.

(** *** Runs of events *)

Lemma requests_app t1 t2 : requests (t1 ++ t2) = (requests t1 + requests t2)%nat.
Proof. induction t1 as [|e t1 IH]; cbn; [done|]. rewrite IH. lia. Qed.

Lemma post_ids_app t1 t2 : post_ids (t1 ++ t2) = post_ids t1 ++ post_ids t2.
Proof.
  induction t1 as [|e t1 IH]; cbn; [done|].
  destruct e as [| [] [] | | | | | | | |]; cbn; by rewrite ?IH.
Qed.

Lemma post_ids_no_requests t : requests t = 0%nat → post_ids t = [].
Proof.
  induction t as [|e t IH]; cbn; [done|].
  destruct e as [| [] [] | | | | | | | |]; cbn; try done; auto.
Qed.

Lemma stateChanged_events state (callbacks : list nat) :
  let t := (λ callback, StateChanged callback state) <$> callbacks in
  requests t = 0%nat ∧ post_ids t = [] ∧
  Forall (λ e, is_action_event e = true) t ∧
  Forall (λ e, is_onUpdate e = false) t.
Proof.
  induction callbacks as [|c callbacks (? & ? & ? & ?)]; cbn.
  - by repeat split.
  - repeat split; [done..| |]; by constructor.
Qed.

Lemma requests_stateChanged state (callbacks : list nat) :
  requests ((λ callback, StateChanged callback state) <$> callbacks) = 0%nat.
Proof. apply stateChanged_events. Qed.

Lemma post_ids_stateChanged state (callbacks : list nat) :
  post_ids ((λ callback, StateChanged callback state) <$> callbacks) = [].
Proof. apply stateChanged_events. Qed.

Lemma action_events_stateChanged state (callbacks : list nat) :
  Forall (λ e, is_action_event e = true)
    ((λ callback, StateChanged callback state) <$> callbacks).
Proof. apply stateChanged_events. Qed.

(** *** Fields that actions do not write *)

Lemma same_but_refl s : same_but_action_fields s s.
Proof. unfold same_but_action_fields. by destruct s. Qed.

Lemma same_but_trans s1 s2 s3 :
  same_but_action_fields s1 s2 → same_but_action_fields s2 s3 →
  same_but_action_fields s1 s3.
Proof.
  unfold same_but_action_fields. intros H1 H2.
  destruct s1, s2, s3. cbn in *.
  injection H1 as ?; injection H2 as ?. subst. reflexivity.
Qed.

Lemma same_but_kept s s' :
  same_but_action_fields s s' →
  isDisposed s' = isDisposed s ∧
  connectionAvailable s' = connectionAvailable s ∧
  latestActivity s' = latestActivity s ∧
  inactivityTimeout s' = inactivityTimeout s ∧
  networkErrorSubscribingTimer s' = networkErrorSubscribingTimer s ∧
  parser s' = parser s ∧
  SchemaName s' = SchemaName s ∧
  onStateChangedCallbacks s' = onStateChangedCallbacks s ∧
  onUpdate s' = onUpdate s ∧
  subscriptionData s' = subscriptionData s ∧
  servicePath s' = servicePath s ∧
  url s' = url s ∧
  streamingContextId s' = streamingContextId s ∧
  now s' = now s.
Proof. unfold same_but_action_fields. intros ->. by repeat split. Qed.

Lemma acts_intro {A} s (o : outcome A) s' t :
  same_but_action_fields s s' →
  Forall (λ e, is_action_event e = true) t →
  (requests t ≤ 1)%nat →
  (requests t = 1%nat → is_transitioning (currentState s') = true) →
  reference_id_follows_post s s' t →
  acts s (o, s', t).
Proof. intros. by repeat (split; [done|]). Qed.

(** A run without request or POST that leaves the reference id alone. *)
Lemma acts_quiet {A} s (o : outcome A) s' t :
  same_but_action_fields s s' →
  Forall (λ e, is_action_event e = true) t →
  requests t = 0%nat →
  referenceId s' = referenceId s →
  referenceIdCounter s' = referenceIdCounter s →
  acts s (o, s', t).
Proof.
  intros Hsb Hev Hreq Href Hcount. apply acts_intro; [done|done|lia|lia|].
  unfold reference_id_follows_post. by rewrite (post_ids_no_requests _ Hreq).
Qed.

Lemma subscribe_acts s : acts s (subscribe s).
Proof.
  rewrite subscribe_run. cbn zeta.
  destruct (build_post s (pretty (referenceIdCounter s))) as [[data optionsHeaders] st].
  destruct (stateChanged_events STATE_SUBSCRIBE_REQUESTED (onStateChangedCallbacks s))
    as (Hreq & Hpost & Hact & _).
  apply acts_intro.
  - unfold same_but_action_fields. by destruct s.
  - constructor; [done|]. apply Forall_app. split; [done|by repeat constructor].
  - cbn. rewrite requests_app, Hreq. cbn. lia.
  - intros _. reflexivity.
  - unfold reference_id_follows_post. cbn [post_ids].
    rewrite post_ids_app, Hpost. cbn. by repeat split.
Qed.

Lemma dispatchAction_acts queuedItem s : acts s (dispatchAction queuedItem s).
Proof.
  unfold dispatchAction.
  destruct (action queuedItem) as [[]|].
  - unfold performSubscribe. run.
    destruct (bool_decide (currentState s = STATE_SUBSCRIBED)).
    { apply acts_quiet; [apply same_but_refl|done..]. }
    destruct (bool_decide (currentState s = STATE_UNSUBSCRIBED)).
    + cbn.
      pose proof (subscribe_acts
        (set_queue (SubscriptionQueue.clearPatches (queue s)) s)) as Hs.
      destruct (subscribe _) as [[o s'] t].
      destruct Hs as (Hsb & Hev & Hreq & Htr & Href).
      unfold state_of, events_of in *. cbn in Hsb, Hev, Hreq, Htr, Href.
      assert (same_but_action_fields s s') as Hsb'.
      { eapply same_but_trans; [|exact Hsb].
        unfold same_but_action_fields. by destruct s. }
      destruct o; by apply acts_intro.
    + cbn. apply acts_quiet; [apply same_but_refl|by repeat constructor|done..].
  - unfold performUnsubscribe, unsubscribe. rewrite ?setState_run. run.
    destruct (bool_decide (currentState s = STATE_SUBSCRIBED)); cbn.
    { apply acts_intro; cbn.
      - unfold same_but_action_fields. by destruct s.
      - apply Forall_app. split; [apply action_events_stateChanged|by repeat constructor].
      - rewrite requests_app, requests_stateChanged. cbn. lia.
      - intros _. reflexivity.
      - unfold reference_id_follows_post. rewrite post_ids_app, post_ids_stateChanged. by cbn. }
    destruct (bool_decide (currentState s = STATE_UNSUBSCRIBED)); cbn.
    + apply acts_quiet; [apply same_but_refl|done..].
    + apply acts_quiet; [apply same_but_refl|by repeat constructor|done..].
  - unfold performModifyPatch, modifyPatch. run.
    destruct (bool_decide (currentState s = STATE_SUBSCRIBED)); cbn.
    + apply acts_intro; cbn.
      * unfold same_but_action_fields. by destruct s.
      * apply Forall_app. split; [apply action_events_stateChanged|by repeat constructor].
      * rewrite requests_app, requests_stateChanged. cbn. lia.
      * intros _. reflexivity.
      * unfold reference_id_follows_post. rewrite post_ids_app, post_ids_stateChanged. by cbn.
    + apply acts_quiet; [apply same_but_refl|by repeat constructor|done..].
  - unfold performUnsubscribeByTagPending, unsubscribeByTagPending. run.
    destruct (_ || _); cbn.
    + apply acts_quiet; cbn;
        [|rewrite ?app_nil_r; auto using action_events_stateChanged, requests_stateChanged..].
      unfold same_but_action_fields. by destruct s.
    + apply acts_quiet; [apply same_but_refl|by repeat constructor|done..].
  - apply acts_quiet; [apply same_but_refl|done..].
Qed.

Lemma acts_not_transitioning {A} s (o : outcome A) s' t :
  acts s (o, s', t) →
  is_transitioning (currentState s') = false →
  requests t = 0%nat ∧ post_ids t = [] ∧
  referenceId s' = referenceId s ∧ referenceIdCounter s' = referenceIdCounter s.
Proof.
  intros (_ & _ & Hreq & Htr & Href) Hnot.
  unfold state_of, events_of in *. cbn in *.
  assert (requests t = 0%nat) as H0.
  { destruct (requests t) as [|[|n]]; [done| |lia].
    rewrite Htr in Hnot by done. done. }
  unfold reference_id_follows_post in Href.
  rewrite (post_ids_no_requests _ H0) in Href.
  by rewrite (post_ids_no_requests _ H0).
Qed.

(** [performAction], whatever the bound. *)
Lemma performAction_acts fuel : ∀ queuedItem isLastQueuedAction s,
  acts s (performAction fuel queuedItem isLastQueuedAction s).
Proof.
  induction fuel as [|fuel IH]; intros queuedItem isLast s.
  { apply acts_quiet; [apply same_but_refl|done..]. }
  rewrite performAction_unfold.
  pose proof (dispatchAction_acts queuedItem s) as Hd.
  destruct (dispatchAction queuedItem s) as [[[[]|msg|] s1] t1]; [|done..].
  cbn zeta.
  set (t2 := if onQueueEmpty s1 && isLast then [OnQueueEmpty] else []).
  assert (Forall (λ e, is_action_event e = true) t2 ∧ requests t2 = 0%nat ∧ post_ids t2 = [])
    as (Hev2 & Hreq2 & Hpost2).
  { unfold t2. destruct (_ && _); by repeat constructor. }
  pose proof Hd as (Hsb & Hev & Hreq & Htr & Href).
  unfold state_of, events_of in Hsb, Hev, Hreq, Htr, Href.
  cbn in Hsb, Hev, Hreq, Htr, Href.
  destruct (negb (SubscriptionQueue.isEmpty (queue s1))
            && negb (is_transitioning (currentState s1))) eqn:Hcont.
  - apply andb_true_iff in Hcont as [_ Hnot%negb_true_iff].
    destruct (acts_not_transitioning _ _ _ _ Hd Hnot) as (H0 & Hp0 & Href1 & Hcount1).
    destruct (SubscriptionQueue.dequeue (queue s1)) as [[item|] items].
    + pose proof (IH item (SubscriptionQueue.isEmpty items) (set_queue items s1)) as Hs.
      destruct (performAction fuel item _ _) as [[o s3] t3].
      destruct Hs as (Hsb3 & Hev3 & Hreq3 & Htr3 & Href3).
      unfold state_of, events_of in Hsb3, Hev3, Hreq3, Htr3, Href3.
      cbn in Hsb3, Hev3, Hreq3, Htr3, Href3.
      apply acts_intro.
      * eapply same_but_trans; [exact Hsb|]. eapply same_but_trans; [|exact Hsb3].
        unfold same_but_action_fields. by destruct s1.
      * by rewrite !Forall_app.
      * rewrite !requests_app, H0, Hreq2. cbn. lia.
      * rewrite !requests_app, H0, Hreq2. cbn. exact Htr3.
      * unfold reference_id_follows_post in *.
        rewrite !post_ids_app, Hp0, Hpost2. cbn [app].
        rewrite <- Href1, <- Hcount1. exact Href3.
    + apply acts_intro.
      * eapply same_but_trans; [exact Hsb|]. unfold same_but_action_fields. by destruct s1.
      * by rewrite Forall_app.
      * rewrite requests_app, H0, Hreq2. lia.
      * rewrite requests_app, H0, Hreq2. done.
      * unfold reference_id_follows_post. by rewrite post_ids_app, Hp0, Hpost2.
  - apply acts_intro.
    + done.
    + by rewrite Forall_app.
    + rewrite requests_app, Hreq2. lia.
    + rewrite requests_app, Hreq2, Nat.add_0_r. done.
    + unfold reference_id_follows_post in *. by rewrite post_ids_app, Hpost2, app_nil_r.
Qed.

Lemma tryPerformAction_acts action args s :
  acts (set_networkErrorSubscribingTimer false s) (tryPerformAction action args s) ∧
  outcome_of (tryPerformAction action args s) ≠ OutOfFuel.
Proof.
  split; [|apply tryPerformAction_frame].
  rewrite tryPerformAction_unfold. cbn zeta.
  set (s0 := if networkErrorSubscribingTimer s
             then set_networkErrorSubscribingTimer false s else s).
  set (t0 := if networkErrorSubscribingTimer s then [ClearTimeout] else []).
  assert (s0 = set_networkErrorSubscribingTimer false s) as Hs0.
  { unfold s0. destruct (networkErrorSubscribingTimer s) eqn:E; [done|].
    destruct s; cbn in *; by subst. }
  assert (Forall (λ e, is_action_event e = true) t0 ∧ requests t0 = 0%nat ∧ post_ids t0 = [])
    as (Hev0 & Hreq0 & Hpost0).
  { unfold t0. destruct (networkErrorSubscribingTimer s); by repeat constructor. }
  rewrite <- Hs0.
  destruct (negb (connectionAvailable s) || is_transitioning (currentState s)).
  - destruct (SubscriptionQueue.enqueue (queue s) _) as [[|msg] items];
      (apply acts_quiet; [|done..]); unfold same_but_action_fields; by destruct s0.
  - pose proof (performAction_acts (S (length (queue s)))
                  (mkItem (Some action) args) false s0) as Hs.
    destruct (performAction _ _ _ s0) as [[o s2] t2].
    destruct Hs as (Hsb & Hev & Hreq & Htr & Href).
    unfold state_of, events_of in *. cbn in Hsb, Hev, Hreq, Htr, Href.
    apply acts_intro; [done|by apply Forall_app|..].
    + rewrite requests_app, Hreq0. cbn. lia.
    + by rewrite requests_app, Hreq0.
    + unfold reference_id_follows_post in *. by rewrite post_ids_app, Hpost0.
Qed.

(** *** What a computation keeps *)

Section Preserves.

Context (I : Subscription → Prop) (E : Event → Prop).

Lemma preserves_ret {A} (a : A) : preserves I E (mret a).
Proof. intros s Hs. by split; [|split; [constructor|]]. Qed.

Lemma preserves_bind {A B} (m : M A) (f : A → M B) :
  preserves I E m → (∀ a, preserves I E (f a)) → preserves I E (m ≫= f).
Proof.
  intros Hm Hf s Hs. destruct (Hm s Hs) as (Hs1 & Ht1 & Ho1).
  unfold mbind, M_bind, state_of, events_of, outcome_of in *.
  destruct (m s) as [[[a|msg|] s1] t1]; cbn in *; [|done..].
  destruct (Hf a s1 Hs1) as (Hs2 & Ht2 & Ho2).
  unfold state_of, events_of, outcome_of in *.
  destruct (f a s1) as [[o s2] t2]; cbn in *.
  split; [done|]. split; [by apply Forall_app|done].
Qed.

Lemma preserves_try_catch {A} (m : M A) (h : string → M A) :
  preserves I E m → (∀ msg, preserves I E (h msg)) → preserves I E (try_catch m h).
Proof.
  intros Hm Hh s Hs. destruct (Hm s Hs) as (Hs1 & Ht1 & Ho1).
  unfold try_catch, state_of, events_of, outcome_of in *.
  destruct (m s) as [[[a|msg|] s1] t1]; cbn in *; [done| |done].
  destruct (Hh msg s1 Hs1) as (Hs2 & Ht2 & Ho2).
  unfold state_of, events_of, outcome_of in *.
  destruct (h msg s1) as [[o s2] t2]; cbn in *.
  split; [done|]. split; [by apply Forall_app|done].
Qed.

Lemma preserves_get : preserves I E get.
Proof. intros s Hs. by split; [|split; [constructor|]]. Qed.

Lemma preserves_gets {A} (f : Subscription → A) : preserves I E (gets f).
Proof. intros s Hs. by split; [|split; [constructor|]]. Qed.

Lemma preserves_throw {A} msg : preserves I E (throw (A:=A) msg).
Proof. intros s Hs. by split; [|split; [constructor|]]. Qed.

Lemma preserves_modify f : (∀ s, I s → I (f s)) → preserves I E (modify f).
Proof. intros Hf s Hs. split; [by apply Hf|]. by split; [constructor|]. Qed.

Lemma preserves_emit e : E e → preserves I E (emit e).
Proof. intros He s Hs. split; [done|]. by split; [repeat constructor|]. Qed.

Lemma preserves_emits t : Forall E t → preserves I E (emits t).
Proof. intros He s Hs. by repeat split. Qed.

Lemma preserves_skip : preserves I E skip.
Proof. apply preserves_ret. Qed.

Lemma preserves_when (c : bool) m : preserves I E m → preserves I E (when c m).
Proof. destruct c; [done|]. intros _. apply preserves_ret. Qed.

Lemma preserves_if {A} (c : bool) (m1 m2 : M A) :
  preserves I E m1 → preserves I E m2 → preserves I E (if c then m1 else m2).
Proof. by destruct c. Qed.

Lemma preserves_setState state :
  (∀ s, I s → I (set_currentState state s)) →
  (∀ callback, E (StateChanged callback state)) →
  preserves I E (setState state).
Proof.
  intros HI HE s Hs. rewrite setState_run.
  split; [by apply HI|]. split; [|done].
  apply Forall_fmap, Forall_true. intros callback. apply HE.
Qed.

End Preserves.

Section Respects.

Context (R : Subscription → Subscription → list Event → Prop).
Context (R_refl : ∀ s, R s s []).
Context (R_trans : ∀ s s1 s2 t1 t2, R s s1 t1 → R s1 s2 t2 → R s s2 (t1 ++ t2)).

Lemma respects_ret {A} (a : A) : respects R (mret a).
Proof. intros s. apply R_refl. Qed.

Lemma respects_skip : respects R skip.
Proof. intros s. apply R_refl. Qed.

Lemma respects_get : respects R get.
Proof. intros s. apply R_refl. Qed.

Lemma respects_gets {A} (f : Subscription → A) : respects R (gets f).
Proof. intros s. apply R_refl. Qed.

Lemma respects_throw {A} msg : respects R (throw (A:=A) msg).
Proof. intros s. apply R_refl. Qed.

Lemma respects_out_of_fuel {A} : respects R (out_of_fuel (A:=A)).
Proof. intros s. apply R_refl. Qed.

Lemma respects_bind {A B} (m : M A) (f : A → M B) :
  respects R m → (∀ a, respects R (f a)) → respects R (m ≫= f).
Proof.
  intros Hm Hf s. pose proof (Hm s) as H1.
  unfold mbind, M_bind, state_of, events_of in *.
  destruct (m s) as [[[a|msg|] s1] t1]; cbn in *; [|done..].
  pose proof (Hf a s1) as H2. unfold state_of, events_of in *.
  destruct (f a s1) as [[o s2] t2]; cbn in *. by eapply R_trans.
Qed.

Lemma respects_try_catch {A} (m : M A) (h : string → M A) :
  respects R m → (∀ msg, respects R (h msg)) → respects R (try_catch m h).
Proof.
  intros Hm Hh s. pose proof (Hm s) as H1.
  unfold try_catch, state_of, events_of in *.
  destruct (m s) as [[[a|msg|] s1] t1]; cbn in *; [done| |done].
  pose proof (Hh msg s1) as H2. unfold state_of, events_of in *.
  destruct (h msg s1) as [[o s2] t2]; cbn in *. by eapply R_trans.
Qed.

Lemma respects_when (c : bool) m : respects R m → respects R (when c m).
Proof. destruct c; [done|]. intros _. apply respects_ret. Qed.

Lemma respects_if {A} (c : bool) (m1 m2 : M A) :
  respects R m1 → respects R m2 → respects R (if c then m1 else m2).
Proof. by destruct c. Qed.

Lemma respects_modify f : (∀ s, R s (f s) []) → respects R (modify f).
Proof. intros Hf s. apply Hf. Qed.

Lemma respects_emit e : (∀ s, R s s [e]) → respects R (emit e).
Proof. intros He s. apply He. Qed.

End Respects.

(** Breaks a method body down to its calls: [block] closes a part that is
    not to be broken down, [leaf] a call or a step. *)
Ltac keep_with block leaf :=
  repeat first
  [ solve [block]
  | match goal with
    | |- preserves _ _ (mbind _ _) => apply preserves_bind; [|intros ?]
    | |- preserves _ _ (mret _) => apply preserves_ret
    | |- preserves _ _ skip => apply preserves_skip
    | |- preserves _ _ get => apply preserves_get
    | |- preserves _ _ (gets _) => apply preserves_gets
    | |- preserves _ _ (throw _) => apply preserves_throw
    | |- preserves _ _ (when _ _) => apply preserves_when
    | |- preserves _ _ (try_catch _ _) => apply preserves_try_catch; [|intros ?]
    | |- preserves _ _ (emit _) => apply preserves_emit; solve [leaf]
    | |- preserves _ _ (modify _) => apply preserves_modify; solve [leaf]
    | |- preserves _ _ (setState _) => apply preserves_setState; solve [leaf]
    | |- preserves _ _ (match ?x with _ => _ end) => destruct x
    | |- preserves _ _ _ => solve [leaf]
    | |- respects _ (mbind _ _) => apply respects_bind; [solve [leaf]..| |intros ?]
    | |- respects _ (mret _) => apply respects_ret; solve [leaf]
    | |- respects _ skip => apply respects_skip; solve [leaf]
    | |- respects _ get => apply respects_get; solve [leaf]
    | |- respects _ (gets _) => apply respects_gets; solve [leaf]
    | |- respects _ (throw _) => apply respects_throw; solve [leaf]
    | |- respects _ (when _ _) => apply respects_when; [solve [leaf]..|]
    | |- respects _ (try_catch _ _) => apply respects_try_catch; [solve [leaf]..| |intros ?]
    | |- respects _ (emit _) => apply respects_emit; solve [leaf]
    | |- respects _ (modify _) => apply respects_modify; solve [leaf]
    | |- respects _ (match ?x with _ => _ end) => destruct x
    | |- respects _ _ => solve [leaf]
    end ].

Ltac keep leaf := keep_with ltac:(fail) leaf.

(** The first step of a sequence, with what it read or wrote. *)
Lemma gets_bind {A B} (g : Subscription → A) (f : A → M B) s :
  (gets g ≫= f) s = f (g s) s.
Proof. unfold mbind, M_bind, gets. by destruct (f (g s) s) as [[o s2] t2]. Qed.

Lemma modify_bind {B} (h : Subscription → Subscription) (f : unit → M B) s :
  (modify h ≫= f) s = f () (h s).
Proof. unfold mbind, M_bind, modify. by destruct (f () (h s)) as [[o s2] t2]. Qed.

(** *** The single request slot *)

Lemma one_slot_refl s : one_slot s s [].
Proof. repeat split; [by left|done..]. Qed.

Lemma one_slot_trans s s1 s2 t1 t2 :
  one_slot s s1 t1 → one_slot s1 s2 t2 → one_slot s s2 (t1 ++ t2).
Proof.
  intros (A1 & B1 & R1) (A2 & B2 & R2).
  unfold one_slot, reference_id_follows_post in *.
  rewrite requests_app, post_ids_app.
  destruct A1 as [H0|[H1 Htr1]].
  - rewrite (post_ids_no_requests _ H0) in R1 |- *. destruct R1 as [Href Hcount].
    rewrite H0, <- Href, <- Hcount. cbn [app Nat.add].
    split; [done|]. split; [|done].
    intros Htr. destruct (B1 Htr) as [_ Hst]. rewrite <- Hst in Htr.
    destruct (B2 Htr) as [? ?]. split; [done|congruence].
  - destruct (B2 Htr1) as [H0 Hst].
    rewrite (post_ids_no_requests _ H0) in R2 |- *. destruct R2 as [Href Hcount].
    rewrite H0, H1, app_nil_r, Href, Hcount, Hst. cbn.
    split; [by right|]. split; [|exact R1].
    intros Htr. destruct (B1 Htr) as [? _]. lia.
Qed.

Lemma tryPerformAction_one_slot action args :
  respects one_slot (tryPerformAction action args).
Proof.
  intros s.
  destruct (tryPerformAction_acts action args s) as [(_ & _ & Hreq & Htr & Href) _].
  split; [|split].
  - destruct (requests _) as [|[|n]] eqn:E; rewrite ?E in *;
      [by left|right; split; [done|by apply Htr]|lia].
  - intros Hs. rewrite tryPerformAction_enqueues by (rewrite Hs; apply orb_true_r).
    cbn zeta.
    destruct (SubscriptionQueue.enqueue (queue s) _) as [[|msg] items];
      by destruct (networkErrorSubscribingTimer s).
  - exact Href.
Qed.

Lemma one_slot_quiet s s' e :
  is_http e = false →
  currentState s' = currentState s →
  referenceId s' = referenceId s →
  referenceIdCounter s' = referenceIdCounter s →
  one_slot s s' [e] ∧ one_slot s s' [].
Proof.
  intros He Hst Href Hcount.
  assert (requests [e] = 0%nat) as H0 by (cbn; by rewrite He).
  unfold one_slot, reference_id_follows_post.
  rewrite (post_ids_no_requests _ H0), H0. cbn. by repeat split; try left.
Qed.

Ltac slot_leaf :=
  first
    [ exact one_slot_refl
    | exact one_slot_trans
    | apply tryPerformAction_one_slot
    | intros ?; apply one_slot_quiet; reflexivity ].

Lemma onSubscribe_one_slot : respects one_slot onSubscribe.
Proof. unfold onSubscribe. keep slot_leaf. Qed.

Lemma onUnsubscribe_one_slot forceUnsubscribe :
  respects one_slot (onUnsubscribe forceUnsubscribe).
Proof. unfold onUnsubscribe. keep slot_leaf. Qed.

Lemma call_one_slot c : respects one_slot (call c).
Proof.
  destruct c; cbn [call].
  - apply onSubscribe_one_slot.
  - apply onUnsubscribe_one_slot.
  - unfold onModify.
    keep ltac:(first [apply onSubscribe_one_slot | apply onUnsubscribe_one_slot | slot_leaf]).
  - apply tryPerformAction_one_slot.
Qed.

Lemma calls_one_slot l : ∀ s, one_slot s (calls l s).1 (calls l s).2.
Proof.
  induction l as [|c l IH]; intros s; cbn [calls]; [apply one_slot_refl|].
  pose proof (call_one_slot c s) as H1. pose proof (IH (state_of (call c s))) as H2.
  destruct (calls l _) as [s' t']. cbn in *. by eapply one_slot_trans.
Qed.

(** *** Relations that every method respects *)

(** From the steps of an action to the actions. *)
Section Actions.

Context (R : Subscription → Subscription → list Event → Prop).
Context (R_refl : ∀ s, R s s []).
Context (R_trans : ∀ s s1 s2 t1 t2, R s s1 t1 → R s1 s2 t2 → R s s2 (t1 ++ t2)).
Context (R_subscribe : respects R subscribe).
Context (R_unsubscribe : respects R unsubscribe).
Context (R_modifyPatch : ∀ args, respects R (modifyPatch args)).
Context (R_byTag : respects R unsubscribeByTagPending).
Context (R_queue : ∀ items s, R s (set_queue items s) []).
Context (R_timer : ∀ s, R s (set_networkErrorSubscribingTimer false s) []).
Context (R_log : ∀ level message s, R s s [Log level message]).
Context (R_onQueueEmpty : ∀ s, R s s [OnQueueEmpty]).
Context (R_clearTimeout : ∀ s, R s s [ClearTimeout]).

Ltac action_leaf :=
  first
    [ exact R_refl | exact R_trans | exact R_subscribe | exact R_unsubscribe
    | apply R_modifyPatch | exact R_byTag
    | intros ?; first [apply R_queue | apply R_timer | apply R_log
                      | apply R_onQueueEmpty | apply R_clearTimeout] ].

Lemma queue_enqueue_respects queuedItem : respects R (queue_enqueue queuedItem).
Proof.
  intros s. unfold queue_enqueue.
  destruct (SubscriptionQueue.enqueue _ _) as [[|msg] items]; apply R_queue.
Qed.

Lemma queue_dequeue_respects : respects R queue_dequeue.
Proof.
  intros s. unfold queue_dequeue.
  destruct (SubscriptionQueue.dequeue _) as [item items]; apply R_queue.
Qed.

Lemma dispatchAction_respects queuedItem : respects R (dispatchAction queuedItem).
Proof.
  unfold dispatchAction, performSubscribe, performModifyPatch, performUnsubscribe,
    performUnsubscribeByTagPending.
  keep action_leaf.
Qed.

Lemma performAction_respects fuel : ∀ queuedItem isLastQueuedAction,
  respects R (performAction fuel queuedItem isLastQueuedAction).
Proof.
  induction fuel as [|fuel IH]; intros queuedItem isLast; cbn [performAction].
  { by apply respects_out_of_fuel. }
  unfold queue_isEmpty.
  keep ltac:(first [ apply dispatchAction_respects | apply queue_dequeue_respects
                   | apply IH | action_leaf ]).
Qed.

Lemma tryPerformAction_respects action args : respects R (tryPerformAction action args).
Proof.
  unfold tryPerformAction.
  keep ltac:(first [ apply queue_enqueue_respects | apply performAction_respects
                   | action_leaf ]).
Qed.

Lemma onReadyToPerformNextAction_respects : respects R onReadyToPerformNextAction.
Proof.
  unfold onReadyToPerformNextAction, queue_isEmpty.
  keep ltac:(first [ apply queue_dequeue_respects | apply performAction_respects
                   | action_leaf ]).
Qed.

End Actions.

(** From the actions to the exported methods and the handlers. *)
Section Methods.

Context (R : Subscription → Subscription → list Event → Prop).
Context (R_refl : ∀ s, R s s []).
Context (R_trans : ∀ s s1 s2 t1 t2, R s s1 t1 → R s1 s2 t2 → R s s2 (t1 ++ t2)).
Context (R_tryPerformAction : ∀ action args,
  well_formed (mkItem (Some action) args) → respects R (tryPerformAction action args)).
Context (R_onReady : respects R onReadyToPerformNextAction).
Context (R_setState_subscribed : respects R (setState STATE_SUBSCRIBED)).
Context (R_setState_unsubscribed : respects R (setState STATE_UNSUBSCRIBED)).
Context (R_cleanUp : ∀ referenceId0, respects R (cleanUpLeftOverSubscription referenceId0)).
Context (R_store : ∀ st s, R s (set_store st s) []).
Context (R_latestActivity : ∀ v s, R s (set_latestActivity v s) []).
Context (R_buffer : ∀ message s,
  R s (set_updatesBeforeSubscribed
         (Some (default [] (updatesBeforeSubscribed s) ++ [message])) s) []).
Context (R_buffer_cleared : ∀ s, R s (set_updatesBeforeSubscribed None s) []).
Context (R_connection_down : ∀ s, R s (set_connectionAvailable false s) []).
Context (R_connection_up : ∀ s, R s (set_connectionAvailable true s) []).
Context (R_timer : ∀ v s, R s (set_networkErrorSubscribingTimer v s) []).
Context (R_disposed : ∀ s, R s (set_isDisposed true s) []).
Context (R_callbacks : ∀ v s, R s (set_onStateChangedCallbacks v s) []).
Context (R_inactivity : ∀ v s, R s (set_inactivityTimeout v s) []).
Context (R_schemaName : ∀ v s, R s (set_SchemaName v s) []).
Context (R_parser : ∀ v s, R s (set_parser v s) []).
Context (R_log : ∀ level message s, R s s [Log level message]).
Context (R_clearTimeout : ∀ s, R s s [ClearTimeout]).
Context (R_setTimeout : ∀ delay s, R s s [SetTimeout delay]).
Context (R_onUpdate : ∀ update type s, R s s [OnUpdate update type]).
Context (R_onError : ∀ response s, R s s [OnError response]).
Context (R_created : ∀ s, R s s [OnSubscriptionCreated]).
Context (R_networkError : ∀ s, R s s [OnNetworkError]).

(** The items that the methods queue are well formed. *)
Ltac queued_item :=
  split; [by eexists | intros ?; first [discriminate | by eexists]].

Ltac method_leaf :=
  first
    [ exact R_refl | exact R_trans | apply R_tryPerformAction; queued_item
    | exact R_onReady
    | exact R_setState_subscribed | exact R_setState_unsubscribed | apply R_cleanUp
    | intros ?;
      first [ apply R_store | apply R_latestActivity | apply R_buffer
            | apply R_buffer_cleared | apply R_connection_down
            | apply R_connection_up | apply R_timer | apply R_disposed
            | apply R_callbacks | apply R_inactivity | apply R_schemaName
            | apply R_parser | apply R_log | apply R_clearTimeout
            | apply R_setTimeout | apply R_onUpdate | apply R_onError
            | apply R_created | apply R_networkError ] ].

Lemma onSubscribe_respects : respects R onSubscribe.
Proof. unfold onSubscribe. keep method_leaf. Qed.

Lemma onUnsubscribe_respects forceUnsubscribe : respects R (onUnsubscribe forceUnsubscribe).
Proof. unfold onUnsubscribe. keep method_leaf. Qed.

Lemma onModify_respects newArgs options : respects R (onModify newArgs options).
Proof.
  unfold onModify.
  keep ltac:(first [apply onSubscribe_respects | apply onUnsubscribe_respects | method_leaf]).
Qed.

Lemma call_respects c : respects R (call c).
Proof.
  destruct c; cbn [call];
    [apply onSubscribe_respects | apply onUnsubscribe_respects
    | apply onModify_respects | apply R_tryPerformAction; queued_item].
Qed.

Lemma reset_respects : respects R reset.
Proof.
  unfold reset.
  keep ltac:(first [apply onSubscribe_respects | apply onUnsubscribe_respects | method_leaf]).
Qed.

Lemma onActivity_respects : respects R onActivity.
Proof. unfold onActivity. keep method_leaf. Qed.

Lemma processUpdate_respects message type : respects R (processUpdate message type).
Proof. unfold processUpdate. keep ltac:(first [apply reset_respects | method_leaf]). Qed.

Lemma onStreamingData_respects message : respects R (onStreamingData message).
Proof.
  unfold onStreamingData.
  keep ltac:(first [apply onActivity_respects | apply processUpdate_respects | method_leaf]).
Qed.

Lemma onHeartbeat_respects : respects R onHeartbeat.
Proof. unfold onHeartbeat. keep ltac:(first [apply onActivity_respects | method_leaf]). Qed.

Lemma processSnapshot_respects response : respects R (processSnapshot response).
Proof. unfold processSnapshot. keep method_leaf. Qed.

Lemma replayUpdates_respects fuel : ∀ i, respects R (replayUpdates fuel i).
Proof.
  induction fuel as [|fuel IH]; intros i; cbn [replayUpdates].
  { by apply respects_out_of_fuel. }
  keep ltac:(first [apply onStreamingData_respects | apply IH | method_leaf]).
Qed.

Lemma onSubscribeSuccess_respects referenceId0 responseData :
  respects R (onSubscribeSuccess referenceId0 responseData).
Proof.
  unfold onSubscribeSuccess.
  keep ltac:(first [ apply onActivity_respects | apply processSnapshot_respects
                   | apply replayUpdates_respects | method_leaf ]).
Qed.

Lemma onSubscribeError_respects referenceId0 response :
  respects R (onSubscribeError referenceId0 response).
Proof. unfold onSubscribeError. keep method_leaf. Qed.

(** An error that is not a duplicate-key error involves no cleanup. *)
Lemma onSubscribeError_other_respects referenceId0 response :
  isDupeRequest response = false →
  respects R (onSubscribeError referenceId0 response).
Proof. intros Hdupe. unfold onSubscribeError. rewrite Hdupe. keep method_leaf. Qed.

Lemma onUnsubscribeSuccess_respects referenceId0 :
  respects R (onUnsubscribeSuccess referenceId0).
Proof. unfold onUnsubscribeSuccess. keep method_leaf. Qed.

Lemma onUnsubscribeError_respects referenceId0 :
  respects R (onUnsubscribeError referenceId0).
Proof. unfold onUnsubscribeError. keep method_leaf. Qed.

Lemma onModifyPatchSuccess_respects referenceId0 :
  respects R (onModifyPatchSuccess referenceId0).
Proof. unfold onModifyPatchSuccess. keep method_leaf. Qed.

Lemma onModifyPatchError_respects referenceId0 :
  respects R (onModifyPatchError referenceId0).
Proof. unfold onModifyPatchError. keep method_leaf. Qed.

Lemma onConnectionUnavailable_respects : respects R onConnectionUnavailable.
Proof. unfold onConnectionUnavailable. keep method_leaf. Qed.

Lemma onConnectionAvailable_respects : respects R onConnectionAvailable.
Proof. unfold onConnectionAvailable. keep method_leaf. Qed.

Lemma onUnsubscribeByTagComplete_respects : respects R onUnsubscribeByTagComplete.
Proof. unfold onUnsubscribeByTagComplete. keep method_leaf. Qed.

Lemma onNetworkErrorTimeout_respects : respects R onNetworkErrorTimeout.
Proof. unfold onNetworkErrorTimeout. keep method_leaf. Qed.

Lemma addStateChangedCallback_respects callback :
  respects R (addStateChangedCallback callback).
Proof.
  intros s. unfold addStateChangedCallback, modify, state_of, events_of. cbn.
  destruct (bool_decide _); [apply R_refl|apply R_callbacks].
Qed.

Lemma removeStateChangedCallback_respects callback :
  respects R (removeStateChangedCallback callback).
Proof. intros s. apply R_callbacks. Qed.

Lemma dispose_respects : respects R dispose.
Proof. intros s. apply R_disposed. Qed.

Lemma enter_respects e : respects R (enter e).
Proof.
  destruct e; cbn [enter].
  - apply call_respects.
  - apply reset_respects.
  - apply dispose_respects.
  - apply addStateChangedCallback_respects.
  - apply removeStateChangedCallback_respects.
  - apply onConnectionUnavailable_respects.
  - apply onConnectionAvailable_respects.
  - keep ltac:(first [apply onStreamingData_respects | method_leaf]).
  - apply onHeartbeat_respects.
  - apply onUnsubscribeByTagComplete_respects.
  - apply onSubscribeSuccess_respects.
  - apply onSubscribeError_respects.
  - apply onUnsubscribeSuccess_respects.
  - apply onUnsubscribeError_respects.
  - apply onModifyPatchSuccess_respects.
  - apply onModifyPatchError_respects.
  - apply onNetworkErrorTimeout_respects.
Qed.

Lemma enters_respects l : ∀ s, R s (enters l s).1 (enters l s).2.
Proof.
  induction l as [|e l IH]; intros s; cbn [enters]; [apply R_refl|].
  pose proof (enter_respects e s) as H1. pose proof (IH (state_of (enter e s))) as H2.
  destruct (enters l _) as [s' t']. cbn in *. by eapply R_trans.
Qed.

End Methods.

(** *** The reference ids of the POSTs *)















(** *** Every method returns *)

Ltac total_leaf :=
  first [ exact Logic.I | intros; exact Logic.I | intros; by apply Forall_true ].

Lemma tryPerformAction_total action args :
  preserves (λ _, True) (λ _, True) (tryPerformAction action args).
Proof.
  intros s _. split; [done|]. split; [by apply Forall_true|].
  apply tryPerformAction_frame.
Qed.

Lemma onReadyToPerformNextAction_total :
  preserves (λ _, True) (λ _, True) onReadyToPerformNextAction.
Proof.
  intros s _. split; [done|]. split; [by apply Forall_true|].
  apply onReadyToPerformNextAction_settles.
Qed.

Lemma onSubscribe_total : preserves (λ _, True) (λ _, True) onSubscribe.
Proof. unfold onSubscribe. keep ltac:(solve [apply tryPerformAction_total | total_leaf]). Qed.

Lemma onUnsubscribe_total forceUnsubscribe :
  preserves (λ _, True) (λ _, True) (onUnsubscribe forceUnsubscribe).
Proof. unfold onUnsubscribe. keep ltac:(solve [apply tryPerformAction_total | total_leaf]). Qed.

Lemma call_total c : preserves (λ _, True) (λ _, True) (call c).
Proof.
  destruct c; cbn [call];
    [apply onSubscribe_total | apply onUnsubscribe_total | | apply tryPerformAction_total].
  unfold onModify.
  keep ltac:(solve [ apply onSubscribe_total | apply onUnsubscribe_total
                   | apply tryPerformAction_total | total_leaf ]).
Qed.

Lemma reset_total : preserves (λ _, True) (λ _, True) reset.
Proof.
  unfold reset.
  keep ltac:(solve [apply onSubscribe_total | apply onUnsubscribe_total | total_leaf]).
Qed.



Lemma onStreamingData_total message :
  preserves (λ _, True) (λ _, True) (onStreamingData message).
Proof.
  unfold onStreamingData, onActivity, processUpdate.
  keep ltac:(solve [apply reset_total | total_leaf]).
Qed.

(** *** The buffer of early updates while actions are performed *)

Lemma buffer_kept_refl s : buffer_kept s s [].
Proof. split; [by left|done]. Qed.

Lemma buffer_kept_trans s s1 s2 t1 t2 :
  buffer_kept s s1 t1 → buffer_kept s1 s2 t2 → buffer_kept s s2 (t1 ++ t2).
Proof.
  intros [A1 B1] [A2 B2]. split; [|auto].
  intros Hs. destruct (A1 Hs) as [[Hs1 Hb1]|Hb1]; [|right; auto].
  destruct (A2 Hs1) as [[Hs2 Hb2]|Hb2]; [left|by right].
  split; [done|congruence].
Qed.

(** A step that ends outside SUBSCRIBE_REQUESTED with the buffer it found. *)
Lemma buffer_kept_same s s' t :
  currentState s' ≠ STATE_SUBSCRIBE_REQUESTED →
  updatesBeforeSubscribed s' = updatesBeforeSubscribed s →
  buffer_kept s s' t.
Proof. intros Hs Hb. split; [by left|congruence]. Qed.

(** A step that changes neither the state nor the buffer. *)
Lemma buffer_kept_untouched s s' t :
  currentState s' = currentState s →
  updatesBeforeSubscribed s' = updatesBeforeSubscribed s →
  buffer_kept s s' t.
Proof. intros Hs Hb. split; [left; split; congruence|congruence]. Qed.

Lemma buffer_kept_subscribe : respects buffer_kept subscribe.
Proof.
  intros s. rewrite subscribe_run. cbn zeta.
  destruct (build_post s (pretty (referenceIdCounter s))) as [[data optionsHeaders] st].
  split; [by right|done].
Qed.

Lemma buffer_kept_setState state :
  state ≠ STATE_SUBSCRIBE_REQUESTED → respects buffer_kept (setState state).
Proof. intros Hstate s. rewrite setState_run. by apply buffer_kept_same. Qed.

Lemma buffer_kept_unsubscribe : respects buffer_kept unsubscribe.
Proof. intros s. unfold unsubscribe. run. rewrite setState_run. by apply buffer_kept_same. Qed.

Lemma buffer_kept_modifyPatch args : respects buffer_kept (modifyPatch args).
Proof. intros s. unfold modifyPatch. run. rewrite setState_run. by apply buffer_kept_same. Qed.

Ltac buffer_leaf :=
  first
    [ exact buffer_kept_refl | exact buffer_kept_trans | exact buffer_kept_subscribe
    | exact buffer_kept_unsubscribe | exact buffer_kept_modifyPatch
    | apply buffer_kept_setState; discriminate
    | intros state [->|[->|[]%elem_of_nil]%elem_of_cons]%elem_of_cons;
      apply buffer_kept_setState; discriminate
    | intros; by apply buffer_kept_untouched ].

Lemma buffer_kept_tryPerformAction action args :
  respects buffer_kept (tryPerformAction action args).
Proof. apply tryPerformAction_respects; buffer_leaf. Qed.

Lemma buffer_kept_onReady : respects buffer_kept onReadyToPerformNextAction.
Proof. apply onReadyToPerformNextAction_respects; buffer_leaf. Qed.

Lemma buffer_kept_processUpdate message type :
  respects buffer_kept (processUpdate message type).
Proof.
  apply processUpdate_respects;
    first [intros ? ? _; apply buffer_kept_tryPerformAction | buffer_leaf].
Qed.

(** An update that arrives outside SUBSCRIBE_REQUESTED is not buffered. *)
Lemma onStreamingData_buffer message s :
  currentState s ≠ STATE_SUBSCRIBE_REQUESTED →
  buffer_kept s (state_of (onStreamingData message s))
    (events_of (onStreamingData message s)).
Proof.
  intros Hs. unfold onStreamingData, onActivity.
  rewrite modify_bind, gets_bind. cbn [currentState set_latestActivity].
  set (s_a := set_latestActivity (Some (now s)) s).
  assert (buffer_kept s s_a []) as Ha by by apply buffer_kept_untouched.
  destruct (bool_decide (currentState s = STATE_UNSUBSCRIBE_REQUESTED)); [done|].
  destruct (bool_decide (currentState s = STATE_UNSUBSCRIBED)); [done|].
  rewrite (bool_decide_false (currentState s = STATE_SUBSCRIBE_REQUESTED)) by done.
  match goal with
  | |- buffer_kept _ (state_of (?m s_a)) _ => assert (respects buffer_kept m) as Hm
  end.
  { keep ltac:(solve [apply buffer_kept_processUpdate | buffer_leaf]). }
  apply (buffer_kept_trans _ _ _ [] _ Ha), Hm.
Qed.

Lemma buffer_kept_replayable s s' t :
  buffer_kept s s' t → replayable s → replayable s'.
Proof.
  intros [A B] [Hs|Hb]; [|right; auto].
  destruct (A Hs) as [[? _]|?]; [by left|by right].
Qed.

(** The replay loop: with one turn more than there are updates left in the
    buffer it comes to its end. *)
Lemma replayUpdates_keeps fuel : ∀ i s,
  replayable s →
  (∀ l, updatesBeforeSubscribed s = Some l → (length l < fuel + i)%nat) →
  (0 < fuel)%nat →
  replayable (state_of (replayUpdates fuel i s)) ∧
  Forall (λ _, True) (events_of (replayUpdates fuel i s)) ∧
  outcome_of (replayUpdates fuel i s) ≠ OutOfFuel.
Proof.
  induction fuel as [|fuel IH]; intros i s Hs Hlen Hfuel; [lia|].
  cbn [replayUpdates]. rewrite gets_bind.
  destruct (updatesBeforeSubscribed s) as [l|] eqn:Hb;
    [|by split; [|split; [constructor|]]].
  destruct (l !! i) as [message|] eqn:Hi;
    [|by split; [|split; [constructor|]]].
  assert (currentState s ≠ STATE_SUBSCRIBE_REQUESTED) as Hst.
  { destruct Hs as [?|Hnone]; [done|congruence]. }
  pose proof (onStreamingData_buffer message s Hst) as Hk.
  pose proof (onStreamingData_total message s Logic.I) as (_ & _ & Ho).
  pose proof (buffer_kept_replayable _ _ _ Hk Hs) as Hs1.
  destruct Hk as [Hk _]. specialize (Hk Hst).
  apply lookup_lt_Some in Hi. specialize (Hlen l eq_refl).
  unfold mbind, M_bind.
  destruct (onStreamingData message s) as [[[a|msg|] s1] t1];
    unfold state_of, events_of, outcome_of in *; cbn in *;
    [|by split; [|split; [apply Forall_true|]]|done].
  destruct (IH (S i) s1) as (Hs2 & _ & Ho2); [done| |lia|].
  { intros l' Hl'. destruct Hk as [[_ Hsame]|Hnone]; [|congruence].
    assert (l' = l) as -> by congruence. lia. }
  unfold state_of, outcome_of in *.
  destruct (replayUpdates fuel (S i) s1) as [[o s2] t2]; cbn in *.
  by split; [|split; [apply Forall_true|]].
Qed.

Lemma replay_keeps :
  preserves replayable (λ _, True)
    (updates ← gets updatesBeforeSubscribed;
     match updates with
     | Some l => replayUpdates (S (length l)) 0
     | None => skip
     end).
Proof.
  intros s Hs. rewrite gets_bind.
  destruct (updatesBeforeSubscribed s) as [l|] eqn:Hb;
    [|by split; [|split; [constructor|]]].
  apply replayUpdates_keeps; [done| |lia].
  intros l' Hl'. assert (l' = l) as -> by congruence. lia.
Qed.

Lemma onReadyToPerformNextAction_replayable :
  preserves replayable (λ _, True) onReadyToPerformNextAction.
Proof.
  intros s Hs. split; [|split; [by apply Forall_true|]].
  - eapply buffer_kept_replayable; [apply buffer_kept_onReady|done].
  - apply onReadyToPerformNextAction_settles.
Qed.

Ltac replayable_leaf :=
  first
    [ exact replay_keeps | exact onReadyToPerformNextAction_replayable
    | done
    | intros ? [?|?]; [by left|by right]
    | intros ? [?|?]; by right
    | intros; by left ].

(** A sequence whose first step establishes what the rest keeps. *)
Lemma preserves_after {A B} (I : Subscription → Prop) (E : Event → Prop)
    (m : M A) (f : A → M B) s :
  I (state_of (m s)) → Forall E (events_of (m s)) → outcome_of (m s) ≠ OutOfFuel →
  (∀ a, preserves I E (f a)) →
  I (state_of ((m ≫= f) s)) ∧ Forall E (events_of ((m ≫= f) s)) ∧
  outcome_of ((m ≫= f) s) ≠ OutOfFuel.
Proof.
  intros Hs1 Ht1 Ho1 Hf.
  unfold mbind, M_bind, state_of, events_of, outcome_of in *.
  destruct (m s) as [[[a|msg|] s1] t1]; cbn in *; [|done..].
  destruct (Hf a s1 Hs1) as (Hs2 & Ht2 & Ho2).
  unfold state_of, events_of, outcome_of in *.
  destruct (f a s1) as [[o s2] t2]; cbn in *.
  split; [done|]. split; [by apply Forall_app|done].
Qed.

Lemma onSubscribeSuccess_total referenceId0 responseData :
  preserves (λ _, True) (λ _, True) (onSubscribeSuccess referenceId0 responseData).
Proof.
  intros s _. unfold onSubscribeSuccess. rewrite gets_bind.
  destruct (negb _); [by split; [|split; [apply Forall_true|]]|].
  match goal with
  | |- context [mbind ?f (setState STATE_SUBSCRIBED)] =>
    destruct (preserves_after replayable (λ _, True)
                (setState STATE_SUBSCRIBED) f s) as (_ & Hev & Ho)
  end.
  - rewrite setState_run. by left.
  - by apply Forall_true.
  - by rewrite setState_run.
  - intros []. unfold onActivity, processSnapshot.
    keep_with ltac:(exact replay_keeps) replayable_leaf.
  - done.
Qed.

Lemma enter_total e : preserves (λ _, True) (λ _, True) (enter e).
Proof.
  destruct e; cbn [enter];
    try (by apply call_total || by apply reset_total
         || by apply onSubscribeSuccess_total);
    unfold dispose, addStateChangedCallback, removeStateChangedCallback,
      onConnectionUnavailable, onConnectionAvailable, onHeartbeat, onActivity,
      onUnsubscribeByTagComplete, onSubscribeError, cleanUpLeftOverSubscription,
      onUnsubscribeSuccess, onUnsubscribeError, onModifyPatchSuccess,
      onModifyPatchError, onNetworkErrorTimeout;
    keep ltac:(solve [ apply tryPerformAction_total
                     | exact onReadyToPerformNextAction_total
                     | apply onStreamingData_total | total_leaf ]).
Qed.

(** *** Entries that only act *)

Lemma onReadyToPerformNextAction_acts s : acts s (onReadyToPerformNextAction s).
Proof.
  rewrite onReadyToPerformNextAction_unfold.
  destruct (negb (connectionAvailable s) || SubscriptionQueue.isEmpty (queue s)).
  { apply acts_quiet; [apply same_but_refl|done..]. }
  destruct (SubscriptionQueue.dequeue (queue s)) as [[item|] items].
  - pose proof (performAction_acts (S (length items)) item
                  (SubscriptionQueue.isEmpty items) (set_queue items s)) as Hs.
    destruct (performAction _ _ _ _) as [[o s3] t3].
    destruct Hs as (Hsb & Hev & Hreq & Htr & Href).
    unfold state_of, events_of in *. cbn in Hsb, Hev, Hreq, Htr, Href.
    apply acts_intro; [|done..].
    eapply same_but_trans; [|exact Hsb]. unfold same_but_action_fields. by destruct s.
  - apply acts_quiet; [|done..]. unfold same_but_action_fields. by destruct s.
Qed.

Lemma same_session_refl s : same_session s s.
Proof. by repeat split. Qed.

Lemma acting_refl s : acting s s [].
Proof. split; [apply same_session_refl|constructor]. Qed.

Lemma acting_trans s s1 s2 t1 t2 :
  acting s s1 t1 → acting s1 s2 t2 → acting s s2 (t1 ++ t2).
Proof.
  intros [H1 E1] [H2 E2]. split; [|by apply Forall_app].
  unfold same_session in *.
  destruct H1 as (? & ? & ? & ? & ? & ? & ? & ?), H2 as (? & ? & ? & ? & ? & ? & ? & ?).
  repeat split; congruence.
Qed.

Lemma acting_acts {A} s s0 (r : outcome A * Subscription * list Event) :
  same_session s s0 → acts s0 r → acting s (state_of r) (events_of r).
Proof.
  intros Hs0 (Hsb%same_but_kept & Hev & _).
  apply (acting_trans _ s0 _ [] _); [by split|]. split; [|done].
  unfold same_session. by destruct Hsb as (? & ? & ? & ? & _ & ? & ? & ? & _ & ? & _).
Qed.

Lemma acting_tryPerformAction action args : respects acting (tryPerformAction action args).
Proof.
  intros s. destruct (tryPerformAction_acts action args s) as [Ha _].
  eapply acting_acts; [|exact Ha]. by repeat split.
Qed.

Lemma acting_onReady : respects acting onReadyToPerformNextAction.
Proof.
  intros s. eapply acting_acts; [apply same_session_refl|].
  apply onReadyToPerformNextAction_acts.
Qed.

Lemma acting_setState state : respects acting (setState state).
Proof.
  intros s. rewrite setState_run. split; [by repeat split|].
  apply action_events_stateChanged.
Qed.

Ltac acting_leaf :=
  first
    [ exact acting_refl | exact acting_trans
    | intros ? ? _; apply acting_tryPerformAction | exact acting_onReady
    | intros; apply acting_setState
    | intros; split; [by repeat split | by repeat constructor] ].

Lemma acting_enter e : only_acts e = true → respects acting (enter e).
Proof.
  destruct e; try discriminate; intros _; cbn [enter].
  - apply call_respects; acting_leaf.
  - apply reset_respects; acting_leaf.
  - apply onUnsubscribeByTagComplete_respects; acting_leaf.
  - apply onUnsubscribeSuccess_respects; acting_leaf.
  - apply onUnsubscribeError_respects; acting_leaf.
  - apply onModifyPatchSuccess_respects; acting_leaf.
  - apply onModifyPatchError_respects; acting_leaf.
  - apply onNetworkErrorTimeout_respects; acting_leaf.
Qed.

Lemma acting_enters l : ∀ s,
  Forall (λ e, only_acts e = true) l → acting s (enters l s).1 (enters l s).2.
Proof.
  induction l as [|e l IH]; intros s Hl; cbn [enters]; [apply acting_refl|].
  apply Forall_cons in Hl as [He Hl].
  pose proof (acting_enter e He s) as H1.
  pose proof (IH (state_of (enter e s)) Hl) as H2.
  destruct (enters l _) as [s' t']. cbn in *. by eapply acting_trans.
Qed.

(** *** While the connection is unavailable *)

Lemma offline_refl s : offline s s [].
Proof. by intros ?. Qed.

Lemma offline_trans s s1 s2 t1 t2 :
  offline s s1 t1 → offline s1 s2 t2 → offline s s2 (t1 ++ t2).
Proof.
  intros H1 H2 Hs. destruct (H1 Hs) as [Hs1 Hr1]. destruct (H2 Hs1) as [Hs2 Hr2].
  split; [done|]. rewrite requests_app. lia.
Qed.

Lemma offline_tryPerformAction action args : respects offline (tryPerformAction action args).
Proof.
  intros s Hs. rewrite tryPerformAction_enqueues by by rewrite Hs.
  cbn zeta.
  destruct (SubscriptionQueue.enqueue (queue s) _) as [[|msg] items];
    by destruct (networkErrorSubscribingTimer s).
Qed.

Lemma offline_onReady : respects offline onReadyToPerformNextAction.
Proof. intros s Hs. rewrite onReadyToPerformNextAction_unfold, Hs. done. Qed.

Lemma offline_setState state : respects offline (setState state).
Proof.
  intros s Hs. rewrite setState_run. split; [done|]. apply requests_stateChanged.
Qed.

Ltac offline_leaf :=
  first
    [ exact offline_refl | exact offline_trans
    | intros ? ? _; apply offline_tryPerformAction | exact offline_onReady
    | intros; apply offline_setState
    | intros; intros ?; by split ].

Lemma offline_enter e : asks_while_offline e = false → respects offline (enter e).
Proof.
  destruct e; try discriminate; intros Hask; cbn [enter].
  - apply call_respects; offline_leaf.
  - apply reset_respects; offline_leaf.
  - apply dispose_respects; offline_leaf.
  - apply addStateChangedCallback_respects; offline_leaf.
  - apply removeStateChangedCallback_respects; offline_leaf.
  - apply onConnectionUnavailable_respects; offline_leaf.
  - apply respects_bind; [exact offline_trans| |intros ?; by apply respects_ret, offline_refl].
    apply onStreamingData_respects; offline_leaf.
  - apply onHeartbeat_respects; offline_leaf.
  - apply onUnsubscribeByTagComplete_respects; offline_leaf.
  - apply onSubscribeSuccess_respects; offline_leaf.
  - apply onSubscribeError_other_respects; first [exact Hask | offline_leaf].
  - apply onUnsubscribeSuccess_respects; offline_leaf.
  - apply onUnsubscribeError_respects; offline_leaf.
  - apply onModifyPatchSuccess_respects; offline_leaf.
  - apply onModifyPatchError_respects; offline_leaf.
  - apply onNetworkErrorTimeout_respects; offline_leaf.
Qed.

Lemma offline_enters l : ∀ s,
  Forall (λ e, asks_while_offline e = false) l → offline s (enters l s).1 (enters l s).2.
Proof.
  induction l as [|e l IH]; intros s Hl; cbn [enters]; [apply offline_refl|].
  apply Forall_cons in Hl as [He Hl].
  pose proof (offline_enter e He s) as H1.
  pose proof (IH (state_of (enter e s)) Hl) as H2.
  destruct (enters l _) as [s' t']. cbn in *. by eapply offline_trans.
Qed.

(** *** After dispose *)

Lemma stays_disposed_acts {A} s (r : outcome A * Subscription * list Event) :
  acts s r → stays_disposed s (state_of r) (events_of r).
Proof. intros (Hsb%same_but_kept & _) Hs. destruct Hsb as (-> & _). done. Qed.

Lemma stays_disposed_trans s s1 s2 t1 t2 :
  stays_disposed s s1 t1 → stays_disposed s1 s2 t2 → stays_disposed s s2 (t1 ++ t2).
Proof. unfold stays_disposed. auto. Qed.

Lemma stays_disposed_tryPerformAction action args :
  respects stays_disposed (tryPerformAction action args).
Proof.
  intros s Hs. destruct (tryPerformAction_acts action args s) as [Ha _].
  apply stays_disposed_acts in Ha. by apply Ha.
Qed.

Lemma stays_disposed_onReady : respects stays_disposed onReadyToPerformNextAction.
Proof. intros s. apply stays_disposed_acts, onReadyToPerformNextAction_acts. Qed.

Lemma stays_disposed_enters l s :
  stays_disposed s (enters l s).1 (enters l s).2.
Proof.
  apply enters_respects;
    first
      [ exact stays_disposed_trans
      | intros ? ? _; apply stays_disposed_tryPerformAction
      | exact stays_disposed_onReady
      | repeat intro; first [assumption | reflexivity] ].
Qed.

(** *** What an observer is told *)

Lemma notified_app callback t1 t2 :
  notified callback (t1 ++ t2) = notified callback t1 ++ notified callback t2.
Proof.
  induction t1 as [|e t1 IH]; cbn; [done|].
  destruct e; cbn; try done. destruct (bool_decide _); cbn; by rewrite IH.
Qed.

Lemma notified_stateChanged_all callback state (callbacks : list nat) :
  Forall (eq state) (notified callback ((λ c, StateChanged c state) <$> callbacks)).
Proof.
  induction callbacks as [|c callbacks IH]; cbn; [constructor|].
  destruct (bool_decide (c = callback)); [by constructor|done].
Qed.

Lemma notified_stateChanged callback state (callbacks : list nat) :
  callback ∈ callbacks →
  last (notified callback ((λ c, StateChanged c state) <$> callbacks)) = Some state.
Proof.
  induction callbacks as [|c callbacks IH]; [by intros ?%elem_of_nil|].
  intros Hin. cbn. destruct (bool_decide (c = callback)) eqn:Hc.
  - rewrite last_cons. destruct (last _) as [y|] eqn:Hy; [|done].
    apply last_Some_elem_of in Hy.
    pose proof (notified_stateChanged_all callback state callbacks) as Hall.
    rewrite Forall_forall in Hall. by rewrite (Hall y Hy).
  - apply IH. apply elem_of_cons in Hin as [->|Hin]; [|done].
    by apply bool_decide_eq_false in Hc.
Qed.

Lemma informed_refl callback s : informed callback s s [].
Proof. by intros ?. Qed.

Lemma informed_trans callback s s1 s2 t1 t2 :
  informed callback s s1 t1 → informed callback s1 s2 t2 →
  informed callback s s2 (t1 ++ t2).
Proof.
  intros H1 H2 Hs. destruct (H1 Hs) as [Hs1 Hc1]. destruct (H2 Hs1) as [Hs2 Hc2].
  split; [done|]. rewrite notified_app, last_app, Hc2, Hc1.
  by destruct (last (notified callback t2)).
Qed.

(** A step that leaves the state and the observers alone and notifies
    nobody. *)
Lemma informed_quiet callback s s' t :
  onStateChangedCallbacks s' = onStateChangedCallbacks s →
  currentState s' = currentState s →
  notified callback t = [] →
  informed callback s s' t.
Proof. intros Hcb Hst Ht Hs. rewrite Hcb, Hst, Ht. done. Qed.

Lemma informed_setState callback state : respects (informed callback) (setState state).
Proof.
  intros s Hs. rewrite setState_run. split; [done|].
  unfold events_of. cbn. by rewrite notified_stateChanged.
Qed.

Lemma informed_subscribe callback : respects (informed callback) subscribe.
Proof.
  intros s Hs. rewrite subscribe_run. cbn zeta.
  destruct (build_post s (pretty (referenceIdCounter s))) as [[data optionsHeaders] st].
  split; [done|]. unfold events_of. cbn.
  rewrite notified_app, last_app. cbn. by rewrite notified_stateChanged.
Qed.

Lemma informed_unsubscribe callback : respects (informed callback) unsubscribe.
Proof.
  intros s Hs. unfold unsubscribe. run. rewrite setState_run. cbn.
  split; [done|]. unfold events_of. cbn.
  rewrite notified_app, last_app. cbn. by rewrite notified_stateChanged.
Qed.

Lemma informed_modifyPatch callback args : respects (informed callback) (modifyPatch args).
Proof.
  intros s Hs. unfold modifyPatch. run. rewrite setState_run. cbn.
  split; [done|]. unfold events_of. cbn.
  rewrite notified_app, last_app. cbn. by rewrite notified_stateChanged.
Qed.

Ltac informed_leaf :=
  first
    [ apply informed_refl | apply informed_trans | apply informed_subscribe
    | apply informed_unsubscribe | apply informed_modifyPatch
    | apply informed_setState
    | intros; apply informed_setState
    | intros; by apply informed_quiet
    | repeat intro; split; [assumption|reflexivity] ].

Lemma informed_tryPerformAction callback action args :
  respects (informed callback) (tryPerformAction action args).
Proof. apply tryPerformAction_respects; informed_leaf. Qed.

Lemma informed_onReady callback : respects (informed callback) onReadyToPerformNextAction.
Proof. apply onReadyToPerformNextAction_respects; informed_leaf. Qed.

Lemma remove_first_other callback c (l : list nat) :
  c ≠ callback → callback ∈ l → callback ∈ remove_first c l.
Proof.
  intros Hc. induction l as [|x l IH]; cbn; [done|].
  intros [->|Hin]%elem_of_cons.
  - rewrite bool_decide_false by done. by left.
  - destruct (bool_decide (x = c)); [done|]. right. auto.
Qed.

Ltac informed_method :=
  first
    [ intros ? ? _; apply informed_tryPerformAction | apply informed_onReady | informed_leaf ].

Lemma informed_enter callback e :
  removes callback e = false → respects (informed callback) (enter e).
Proof.
  destruct e; intros Hrem; cbn [enter].
  - apply call_respects; informed_method.
  - apply reset_respects; informed_method.
  - apply dispose_respects; informed_method.
  - intros s Hs. unfold addStateChangedCallback, modify, state_of, events_of. cbn.
    destruct (bool_decide _); [done|]. cbn. split; [|done].
    apply elem_of_app. by left.
  - intros s Hs. split; [|done]. cbn in *.
    apply remove_first_other; [|done]. by apply bool_decide_eq_false in Hrem.
  - apply onConnectionUnavailable_respects; informed_method.
  - apply onConnectionAvailable_respects; informed_method.
  - apply respects_bind;
      [apply informed_trans| |intros ?; by apply respects_ret, informed_refl].
    apply onStreamingData_respects; informed_method.
  - apply onHeartbeat_respects; informed_method.
  - apply onUnsubscribeByTagComplete_respects; informed_method.
  - apply onSubscribeSuccess_respects; informed_method.
  - apply onSubscribeError_respects; informed_method.
  - apply onUnsubscribeSuccess_respects; informed_method.
  - apply onUnsubscribeError_respects; informed_method.
  - apply onModifyPatchSuccess_respects; informed_method.
  - apply onModifyPatchError_respects; informed_method.
  - apply onNetworkErrorTimeout_respects; informed_method.
Qed.

Lemma informed_enters callback l : ∀ s,
  Forall (λ e, removes callback e = false) l →
  informed callback s (enters l s).1 (enters l s).2.
Proof.
  induction l as [|e l IH]; intros s Hl; cbn [enters]; [apply informed_refl|].
  apply Forall_cons in Hl as [He Hl].
  pose proof (informed_enter callback e He s) as H1.
  pose proof (IH (state_of (enter e s)) Hl) as H2.
  destruct (enters l _) as [s' t']. cbn in *. by eapply informed_trans.
Qed.

(** *** Histories *)

(** X6: however many calls the caller makes in a row ([onSubscribe],
    [onUnsubscribe], [onModify], [onUnsubscribeByTagPending], in any order and
    from any state), at most one request is handed to the transport before a
    response arrives; if one is, the subscription is left in a transitioning
    state, and at most one of the requests is a POST. *)
Theorem calls_use_one_request_slot l s :
  (requests (calls l s).2 = 0%nat ∨
   (requests (calls l s).2 = 1%nat ∧
    is_transitioning (currentState (calls l s).1) = true)) ∧
  (length (post_ids (calls l s).2) ≤ 1)%nat.
Proof.
  destruct (calls_one_slot l s) as (Hreq & _ & Href). split; [done|].
  unfold reference_id_follows_post in Href. revert Href.
  destruct (post_ids _) as [|? [|? ?]]; cbn; intros; first [lia|done].
Qed.

(** X7: while a request is unanswered (the state is one of the three
    requested states), no sequence of calls of the caller hands anything to
    the transport, changes the state or changes the reference id: the calls
    wait in the queue. *)
Theorem calls_wait_for_the_response l s :
  is_transitioning (currentState s) = true →
  requests (calls l s).2 = 0%nat ∧
  currentState (calls l s).1 = currentState s ∧
  referenceId (calls l s).1 = referenceId s ∧
  referenceIdCounter (calls l s).1 = referenceIdCounter s.
Proof.
  intros Hs. destruct (calls_one_slot l s) as (_ & Hwait & Href).
  destruct (Hwait Hs) as [H0 Hst]. split; [done|]. split; [done|].
  unfold reference_id_follows_post in Href.
  by rewrite (post_ids_no_requests _ H0) in Href.
Qed.


(** X9: every exported method, every handler of a response, every message
    and the retry timer return or throw: the recursion of [performAction] ends
    because each turn takes an item from the queue, and the replay loop of
    [onSubscribeSuccess] ends because replaying an update never adds one to
    the buffer that the loop reads. *)
Theorem every_entry_returns e s :
  outcome_of (enter e s) ≠ OutOfFuel.
Proof. by apply enter_total. Qed.

(** X10: the calls of the caller, [reset], the responses to a DELETE and
    to a PATCH, [onUnsubscribeByTagComplete] and the retry timer, in any
    number and order, only log, notify the state observers, hand requests to
    the transport, call [onQueueEmpty] and cancel the retry timer: they never
    call [onUpdate], [onError], [onSubscriptionCreated] or [onNetworkError]
    and never arm a timer; and they leave [isDisposed], [connectionAvailable],
    [latestActivity], [inactivityTimeout], the parser, the schema name, the
    observers and the reference to [subscriptionData] as they were. *)
Theorem acting_entries_only_act l s :
  Forall (λ e, only_acts e = true) l →
  same_session s (enters l s).1 ∧
  Forall (λ e, is_action_event e = true) (enters l s).2.
Proof. apply acting_enters. Qed.

(** X11: while the connection is unavailable nothing is handed to the
    transport and the connection stays marked unavailable, whatever is called
    and whatever arrives, with two exceptions: [onConnectionAvailable], and a
    subscribe error for a duplicate key (its cleanup DELETE does not wait). *)
Theorem no_request_while_connection_unavailable l s :
  connectionAvailable s = false →
  Forall (λ e, asks_while_offline e = false) l →
  requests (enters l s).2 = 0%nat ∧
  connectionAvailable (enters l s).1 = false.
Proof.
  intros Hs Hl. destruct (offline_enters l s Hl Hs) as [? ?]. done.
Qed.

(** X12: [dispose] is final: whatever happens after it, the subscription
    stays disposed, so that [onSubscribe] and [onModify] throw without doing
    anything. *)
Theorem dispose_is_final l s :
  isDisposed (enters (EnterDispose :: l) s).1 = true ∧
  (∃ msg, onSubscribe (enters (EnterDispose :: l) s).1 =
          (Exc msg, (enters (EnterDispose :: l) s).1, [])) ∧
  (∀ newArgs options, ∃ msg,
     onModify newArgs options (enters (EnterDispose :: l) s).1 =
     (Exc msg, (enters (EnterDispose :: l) s).1, [])).
Proof.
  assert (isDisposed (enters (EnterDispose :: l) s).1 = true) as Hd.
  { cbn [enters enter]. change (state_of (dispose s)) with (set_isDisposed true s).
    pose proof (stays_disposed_enters l (set_isDisposed true s) eq_refl) as Hl.
    by destruct (enters l _) as [s' t']. }
  split; [done|]. split.
  - unfold onSubscribe. rewrite gets_bind, Hd. by eexists.
  - intros newArgs options. unfold onModify. rewrite gets_bind, Hd. by eexists.
Qed.

(** X13: an observer registered with [addStateChangedCallback] is told of
    every state change: after any history in which it is not removed, it is
    still registered and the last state it was told of is the current state
    (or, if it was told nothing, the state has not changed). *)
Theorem observer_is_told_every_state callback l s :
  callback ∈ onStateChangedCallbacks s →
  Forall (λ e, removes callback e = false) l →
  callback ∈ onStateChangedCallbacks (enters l s).1 ∧
  currentState (enters l s).1 =
    default (currentState s) (last (notified callback (enters l s).2)).
Proof. intros Hs Hl. by apply informed_enters. Qed.

(** *** One action at a time *)

#[local] Arguments tryPerformAction : simpl never.
#[local] Arguments onReadyToPerformNextAction : simpl never.
#[local] Arguments performAction : simpl never.
#[local] Arguments subscribe : simpl never.
#[local] Arguments set_prop : simpl never.

Lemma sent_app t1 t2 : sent (t1 ++ t2) = sent t1 ++ sent t2.
Proof.
  induction t1 as [|e t1 IH]; cbn; [done|]. destruct e; cbn; by rewrite ?IH.
Qed.

Lemma sent_stateChanged state (callbacks : list nat) :
  sent ((λ callback, StateChanged callback state) <$> callbacks) = [].
Proof. by induction callbacks. Qed.

Lemma updates_app t1 t2 : updates (t1 ++ t2) = updates t1 ++ updates t2.
Proof.
  induction t1 as [|e t1 IH]; cbn; [done|]. destruct e; cbn; by rewrite ?IH.
Qed.

Lemma updates_stateChanged state (callbacks : list nat) :
  updates ((λ callback, StateChanged callback state) <$> callbacks) = [].
Proof. by induction callbacks. Qed.

Lemma updates_action_events t :
  Forall (λ e, is_action_event e = true) t → updates t = [].
Proof.
  induction 1 as [|e t He _ IH]; [done|]. destruct e; cbn; done.
Qed.

Lemma requests_sent t : requests t = length (sent t).
Proof. induction t as [|e t IH]; cbn; [done|]. destruct e; cbn; by rewrite ?IH. Qed.

(** With the connection available, no request unanswered and no retry timer
    pending, a requested action is performed at once. *)
Lemma tryPerformAction_performs action args s :
  connectionAvailable s = true →
  is_transitioning (currentState s) = false →
  networkErrorSubscribingTimer s = false →
  tryPerformAction action args s =
  performAction (S (length (queue s))) (mkItem (Some action) args) false s.
Proof.
  intros Hc Ht Htimer. rewrite tryPerformAction_unfold, Hc, Ht, Htimer. cbn.
  by destruct (performAction _ _ _ _) as [[o s2] t2].
Qed.

(** An action after which a request is unanswered is the last one performed. *)
Lemma performAction_last fuel queuedItem isLastQueuedAction s s1 t1 :
  dispatchAction queuedItem s = (Ret (), s1, t1) →
  is_transitioning (currentState s1) = true ∨ queue s1 = [] →
  performAction (S fuel) queuedItem isLastQueuedAction s =
  (Ret (), s1,
   t1 ++ if onQueueEmpty s1 && isLastQueuedAction then [OnQueueEmpty] else []).
Proof.
  intros Hd Hstop. rewrite performAction_unfold, Hd. cbn zeta.
  destruct Hstop as [-> | ->]; cbn; by rewrite ?andb_false_r.
Qed.

Lemma dispatch_unsubscribe args s :
  currentState s = STATE_SUBSCRIBED →
  dispatchAction (mkItem (Some ACTION_UNSUBSCRIBE) args) s =
  (Ret (), set_currentState STATE_UNSUBSCRIBE_REQUESTED s,
   ((λ callback, StateChanged callback STATE_UNSUBSCRIBE_REQUESTED)
      <$> onStateChangedCallbacks s)
   ++ [Transport
         (HttpDelete (servicePath s) (request_url s)
                     (currentStreamingContextId s) (referenceId s))
         (UnsubscribeHandlers (referenceId s))]).
Proof.
  intros Hs. unfold dispatchAction, performUnsubscribe, unsubscribe, setState. run. cbn.
  rewrite Hs. decide_constants. cbn. by rewrite ?app_nil_r.
Qed.

Lemma dispatch_modifyPatch args s :
  currentState s = STATE_SUBSCRIBED →
  dispatchAction (mkItem (Some ACTION_MODIFY_PATCH) args) s =
  (Ret (), set_currentState STATE_PATCH_REQUESTED s,
   ((λ callback, StateChanged callback STATE_PATCH_REQUESTED)
      <$> onStateChangedCallbacks s)
   ++ [Transport
         (HttpPatch (servicePath s) (request_url s)
                    (currentStreamingContextId s) (referenceId s) args)
         (ModifyPatchHandlers (referenceId s))]).
Proof.
  intros Hs. unfold dispatchAction, performModifyPatch, modifyPatch, setState. run. cbn.
  rewrite Hs. decide_constants. cbn. by rewrite ?app_nil_r.
Qed.

Lemma dispatch_subscribe args s :
  currentState s = STATE_UNSUBSCRIBED →
  dispatchAction (mkItem (Some ACTION_SUBSCRIBE) args) s =
  subscribe (set_queue (SubscriptionQueue.clearPatches (queue s)) s).
Proof.
  intros Hs. unfold dispatchAction, performSubscribe. run. cbn.
  rewrite Hs. decide_constants. cbn.
  by destruct (subscribe _) as [[o s2] t2].
Qed.

End MoreSubscriptionFacts.

(** ** Scenarios *)

Section Scenarios.

Context `{ParserFacade}.

Implicit Types (s : Subscription) (t : list Event).

Ltac run :=
  unfold when, skip;
  unfold mbind, M_bind, mret, M_ret, get, gets, modify, emit, emits, throw,
    try_catch; cbn beta iota.

Ltac decide_constants :=
  repeat match goal with
  | |- context [bool_decide ?P] =>
    first [ rewrite (bool_decide_true P) by (vm_compute; reflexivity)
          | rewrite (bool_decide_false P) by (vm_compute; discriminate) ]
  end.

#[local] Arguments tryPerformAction : simpl never.
#[local] Arguments onReadyToPerformNextAction : simpl never.
#[local] Arguments performAction : simpl never.
#[local] Arguments subscribe : simpl never.
#[local] Arguments set_prop : simpl never.

(** A sequence whose first step returns. *)
Lemma bind_run {A B} (m : M A) (f : A → M B) s a s1 t1 :
  m s = (Ret a, s1, t1) →
  (m ≫= f) s = (let '(o, s2, t2) := f a s1 in (o, s2, t1 ++ t2)).
Proof. intros Hm. unfold mbind, M_bind. by rewrite Hm. Qed.

Lemma get_bind {B} (f : Subscription → M B) s : (get ≫= f) s = f s s.
Proof. unfold mbind, M_bind, get. by destruct (f s s) as [[o s2] t2]. Qed.

Lemma emit_bind {B} e (f : unit → M B) s :
  (emit e ≫= f) s = (let '(o, s2, t2) := f () s in (o, s2, e :: t2)).
Proof. reflexivity. Qed.

Lemma ret_bind {A B} (a : A) (f : A → M B) s : (mret a ≫= f) s = f a s.
Proof. unfold mbind, M_bind, mret, M_ret. by destruct (f a s) as [[o s2] t2]. Qed.

Lemma bind_updates {A B} (m : M A) (f : A → M B) s :
  updates (events_of (m s)) = [] →
  (∀ a s1, updates (events_of (f a s1)) = []) →
  updates (events_of ((m ≫= f) s)) = [].
Proof.
  intros Hm Hf. unfold mbind, M_bind, events_of in *.
  destruct (m s) as [[[a|msg|] s1] t1]; cbn in *; [|done..].
  specialize (Hf a s1). destruct (f a s1) as [[o s2] t2]; cbn in *.
  by rewrite updates_app, Hm, Hf.
Qed.

Lemma try_catch_updates {A} (m : M A) (h : string → M A) s :
  updates (events_of (m s)) = [] →
  (∀ msg s1, updates (events_of (h msg s1)) = []) →
  updates (events_of (try_catch m h s)) = [].
Proof.
  intros Hm Hh. unfold try_catch, events_of in *.
  destruct (m s) as [[[a|msg|] s1] t1]; cbn in *; [done| |done].
  specialize (Hh msg s1). destruct (h msg s1) as [[o s2] t2]; cbn in *.
  by rewrite updates_app, Hm, Hh.
Qed.

Lemma bind_run_updates {A B} (m : M A) (f : A → M B) s a s1 t1 :
  m s = (Ret a, s1, t1) →
  updates (events_of ((m ≫= f) s)) = updates t1 ++ updates (events_of (f a s1)).
Proof.
  intros Hm. unfold mbind, M_bind, events_of. rewrite Hm.
  destruct (f a s1) as [[o s2] t2]. cbn. apply updates_app.
Qed.

Lemma setState_bind {B} state (f : unit → M B) s :
  (setState state ≫= f) s =
  (let '(o, s2, t2) := f () (set_currentState state s) in
   (o, s2,
    ((λ callback, StateChanged callback state) <$> onStateChangedCallbacks s) ++ t2)).
Proof. apply bind_run, setState_run. Qed.

Lemma when_false_bind {B} m (f : unit → M B) s : (when false m ≫= f) s = f () s.
Proof. exact (ret_bind () f s). Qed.

Lemma skip_bind {B} (f : unit → M B) s : (skip ≫= f) s = f () s.
Proof. exact (ret_bind () f s). Qed.

Lemma onSubscribe_run s :
  isDisposed s = false → onSubscribe s = tryPerformAction ACTION_SUBSCRIBE None s.
Proof. intros Hd. unfold onSubscribe. by rewrite gets_bind, Hd. Qed.

Lemma onUnsubscribe_run forceUnsubscribe s :
  isDisposed s = false →
  onUnsubscribe forceUnsubscribe s =
  tryPerformAction ACTION_UNSUBSCRIBE (Some (mkArgs (Some forceUnsubscribe) None)) s.
Proof.
  intros Hd. unfold onUnsubscribe. rewrite gets_bind, Hd.
  unfold when, skip, mbind, M_bind, mret, M_ret.
  by destruct (tryPerformAction _ _ s) as [[o s2] t2].
Qed.

(** The unsubscribe half of a reset or of a modify: from SUBSCRIBED with the
    connection available, the DELETE goes out and the subscribe waits. *)
Lemma unsubscribe_then_subscribe s :
  currentState s = STATE_SUBSCRIBED →
  connectionAvailable s = true →
  networkErrorSubscribingTimer s = false →
  isDisposed s = false →
  queue s = [] →
  (onUnsubscribe true;; onSubscribe) s =
  (Ret (),
   set_queue [mkItem (Some ACTION_SUBSCRIBE) None]
     (set_currentState STATE_UNSUBSCRIBE_REQUESTED s),
   ((λ callback, StateChanged callback STATE_UNSUBSCRIBE_REQUESTED)
      <$> onStateChangedCallbacks s)
   ++ [Transport
         (HttpDelete (servicePath s) (request_url s)
                     (currentStreamingContextId s) (referenceId s))
         (UnsubscribeHandlers (referenceId s))]).
Proof.
  intros Hst Hc Htimer Hd Hq.
  erewrite bind_run; cycle 1.
  { rewrite onUnsubscribe_run, tryPerformAction_performs by (done || by rewrite Hst).
    erewrite performAction_last; [reflexivity|by apply dispatch_unsubscribe|by left]. }
  rewrite onSubscribe_run by done.
  rewrite tryPerformAction_enqueues by (cbn; apply orb_true_r).
  cbn. rewrite Htimer, Hq. cbn. by rewrite andb_false_r, !app_nil_r.
Qed.

Lemma onReady_performs s item items :
  connectionAvailable s = true →
  SubscriptionQueue.dequeue (queue s) = (Some item, items) →
  queue s ≠ [] →
  onReadyToPerformNextAction s =
  performAction (S (length items)) item (SubscriptionQueue.isEmpty items)
    (set_queue items s).
Proof.
  intros Hc Hd Hq. rewrite onReadyToPerformNextAction_unfold, Hc, Hd.
  destruct (queue s); done.
Qed.

(** Performing a subscribe from UNSUBSCRIBED: one POST under the id that the
    counter gives, and nothing more is taken from the queue. *)
Lemma performAction_subscribe fuel args isLastQueuedAction s :
  currentState s = STATE_UNSUBSCRIBED →
  ∃ s' t' body optionsHeaders,
    performAction (S fuel) (mkItem (Some ACTION_SUBSCRIBE) args) isLastQueuedAction s =
      (Ret (), s', t') ∧
    sent t' =
      [(HttpPost (servicePath s) (getSubscribeUrl (url s) (subscriptionData s) (store s))
                 body optionsHeaders,
        SubscribeHandlers (Some (pretty (referenceIdCounter s))))] ∧
    (∀ o, store s !! subscriptionData s = Some o →
       body = delete "Top"
                ({[ "ContextId" := VStr (streamingContextId s);
                    "ReferenceId" := VStr (pretty (referenceIdCounter s));
                    "KnownSchemas" := VArr (getSchemaNames (parser s)) ]} ∪ o)) ∧
    updates t' = [] ∧
    same_but_action_fields s s' ∧
    currentState s' = STATE_SUBSCRIBE_REQUESTED ∧
    referenceId s' = Some (pretty (referenceIdCounter s)) ∧
    referenceIdCounter s' = referenceIdCounter s + 1 ∧
    updatesBeforeSubscribed s' = None ∧
    queue s' = SubscriptionQueue.clearPatches (queue s).
Proof.
  intros Hst.
  pose proof (dispatch_subscribe args s Hst) as Hd.
  rewrite subscribe_run in Hd. cbn zeta in Hd.
  destruct (build_post _ _) as [[data optionsHeaders] st] eqn:Hb.
  cbn [referenceIdCounter set_queue servicePath url subscriptionData store
       streamingContextId onStateChangedCallbacks] in Hd.
  eexists _, _, _, _. split.
  { eapply performAction_last; [exact Hd|by left]. }
  cbn. rewrite !sent_app, !updates_app, sent_stateChanged, updates_stateChanged. cbn.
  split; [by destruct (_ && _)|]. split.
  { intros o Ho. by apply (build_post_body _ _ _ _ _ _ Hb). }
  split; [by destruct (_ && _)|].
  split; [|done]. unfold same_but_action_fields. by destruct s.
Qed.

Lemma post_ids_sent t referenceId0 servicePath0 url0 body optionsHeaders :
  sent t = [(HttpPost servicePath0 url0 body optionsHeaders,
             SubscribeHandlers referenceId0)] →
  post_ids t = [referenceId0].
Proof.
  induction t as [|e t IH]; cbn; [done|].
  destruct e as [| request handlers | | | | | | | |]; cbn; try done.
  intros [= -> -> Ht]. cbn. f_equal.
  apply post_ids_no_requests. by rewrite requests_sent, Ht.
Qed.

(** The subscribe that was waiting goes out when the DELETE is answered. *)
Lemma subscribe_after_unsubscribe s :
  currentState s = STATE_UNSUBSCRIBE_REQUESTED →
  connectionAvailable s = true →
  queue s = [mkItem (Some ACTION_SUBSCRIBE) None] →
  let r := onUnsubscribeSuccess (referenceId s) s in
  ∃ body optionsHeaders,
    sent (events_of r) =
      [(HttpPost (servicePath s) (getSubscribeUrl (url s) (subscriptionData s) (store s))
                 body optionsHeaders,
        SubscribeHandlers (Some (pretty (referenceIdCounter s))))] ∧
    (∀ o, store s !! subscriptionData s = Some o →
       body = delete "Top"
                ({[ "ContextId" := VStr (streamingContextId s);
                    "ReferenceId" := VStr (pretty (referenceIdCounter s));
                    "KnownSchemas" := VArr (getSchemaNames (parser s)) ]} ∪ o)) ∧
    currentState (state_of r) = STATE_SUBSCRIBE_REQUESTED ∧
    referenceId (state_of r) = Some (pretty (referenceIdCounter s)) ∧
    queue (state_of r) = [].
Proof.
  intros Hst Hc Hq r. subst r.
  unfold onUnsubscribeSuccess. rewrite gets_bind.
  rewrite bool_decide_true by done. cbn [negb].
  erewrite bind_run by apply setState_run.
  erewrite onReady_performs; [|done|cbn; rewrite Hq; reflexivity|cbn; by rewrite Hq].
  cbn [length set_queue queue].
  destruct (performAction_subscribe 0 None (SubscriptionQueue.isEmpty [])
              (set_queue [] (set_currentState STATE_UNSUBSCRIBED s)) eq_refl)
    as (s' & t' & body & optionsHeaders & -> & Hsent & Hbody & _ & _ & Hst' & Href & _ & _ & Hq').
  exists body, optionsHeaders.
  unfold state_of, events_of. cbn in *.
  by rewrite sent_app, sent_stateChanged, Hsent.
Qed.

(** *** Reset *)

Lemma reset_acting : respects acting reset.
Proof.
  apply reset_respects;
    first [ exact acting_refl | exact acting_trans
          | intros ? ? _; apply acting_tryPerformAction
          | intros; apply acting_setState
          | intros; split; [by repeat split | by repeat constructor] ].
Qed.

(** X14: a message that cannot be parsed is never passed to [onUpdate],
    whatever the state of the subscription. *)
Theorem unparseable_update_is_not_delivered (message : Message) s :
  parse (parser s) (Data message) (SchemaName s) = None →
  updates (events_of (onStreamingData message s)) = [].
Proof.
  intros Hparse. unfold onStreamingData, onActivity.
  rewrite modify_bind, gets_bind. cbn [currentState set_latestActivity].
  destruct (bool_decide (currentState s = STATE_UNSUBSCRIBE_REQUESTED)); [done|].
  destruct (bool_decide (currentState s = STATE_UNSUBSCRIBED)); [done|].
  destruct (bool_decide (currentState s = STATE_SUBSCRIBE_REQUESTED)); [done|].
  set (s_a := set_latestActivity (Some (now s)) s).
  assert (updates (events_of (processUpdate message UPDATE_TYPE_DELTA s_a)) = []) as Hp.
  { assert (parse (parser s_a) (Data message) (SchemaName s_a) = None) as Hparse' by done.
    unfold processUpdate. rewrite get_bind, Hparse', emit_bind.
    destruct (reset_acting s_a) as [_ Hev%updates_action_events].
    unfold events_of in *. by destruct (reset s_a) as [[o s2] t2]. }
  assert (updates (events_of
            ((try_catch (processUpdate message UPDATE_TYPE_DELTA)
                (λ _, emit (Log LogError
                   "Exception occurred in streaming delta update callback"));;
              mret (None : option bool)) s_a)) = []) as Hrest.
  { apply bind_updates; [|intros; reflexivity].
    apply try_catch_updates; [done|intros; reflexivity]. }
  destruct (_ || _).
  - by erewrite bind_run_updates by reflexivity.
  - by erewrite bind_run_updates by reflexivity.
Qed.

(** X15: [reset] of a subscribed subscription (connection available, nothing
    queued) is an unsubscribe followed by a subscribe under a new reference
    id: the DELETE for the current reference id goes out at once, the
    subscribe waits in the queue, and when the DELETE is answered one POST
    goes out whose reference id is the decimal form of the counter. *)
Theorem reset_resubscribes_under_a_new_id s :
  currentState s = STATE_SUBSCRIBED →
  connectionAvailable s = true →
  networkErrorSubscribingTimer s = false →
  isDisposed s = false →
  queue s = [] →
  sent (events_of (reset s)) =
    [(HttpDelete (servicePath s) (request_url s)
                 (currentStreamingContextId s) (referenceId s),
      UnsubscribeHandlers (referenceId s))] ∧
  currentState (state_of (reset s)) = STATE_UNSUBSCRIBE_REQUESTED ∧
  referenceId (state_of (reset s)) = referenceId s ∧
  post_ids (events_of (onUnsubscribeSuccess (referenceId s) (state_of (reset s)))) =
    [Some (pretty (referenceIdCounter s))] ∧
  requests (events_of (onUnsubscribeSuccess (referenceId s) (state_of (reset s)))) = 1%nat ∧
  currentState (state_of (onUnsubscribeSuccess (referenceId s) (state_of (reset s)))) =
    STATE_SUBSCRIBE_REQUESTED ∧
  referenceId (state_of (onUnsubscribeSuccess (referenceId s) (state_of (reset s)))) =
    Some (pretty (referenceIdCounter s)).
Proof.
  intros Hst Hc Htimer Hd Hq.
  assert (reset s = (onUnsubscribe true;; onSubscribe) s) as ->.
  { unfold reset. rewrite gets_bind, Hst. decide_constants. cbn [orb].
    by rewrite gets_bind, Hq. }
  rewrite unsubscribe_then_subscribe by done.
  match goal with |- context [state_of (?o, ?x, ?t)] =>
    change (state_of (o, x, t)) with x; change (events_of (o, x, t)) with t end.
  rewrite sent_app, sent_stateChanged. cbn [sent app].
  split; [done|]. split; [done|]. split; [done|].
  set (s1 := set_queue _ _).
  destruct (subscribe_after_unsubscribe s1)
    as (body & optionsHeaders & Hsent & _ & Hst2 & Href & _); [done..|].
  change (referenceId s1) with (referenceId s) in *.
  change (referenceIdCounter s1) with (referenceIdCounter s) in *.
  by rewrite (post_ids_sent _ _ _ _ _ _ Hsent), requests_sent, Hsent.
Qed.

(** *** Modify *)

Lemma lookup_set_prop l k v (st : objects) :
  set_prop l k v st !! l = Some (<[k := v]> (obj_at st l)).
Proof. unfold set_prop. apply lookup_insert_eq. Qed.

(** X16: [onModify] without the patch option, on a subscribed subscription
    (connection available, nothing queued), replaces the subscription: the
    DELETE for the current reference id goes out at once, and when it is
    answered one POST goes out under a new reference id whose body carries
    the new [Arguments]. *)
Theorem modify_replaces_the_subscription newArgs s o :
  currentState s = STATE_SUBSCRIBED →
  connectionAvailable s = true →
  networkErrorSubscribingTimer s = false →
  isDisposed s = false →
  queue s = [] →
  store s !! subscriptionData s = Some o →
  sent (events_of (onModify newArgs None s)) =
    [(HttpDelete (servicePath s) (request_url s)
                 (currentStreamingContextId s) (referenceId s),
      UnsubscribeHandlers (referenceId s))] ∧
  ∃ url0 body optionsHeaders,
    sent (events_of (onUnsubscribeSuccess (referenceId s)
                       (state_of (onModify newArgs None s)))) =
      [(HttpPost (servicePath s) url0 body optionsHeaders,
        SubscribeHandlers (Some (pretty (referenceIdCounter s))))] ∧
    body !! "Arguments" = Some newArgs.
Proof.
  intros Hst Hc Htimer Hd Hq Ho.
  unfold onModify. rewrite gets_bind, Hd, modify_bind.
  set (s0 := set_store _ s).
  rewrite (unsubscribe_then_subscribe s0) by done.
  match goal with |- context [state_of (?o, ?x, ?t)] =>
    change (state_of (o, x, t)) with x; change (events_of (o, x, t)) with t end.
  rewrite sent_app, sent_stateChanged. split; [done|].
  set (s1 := set_queue _ _).
  destruct (subscribe_after_unsubscribe s1)
    as (body & optionsHeaders & Hsent & Hbody & _); [done..|].
  eexists _, body, optionsHeaders. split; [exact Hsent|].
  rewrite (Hbody _ (lookup_set_prop _ _ _ _)).
  rewrite lookup_delete_ne by done.
  rewrite lookup_union_r by done.
  apply lookup_insert_eq.
Qed.

(** X17: [onModify] with the patch option but without [patchArgsDelta]
    throws; nothing is requested or queued and the state stays, but the
    [Arguments] of the subscription have already been replaced, so that the
    next subscribe sends the new ones. *)
Theorem modify_patch_without_delta_throws newArgs s :
  isDisposed s = false →
  ∃ msg s',
    onModify newArgs (Some (mkModifyOptions true None)) s = (Exc msg, s', []) ∧
    get_prop (store s') (subscriptionData s') "Arguments" = newArgs ∧
    same_session s s' ∧
    currentState s' = currentState s ∧
    queue s' = queue s ∧
    referenceId s' = referenceId s.
Proof.
  intros Hd. unfold onModify. rewrite gets_bind, Hd, modify_bind.
  eexists _, _. split; [reflexivity|]. split; [apply get_prop_set_prop|done].
Qed.

(** X18: [onModify] with a patch, on a subscribed subscription (connection
    available, nothing queued), hands one PATCH with the delta to the
    transport and waits in PATCH_REQUESTED; the subscription is back in
    SUBSCRIBED after the response, whether the PATCH succeeded or failed, with
    the same reference id and without another request. *)
Theorem modify_patch_round_trip newArgs (patchArgsDelta : Args) s :
  currentState s = STATE_SUBSCRIBED →
  connectionAvailable s = true →
  networkErrorSubscribingTimer s = false →
  isDisposed s = false →
  queue s = [] →
  let r := onModify newArgs (Some (mkModifyOptions true (Some patchArgsDelta))) s in
  sent (events_of r) =
    [(HttpPatch (servicePath s) (request_url s) (currentStreamingContextId s)
                (referenceId s) (Some patchArgsDelta),
      ModifyPatchHandlers (referenceId s))] ∧
  currentState (state_of r) = STATE_PATCH_REQUESTED ∧
  (∀ handler, handler ∈ [onModifyPatchSuccess; onModifyPatchError] →
     sent (events_of (handler (referenceId s) (state_of r))) = [] ∧
     currentState (state_of (handler (referenceId s) (state_of r))) = STATE_SUBSCRIBED ∧
     referenceId (state_of (handler (referenceId s) (state_of r))) = referenceId s).
Proof.
  intros Hst Hc Htimer Hd Hq r. subst r.
  unfold onModify. rewrite gets_bind, Hd, modify_bind.
  set (s0 := set_store _ s).
  rewrite (tryPerformAction_performs _ _ s0)
    by first [done | subst s0; cbn; by rewrite Hst].
  erewrite performAction_last; [|by apply dispatch_modifyPatch|by left].
  match goal with |- context [state_of (?o, ?x, ?t)] =>
    change (state_of (o, x, t)) with x; change (events_of (o, x, t)) with t end.
  rewrite !sent_app, sent_stateChanged. cbn [onQueueEmpty andb].
  rewrite andb_false_r. split; [done|]. split; [done|].
  intros handler [->|[->|[]%elem_of_nil]%elem_of_cons]%elem_of_cons.
  - unfold onModifyPatchSuccess. rewrite gets_bind, bool_decide_true by done.
    cbn [negb]. erewrite bind_run by apply setState_run.
    rewrite onReadyToPerformNextAction_unfold. cbn. rewrite Hc, Hq. cbn.
    by rewrite app_nil_r, sent_stateChanged.
  - unfold onModifyPatchError. rewrite gets_bind, bool_decide_true by done.
    cbn [negb]. erewrite bind_run by apply setState_run.
    rewrite emit_bind.
    rewrite onReadyToPerformNextAction_unfold. cbn. rewrite Hc, Hq. cbn.
    by rewrite sent_app, sent_stateChanged.
Qed.

(** *** Responses *)

Lemma no_log_stateChanged state (callbacks : list nat) :
  filter (λ e, is_log e = false) ((λ callback, StateChanged callback state) <$> callbacks)
  = (λ callback, StateChanged callback state) <$> callbacks.
Proof.
  induction callbacks as [|c callbacks IH]; [done|].
  rewrite fmap_cons, filter_cons_True by done. by rewrite IH.
Qed.

(** X19: a failed DELETE is treated as a successful one, and a failed PATCH
    as a successful one: the error handler leaves the subscription in the
    same state, returns the same and has the same effects as the success
    handler, log entries apart. *)
Theorem request_errors_are_treated_as_success referenceId0 s :
  (state_of (onUnsubscribeError referenceId0 s) =
     state_of (onUnsubscribeSuccess referenceId0 s) ∧
   outcome_of (onUnsubscribeError referenceId0 s) =
     outcome_of (onUnsubscribeSuccess referenceId0 s) ∧
   filter (λ e, is_log e = false) (events_of (onUnsubscribeError referenceId0 s)) =
     filter (λ e, is_log e = false) (events_of (onUnsubscribeSuccess referenceId0 s))) ∧
  (state_of (onModifyPatchError referenceId0 s) =
     state_of (onModifyPatchSuccess referenceId0 s) ∧
   outcome_of (onModifyPatchError referenceId0 s) =
     outcome_of (onModifyPatchSuccess referenceId0 s) ∧
   filter (λ e, is_log e = false) (events_of (onModifyPatchError referenceId0 s)) =
     filter (λ e, is_log e = false) (events_of (onModifyPatchSuccess referenceId0 s))).
Proof.
  split.
  - unfold onUnsubscribeError, onUnsubscribeSuccess. rewrite !gets_bind.
    destruct (negb _); [done|].
    rewrite !setState_bind, emit_bind.
    destruct (onReadyToPerformNextAction _) as [[o s2] t2].
    unfold state_of, outcome_of, events_of. cbn.
    rewrite !filter_app, filter_cons_False; [done|]. by intros ?.
  - unfold onModifyPatchError, onModifyPatchSuccess. rewrite !gets_bind.
    destruct (negb _); [done|].
    rewrite !setState_bind, emit_bind.
    destruct (onReadyToPerformNextAction _) as [[o s2] t2].
    unfold state_of, outcome_of, events_of. cbn.
    rewrite !filter_app, filter_cons_False; [done|]. by intros ?.
Qed.

Lemma onReadyToPerformNextAction_updates s :
  updates (events_of (onReadyToPerformNextAction s)) = [].
Proof. apply updates_action_events, acting_onReady. Qed.

(** X20: when the subscribe succeeds while an unsubscribe is at the head of
    the queue, nothing is passed to [onUpdate], neither the snapshot nor the
    updates that arrived before the response, and the buffer of those updates
    is dropped. *)
Theorem subscribe_success_while_unsubscribing responseData s :
  SubscriptionQueue.peekAction (queue s) = Some ACTION_UNSUBSCRIBE →
  updates (events_of (onSubscribeSuccess (referenceId s) responseData s)) = [] ∧
  updatesBeforeSubscribed (state_of (onSubscribeSuccess (referenceId s) responseData s))
    = None.
Proof.
  intros Hpeek. unfold onSubscribeSuccess, onActivity.
  rewrite gets_bind, bool_decide_true by done. cbn [negb].
  rewrite setState_bind, modify_bind. unfold inactivity_warning.
  rewrite when_false_bind, modify_bind, gets_bind.
  set (s1 := set_latestActivity _ _).
  match goal with |- context [mbind ?f (when _ _)] => set (rest := f) end.
  assert (∀ t0,
    updates t0 = [] →
    updates (events_of (let '(o, s2, t2) := rest () s1 in (o, s2, t0 ++ t2))) = [] ∧
    updatesBeforeSubscribed
      (state_of (let '(o, s2, t2) := rest () s1 in (o, s2, t0 ++ t2))) = None) as Hrest.
  { intros t0 Ht0. subst rest. cbn beta. rewrite gets_bind.
    change (queue s1) with (queue s). rewrite Hpeek, bool_decide_true by done.
    cbn [negb]. rewrite when_false_bind, modify_bind.
    set (s2 := set_updatesBeforeSubscribed None s1).
    pose proof (onReadyToPerformNextAction_updates s2) as Hu.
    destruct (buffer_kept_onReady s2) as [_ Hb]. specialize (Hb eq_refl).
    destruct (onReadyToPerformNextAction s2) as [[o s3] t3].
    unfold state_of, events_of in *. cbn in *. by rewrite updates_app, Ht0, Hu. }
  destruct (onSubscriptionCreated s1).
  - unfold when. rewrite emit_bind.
    specialize (Hrest ((((λ callback, StateChanged callback STATE_SUBSCRIBED)
                           <$> onStateChangedCallbacks s)) ++ [OnSubscriptionCreated])).
    rewrite updates_app, updates_stateChanged in Hrest. specialize (Hrest eq_refl).
    destruct (rest () s1) as [[o s2] t2].
    unfold state_of, events_of in *. cbn in *. by rewrite <- app_assoc in Hrest.
  - rewrite when_false_bind.
    apply Hrest, updates_stateChanged.
Qed.

(** *** Subscribe errors *)

Lemma tryPerformAction_subscribes s :
  currentState s = STATE_UNSUBSCRIBED →
  connectionAvailable s = true →
  networkErrorSubscribingTimer s = false →
  ∃ s' t' body optionsHeaders,
    tryPerformAction ACTION_SUBSCRIBE None s = (Ret (), s', t') ∧
    sent t' =
      [(HttpPost (servicePath s) (getSubscribeUrl (url s) (subscriptionData s) (store s))
                 body optionsHeaders,
        SubscribeHandlers (Some (pretty (referenceIdCounter s))))] ∧
    Forall (λ e, is_action_event e = true) t' ∧
    same_but_action_fields s s' ∧
    currentState s' = STATE_SUBSCRIBE_REQUESTED ∧
    referenceId s' = Some (pretty (referenceIdCounter s)).
Proof.
  intros Hst Hc Htimer.
  pose proof (performAction_acts (S (length (queue s)))
                (mkItem (Some ACTION_SUBSCRIBE) None) false s) as (_ & Hev & _).
  rewrite tryPerformAction_performs by (done || by rewrite Hst).
  destruct (performAction_subscribe (length (queue s)) None false s Hst)
    as (s' & t' & body & optionsHeaders & Hrun & Hsent & _ & _ & Hsb & Hst' & Href & _).
  rewrite Hrun in Hev |- *. by eexists _, _, _, _.
Qed.

(** X21: a subscribe error for a duplicate key, received for the current
    reference id while no unsubscribe is queued (connection available), cleans
    up and subscribes again at once: exactly two requests go out, the cleanup
    DELETE for the old reference id and then a POST under a new one; neither
    [onError] nor [onNetworkError] is called and no timer is armed. *)
Theorem duplicate_key_error_retries_at_once response s :
  isDupeRequest response = true →
  peek_is_unsubscribe (queue s) = false →
  connectionAvailable s = true →
  networkErrorSubscribingTimer s = false →
  let r := onSubscribeError (referenceId s) response s in
  (∃ url0 body optionsHeaders,
     sent (events_of r) =
       [(HttpDelete (servicePath s) (request_url s)
                    (currentStreamingContextId s) (referenceId s),
         CleanUpHandlers);
        (HttpPost (servicePath s) url0 body optionsHeaders,
         SubscribeHandlers (Some (pretty (referenceIdCounter s))))]) ∧
  Forall (λ e, is_action_event e = true) (events_of r) ∧
  currentState (state_of r) = STATE_SUBSCRIBE_REQUESTED ∧
  referenceId (state_of r) = Some (pretty (referenceIdCounter s)).
Proof.
  intros Hdupe Hwill Hc Htimer r. subst r.
  unfold onSubscribeError, cleanUpLeftOverSubscription.
  rewrite gets_bind, bool_decide_true by done. cbn [negb].
  rewrite gets_bind, setState_bind, Hdupe, Hwill. cbn [negb].
  set (s1 := set_currentState STATE_UNSUBSCRIBED s).
  destruct (tryPerformAction_subscribes s1)
    as (s' & t' & body & optionsHeaders & Hrun & Hsent & Hev & _ & Hst' & Href);
    [done..|].
  unfold mbind, M_bind, emit, get, mret, M_ret, skip. rewrite Hrun.
  unfold state_of, events_of. cbn.
  rewrite !app_nil_r, sent_app, sent_stateChanged. cbn [sent app]. rewrite Hsent.
  split; [by eexists _, _, _|]. split; [|done].
  rewrite Forall_app. split; [apply action_events_stateChanged|].
  by repeat constructor.
Qed.

(** X22: a network error on subscribing (current reference id, nothing
    queued) hands nothing to the transport and calls no [onError]: the
    subscription goes to UNSUBSCRIBED and a retry timer of 5000 ms is armed.
    When the timer fires, one POST goes out under a new reference id; if the
    caller unsubscribes before that, the timer is cancelled and nothing else
    happens. *)
Theorem network_error_retries_after_a_delay response s :
  is_network_error response = true →
  isDupeRequest response = false →
  errorCode response ≠ Some ERROR_UNSUPPORTED_FORMAT →
  connectionAvailable s = true →
  networkErrorSubscribingTimer s = false →
  isDisposed s = false →
  queue s = [] →
  let r := onSubscribeError (referenceId s) response s in
  state_of r =
    set_networkErrorSubscribingTimer true (set_currentState STATE_UNSUBSCRIBED s) ∧
  sent (events_of r) = [] ∧
  SetTimeout 5000 ∈ events_of r ∧
  Forall (λ e, is_onError e = false) (events_of r) ∧
  (∃ url0 body optionsHeaders,
     sent (events_of (onNetworkErrorTimeout (state_of r))) =
       [(HttpPost (servicePath s) url0 body optionsHeaders,
         SubscribeHandlers (Some (pretty (referenceIdCounter s))))]) ∧
  networkErrorSubscribingTimer (state_of (onNetworkErrorTimeout (state_of r))) = false ∧
  (∀ forceUnsubscribe,
     onUnsubscribe forceUnsubscribe (state_of r) =
     (Ret (), set_currentState STATE_UNSUBSCRIBED s, [ClearTimeout])).
Proof.
  intros Hnet Hdupe Hcode Hc Htimer Hd Hq r. subst r.
  assert (onSubscribeError (referenceId s) response s =
          (Ret (),
           set_networkErrorSubscribingTimer true (set_currentState STATE_UNSUBSCRIBED s),
           ((λ callback, StateChanged callback STATE_UNSUBSCRIBED)
              <$> onStateChangedCallbacks s)
           ++ [Log LogDebug "A network error occurred subscribing"; SetTimeout 5000]
           ++ if onNetworkError s then [OnNetworkError] else [])) as ->.
  { unfold onSubscribeError.
    rewrite gets_bind, bool_decide_true by done. cbn [negb].
    rewrite gets_bind, setState_bind, Hdupe, Hq.
    rewrite ret_bind. cbn iota. rewrite get_bind.
    rewrite (bool_decide_false (errorCode response = _)) by done. cbn [andb].
    rewrite ret_bind. cbn iota. rewrite Hnet.
    change (peek_is_unsubscribe []) with false. cbn [andb negb].
    rewrite !emit_bind, modify_bind, gets_bind.
    cbn [onNetworkError set_networkErrorSubscribingTimer set_currentState].
    by destruct (onNetworkError s). }
  match goal with |- context [state_of (?o, ?x, ?t)] =>
    change (state_of (o, x, t)) with x; change (events_of (o, x, t)) with t end.
  set (s1 := set_networkErrorSubscribingTimer true _).
  split; [done|]. split.
  { rewrite !sent_app, sent_stateChanged. by destruct (onNetworkError s). }
  split.
  { apply elem_of_app. right. apply elem_of_app. left. by right; left. }
  split.
  { rewrite !Forall_app. split; [|split].
    - apply Forall_fmap, Forall_true. by intros ?.
    - by repeat constructor.
    - destruct (onNetworkError s); by repeat constructor. }
  unfold onNetworkErrorTimeout. rewrite modify_bind.
  destruct (tryPerformAction_subscribes (set_networkErrorSubscribingTimer false s1))
    as (s' & t' & body & optionsHeaders & Hrun & Hsent & _ & Hsb & _); [done..|].
  rewrite Hrun.
  match goal with |- context [state_of (?o, ?x, ?t)] =>
    change (state_of (o, x, t)) with x; change (events_of (o, x, t)) with t end.
  split; [by eexists _, _, _|]. split.
  { apply same_but_kept in Hsb. by destruct Hsb as (_ & _ & _ & _ & -> & _). }
  intros forceUnsubscribe. rewrite onUnsubscribe_run by done.
  rewrite tryPerformAction_unfold. cbn zeta.
  cbn [networkErrorSubscribingTimer connectionAvailable currentState queue s1
       set_networkErrorSubscribingTimer set_currentState].
  rewrite Hc, Hq. cbn [negb orb length].
  change (is_transitioning STATE_UNSUBSCRIBED) with false. cbn iota.
  rewrite performAction_unfold.
  unfold dispatchAction, performUnsubscribe. cbn [action]. rewrite gets_bind.
  cbn [currentState]. decide_constants. cbn.
  rewrite Hq, andb_false_r. cbn.
  f_equal. f_equal. destruct s; cbn in *; by subst.
Qed.

(** *** Activity *)


(** *** State observers *)

Lemma remove_first_snoc callback (l : list nat) :
  callback ∉ l → remove_first callback (l ++ [callback]) = l.
Proof.
  induction l as [|x l IH]; cbn; intros Hnot.
  - by rewrite bool_decide_true.
  - apply not_elem_of_cons in Hnot as [Hne Hnot].
    rewrite bool_decide_false by done. by rewrite IH.
Qed.

Lemma remove_first_NoDup callback (l : list nat) :
  NoDup l → callback ∉ remove_first callback l.
Proof.
  induction 1 as [|x l Hx Hl IH]; cbn; [by intros ?%elem_of_nil|].
  destruct (bool_decide (x = callback)) eqn:Hc.
  - apply bool_decide_eq_true in Hc as ->. done.
  - apply bool_decide_eq_false in Hc. apply not_elem_of_cons. by split.
Qed.

(** X24: the list of state observers holds an observer once: adding keeps
    the list free of duplicates and adding twice is adding once; removing an
    observer leaves no occurrence of it behind, and removing one that has just
    been added for the first time gives back the subscription as it was. *)
Theorem state_observers_are_registered_once callback s :
  NoDup (onStateChangedCallbacks s) →
  let s1 := state_of (addStateChangedCallback callback s) in
  NoDup (onStateChangedCallbacks s1) ∧
  callback ∈ onStateChangedCallbacks s1 ∧
  state_of (addStateChangedCallback callback s1) = s1 ∧
  (callback ∉ onStateChangedCallbacks (state_of (removeStateChangedCallback callback s1))) ∧
  (callback ∉ onStateChangedCallbacks s →
   state_of (removeStateChangedCallback callback s1) = s).
Proof.
  intros Hnodup s1. subst s1.
  unfold addStateChangedCallback, removeStateChangedCallback, modify, state_of. cbn.
  destruct (bool_decide (callback ∈ onStateChangedCallbacks s)) eqn:Hin.
  - apply bool_decide_eq_true in Hin. rewrite bool_decide_true by done.
    repeat split; [done..| |done].
    cbn. by apply remove_first_NoDup.
  - apply bool_decide_eq_false in Hin. cbn.
    rewrite bool_decide_true by (apply elem_of_app; right; by left).
    split; [|split; [|split; [done|split]]].
    + apply NoDup_app. split; [done|]. split; [|apply NoDup_singleton].
      intros x Hx ->%list_elem_of_singleton. done.
    + apply elem_of_app. right. by left.
    + rewrite remove_first_snoc by done. done.
    + intros _. rewrite remove_first_snoc by done. by destruct s.
Qed.

(** *** Updates that arrive before the subscribe response *)

Lemma processSnapshot_run responseData s :
  processSnapshot responseData s =
  (if onUpdate s then Ret () else Exc type_error_onUpdate,
   set_parser (schema_after responseData s).1
     (set_SchemaName (schema_after responseData s).2 s),
   if onUpdate s
   then [OnUpdate (UpdateSnapshot (Snapshot responseData)) UPDATE_TYPE_SNAPSHOT]
   else []).
Proof.
  unfold schema_after, processSnapshot, state_of.
  destruct (Schema responseData) as [schema|], (resp_SchemaName responseData) as [name|];
    run; cbn;
    repeat (match goal with
            | |- context [if ?c then _ else _] => destruct c eqn:?; cbn
            end);
    by destruct s.
Qed.

Lemma schema_after_indep responseData s s' :
  parser s' = parser s →
  SchemaName s' = SchemaName s →
  store s' = store s →
  subscriptionData s' = subscriptionData s →
  servicePath s' = servicePath s →
  url s' = url s →
  schema_after responseData s' = schema_after responseData s.
Proof.
  intros. destruct s, s'; cbn in *; subst.
  unfold schema_after, processSnapshot, state_of.
  destruct (Schema responseData) as [schema|], (resp_SchemaName responseData) as [name|];
    run; cbn;
    repeat (match goal with
            | |- context [if ?c then _ else _] => destruct c eqn:?; cbn
            end);
    reflexivity.
Qed.

Lemma try_catch_ret {A} (m : M A) (h : string → M A) s a s1 t1 :
  m s = (Ret a, s1, t1) → try_catch m h s = (Ret a, s1, t1).
Proof. intros Hm. unfold try_catch. by rewrite Hm. Qed.

(** In SUBSCRIBE_REQUESTED a message is put at the end of the buffer. *)
Lemma onStreamingData_buffers message s :
  currentState s = STATE_SUBSCRIBE_REQUESTED →
  onStreamingData message s =
  (Ret None,
   set_updatesBeforeSubscribed
     (Some (default [] (updatesBeforeSubscribed s) ++ [message]))
     (set_latestActivity (Some (now s)) s),
   []).
Proof.
  intros Hst. unfold onStreamingData, onActivity.
  rewrite modify_bind, gets_bind. cbn [currentState set_latestActivity].
  rewrite Hst. decide_constants. by rewrite modify_bind.
Qed.

Lemma receive_buffers messages : ∀ s,
  currentState s = STATE_SUBSCRIBE_REQUESTED →
  receive messages s =
  (Ret (),
   match messages with
   | [] => s
   | _ =>
     set_updatesBeforeSubscribed
       (Some (default [] (updatesBeforeSubscribed s) ++ messages))
       (set_latestActivity (Some (now s)) s)
   end,
   []).
Proof.
  induction messages as [|message rest IH]; intros s Hst; [done|].
  cbn [receive].
  erewrite bind_run by by apply onStreamingData_buffers.
  rewrite IH by done. cbn.
  destruct rest as [|message' rest]; [done|].
  destruct s; cbn. by rewrite <- app_assoc.
Qed.

(** In SUBSCRIBED a message that parses is delivered. *)
Lemma onStreamingData_delivers message data s :
  currentState s = STATE_SUBSCRIBED →
  onUpdate s = true →
  parse (parser s) (Data message) (SchemaName s) = Some data →
  onStreamingData message s =
  (Ret None, set_latestActivity (Some (now s)) s,
   [OnUpdate (UpdateMessage (mkMessage (ReferenceId message) data)) UPDATE_TYPE_DELTA]).
Proof.
  intros Hst Hupdate Hparse. unfold onStreamingData, onActivity, processUpdate.
  rewrite modify_bind, gets_bind. cbn [currentState set_latestActivity].
  rewrite Hst. decide_constants. cbn [orb].
  rewrite skip_bind.
  erewrite bind_run; cycle 1.
  { apply try_catch_ret. rewrite get_bind.
    cbn [parser SchemaName onUpdate set_latestActivity].
    rewrite Hparse, Hupdate. reflexivity. }
  reflexivity.
Qed.

(** The replay loop delivers what is left of the buffer, in order. *)
Lemma replayUpdates_delivers (decode : Message → string) fuel : ∀ i s l,
  currentState s = STATE_SUBSCRIBED →
  onUpdate s = true →
  updatesBeforeSubscribed s = Some l →
  Forall (λ message,
    parse (parser s) (Data message) (SchemaName s) = Some (decode message)) l →
  (length l < fuel + i)%nat →
  (i ≤ length l)%nat →
  ∃ s',
    replayUpdates fuel i s =
    (Ret (), s',
     (λ message,
        OnUpdate (UpdateMessage (mkMessage (ReferenceId message) (decode message)))
                 UPDATE_TYPE_DELTA) <$> drop i l) ∧
    (s' = s ∨ s' = set_latestActivity (Some (now s)) s).
Proof.
  induction fuel as [|fuel IH]; intros i s l Hst Hupdate Hb Hparse Hlen Hi; [lia|].
  cbn [replayUpdates]. rewrite gets_bind, Hb.
  destruct (l !! i) as [message|] eqn:Hlookup.
  - rewrite (drop_S _ _ _ Hlookup), fmap_cons.
    pose proof (lookup_lt_Some _ _ _ Hlookup) as Hlt.
    assert (parse (parser s) (Data message) (SchemaName s) = Some (decode message))
      as Hm.
    { rewrite Forall_forall in Hparse. apply Hparse. by eapply list_elem_of_lookup_2. }
    erewrite bind_run by by apply onStreamingData_delivers.
    destruct (IH (S i) (set_latestActivity (Some (now s)) s) l)
      as (s' & -> & Hs'); [done..|lia|lia|].
    eexists. split; [reflexivity|]. right.
    destruct Hs' as [->| ->]; by destruct s.
  - apply lookup_ge_None in Hlookup.
    rewrite drop_ge by done. exists s. split; [done|by left].
Qed.

Lemma updates_delivered (g : Message → Update) (type : Z) (l : list Message) :
  updates ((λ message, OnUpdate (g message) type) <$> l) =
  (λ message, (g message, type)) <$> l.
Proof. induction l as [|message l IH]; [done|]. cbn. by rewrite IH. Qed.

(** X25: updates that arrive before the response to the subscribe are kept
    in the order of arrival, without any effect, and when the subscribe
    succeeds they are passed to [onUpdate] in that order after the snapshot:
    nothing is lost, repeated or reordered. *)
Theorem early_updates_are_replayed_in_order (decode : Message → string)
    (messages : list Message) (responseData : SubscribeResponse) s :
  currentState s = STATE_SUBSCRIBE_REQUESTED →
  updatesBeforeSubscribed s = None →
  onUpdate s = true →
  SubscriptionQueue.peekAction (queue s) ≠ Some ACTION_UNSUBSCRIBE →
  Forall (λ message,
    parse (schema_after responseData s).1 (Data message)
          (schema_after responseData s).2 = Some (decode message)) messages →
  events_of (receive messages s) = [] ∧
  updates (events_of (onSubscribeSuccess (referenceId s) responseData
                        (state_of (receive messages s)))) =
    (UpdateSnapshot (Snapshot responseData), UPDATE_TYPE_SNAPSHOT)
    :: ((λ message,
           (UpdateMessage (mkMessage (ReferenceId message) (decode message)),
            UPDATE_TYPE_DELTA)) <$> messages).
Proof.
  intros Hst Hb Hupdate Hpeek Hparse.
  rewrite receive_buffers by done. split; [done|].
  change (state_of (_, ?x, _)) with x.
  set (s_b := match messages with [] => s | _ => _ end).
  assert (referenceId s_b = referenceId s ∧ queue s_b = queue s ∧
          onUpdate s_b = true ∧ onStateChangedCallbacks s_b = onStateChangedCallbacks s ∧
          updatesBeforeSubscribed s_b = match messages with [] => None | _ => Some messages end ∧
          ∀ s', parser s' = parser s_b → SchemaName s' = SchemaName s_b →
                store s' = store s_b → subscriptionData s' = subscriptionData s_b →
                servicePath s' = servicePath s_b → url s' = url s_b →
                schema_after responseData s' = schema_after responseData s)
    as (Href & Hq & Hupdate_b & Hcb & Hbuf & Hschema).
  { subst s_b. destruct messages; cbn; rewrite ?Hb; repeat split; try done.
    - intros. by apply schema_after_indep.
    - intros. by apply schema_after_indep. }
  clearbody s_b.
  unfold onSubscribeSuccess, onActivity.
  rewrite gets_bind, Href, bool_decide_true by done. cbn [negb].
  rewrite setState_bind, modify_bind. unfold inactivity_warning.
  rewrite when_false_bind, modify_bind, gets_bind.
  set (s1 := set_latestActivity _ _).
  match goal with |- context [mbind ?f (when _ _)] => set (rest := f) end.
  assert (updates (events_of (rest () s1)) =
          (UpdateSnapshot (Snapshot responseData), UPDATE_TYPE_SNAPSHOT)
          :: ((λ message,
                 (UpdateMessage (mkMessage (ReferenceId message) (decode message)),
                  UPDATE_TYPE_DELTA)) <$> messages)) as Hrest.
  { subst rest. cbn beta. rewrite gets_bind.
    change (queue s1) with (queue s_b). rewrite Hq, bool_decide_false by done.
    change (when (negb false) ?m) with m.
    assert (schema_after responseData s1 = schema_after responseData s) as Hsch
      by by apply Hschema.
    assert (∃ s_r,
      (try_catch (processSnapshot responseData)
         (λ _, emit (Log LogError
            "Exception occurred in streaming snapshot update callback"));;
       updates ← gets updatesBeforeSubscribed;
       match updates with
       | Some l => replayUpdates (S (length l)) 0
       | None => skip
       end) s1 =
      (Ret (), s_r,
       OnUpdate (UpdateSnapshot (Snapshot responseData)) UPDATE_TYPE_SNAPSHOT
       :: ((λ message,
              OnUpdate (UpdateMessage (mkMessage (ReferenceId message) (decode message)))
                       UPDATE_TYPE_DELTA) <$> messages))) as [s_r Hblock].
    { erewrite bind_run; cycle 1.
      { apply try_catch_ret. rewrite processSnapshot_run, Hsch.
        change (onUpdate s1) with (onUpdate s_b). rewrite Hupdate_b. reflexivity. }
      rewrite gets_bind.
      cbn [updatesBeforeSubscribed set_parser set_SchemaName s1 set_latestActivity
           set_inactivityTimeout set_currentState].
      rewrite Hbuf. destruct messages as [|message messages'] eqn:Hm.
      - eexists. reflexivity.
      - rewrite <- Hm in *.
        edestruct (replayUpdates_delivers decode (S (length messages)) 0) as (s' & -> & _);
          [..|eexists; reflexivity]; [done|done|exact Hbuf|exact Hparse|lia|lia]. }
    erewrite bind_run_updates by exact Hblock.
    rewrite modify_bind, onReadyToPerformNextAction_updates, app_nil_r.
    cbn [updates]. f_equal. apply updates_delivered. }
  destruct (onSubscriptionCreated s1).
  - unfold when. rewrite emit_bind.
    destruct (rest () s1) as [[o s2] t2].
    unfold events_of in *. cbn in *. by rewrite updates_app, updates_stateChanged.
  - rewrite when_false_bind.
    destruct (rest () s1) as [[o s2] t2].
    unfold events_of in *. cbn in *. by rewrite updates_app, updates_stateChanged.
Qed.

(** *** A patch behind a subscribe *)

Lemma clearPatches_patches patches :
  Forall (λ it, action it = Some ACTION_MODIFY_PATCH) patches →
  SubscriptionQueue.clearPatches patches = [].
Proof.
  unfold SubscriptionQueue.clearPatches.
  induction 1 as [|it rest Hit _ IH]; cbn; [done|].
  unfold SubscriptionQueue.keeps. rewrite Hit. by decide_constants.
Qed.

Lemma dequeue_before_patches it patches :
  Forall (λ it, action it = Some ACTION_MODIFY_PATCH) patches →
  SubscriptionQueue.dequeue (it :: patches) = (Some it, patches).
Proof.
  intros Hp. cbn. destruct patches as [|p patches]; [done|]. cbn [SubscriptionQueue.isEmpty].
  rewrite last_unsubscribe_none; [done|].
  eapply Forall_impl; [exact Hp|]. intros x Hx.
  unfold SubscriptionQueue.is_unsubscribe. rewrite Hx. by decide_constants.
Qed.

(** The subscribe that was waiting goes out when the DELETE is answered, and
    takes the patches queued behind it along. *)
Lemma subscribe_after_unsubscribe_drops_patches patches s :
  currentState s = STATE_UNSUBSCRIBE_REQUESTED →
  connectionAvailable s = true →
  queue s = mkItem (Some ACTION_SUBSCRIBE) None :: patches →
  Forall (λ it, action it = Some ACTION_MODIFY_PATCH) patches →
  let r := onUnsubscribeSuccess (referenceId s) s in
  ∃ body optionsHeaders,
    sent (events_of r) =
      [(HttpPost (servicePath s) (getSubscribeUrl (url s) (subscriptionData s) (store s))
                 body optionsHeaders,
        SubscribeHandlers (Some (pretty (referenceIdCounter s))))] ∧
    (∀ o, store s !! subscriptionData s = Some o →
       body = delete "Top"
                ({[ "ContextId" := VStr (streamingContextId s);
                    "ReferenceId" := VStr (pretty (referenceIdCounter s));
                    "KnownSchemas" := VArr (getSchemaNames (parser s)) ]} ∪ o)) ∧
    currentState (state_of r) = STATE_SUBSCRIBE_REQUESTED ∧
    referenceId (state_of r) = Some (pretty (referenceIdCounter s)) ∧
    queue (state_of r) = [].
Proof.
  intros Hst Hc Hq Hpatches r. subst r.
  unfold onUnsubscribeSuccess. rewrite gets_bind.
  rewrite bool_decide_true by done. cbn [negb].
  rewrite setState_bind.
  erewrite onReady_performs;
    [|done|cbn; rewrite Hq; by apply dequeue_before_patches|cbn; by rewrite Hq].
  destruct (performAction_subscribe (length patches) None
              (SubscriptionQueue.isEmpty patches)
              (set_queue patches (set_currentState STATE_UNSUBSCRIBED s)) eq_refl)
    as (s' & t' & body & optionsHeaders & -> & Hsent & Hbody & _ & _ & Hst' & Href & _ & _ & Hq').
  exists body, optionsHeaders.
  unfold state_of, events_of. cbn in *.
  rewrite sent_app, sent_stateChanged, Hsent, Hq', clearPatches_patches by done.
  done.
Qed.

(** X26: a patch requested while a subscribe is waiting for the answer to a
    DELETE is never sent: it is queued behind the subscribe, and when the
    DELETE is answered the one request that goes out is the POST, whose body
    carries the new [Arguments], and the queue is empty afterwards. *)
Theorem patch_behind_a_subscribe_travels_in_the_post newArgs (patchArgsDelta : Args) s o :
  currentState s = STATE_UNSUBSCRIBE_REQUESTED →
  connectionAvailable s = true →
  networkErrorSubscribingTimer s = false →
  isDisposed s = false →
  queue s = [mkItem (Some ACTION_SUBSCRIBE) None] →
  store s !! subscriptionData s = Some o →
  let r := onModify newArgs (Some (mkModifyOptions true (Some patchArgsDelta))) s in
  events_of r = [] ∧
  queue (state_of r) =
    [mkItem (Some ACTION_SUBSCRIBE) None;
     mkItem (Some ACTION_MODIFY_PATCH) (Some patchArgsDelta)] ∧
  ∃ url0 body optionsHeaders,
    sent (events_of (onUnsubscribeSuccess (referenceId s) (state_of r))) =
      [(HttpPost (servicePath s) url0 body optionsHeaders,
        SubscribeHandlers (Some (pretty (referenceIdCounter s))))] ∧
    body !! "Arguments" = Some newArgs ∧
    queue (state_of (onUnsubscribeSuccess (referenceId s) (state_of r))) = [].
Proof.
  intros Hst Hc Htimer Hd Hq Ho r. subst r.
  unfold onModify. rewrite gets_bind, Hd, modify_bind.
  set (s0 := set_store _ s).
  rewrite (tryPerformAction_enqueues _ _ s0)
    by (subst s0; cbn; rewrite Hst; apply orb_true_r).
  cbn zeta. change (networkErrorSubscribingTimer s0) with (networkErrorSubscribingTimer s).
  change (queue s0) with (queue s). rewrite Htimer, Hq.
  change (SubscriptionQueue.enqueue _ _) with
    (Normal, [mkItem (Some ACTION_SUBSCRIBE) None;
              mkItem (Some ACTION_MODIFY_PATCH) (Some patchArgsDelta)]).
  cbn iota.
  match goal with |- context [state_of (?o, ?x, ?t)] =>
    change (state_of (o, x, t)) with x; change (events_of (o, x, t)) with t end.
  split; [done|]. split; [done|].
  set (s1 := set_queue _ s0).
  destruct (subscribe_after_unsubscribe_drops_patches
              [mkItem (Some ACTION_MODIFY_PATCH) (Some patchArgsDelta)] s1)
    as (body & optionsHeaders & Hsent & Hbody & _ & _ & Hq'); [done..| |].
  { by repeat constructor. }
  eexists _, body, optionsHeaders. split; [exact Hsent|]. split; [|exact Hq'].
  rewrite (Hbody _ (lookup_set_prop _ _ _ _)).
  rewrite lookup_delete_ne by done.
  rewrite lookup_union_r by done.
  apply lookup_insert_eq.
Qed.

(** *** The queue across a history *)

Lemma tidy_suffix (items rest : SubscriptionQueue.t) :
  rest `suffix_of` items → tidy items = true → tidy rest = true.
Proof.
  intros [k ->]. induction k as [|a k IH]; [done|].
  cbn [app]. intros Ht. apply IH.
  destruct (k ++ rest) as [|b l]; [done|].
  cbn [tidy] in Ht. by apply andb_true_iff in Ht as [_ Ht].
Qed.

(** [clearPatches] leaves at most one item, and it is one of the queue. *)
Lemma clearPatches_one items :
  SubscriptionQueue.clearPatches items = []
  ∨ ∃ it, it ∈ items ∧ SubscriptionQueue.clearPatches items = [it].
Proof.
  unfold SubscriptionQueue.clearPatches.
  induction items as [|it rest IH]; [by left|]. cbn.
  destruct (SubscriptionQueue.keeps it).
  - right. exists it. split; [by left|]. by rewrite clearPatches_loop_reached.
  - destruct IH as [->|(x & Hx & ->)]; [by left|].
    right. exists x. split; [by right|done].
Qed.

Lemma last_unsubscribe_suffix items found after :
  SubscriptionQueue.last_unsubscribe items = Some (found, after) →
  found :: after `suffix_of` items.
Proof.
  revert found after. induction items as [|it rest IH]; intros found after; cbn; [done|].
  destruct (SubscriptionQueue.last_unsubscribe rest) as [[u' after']|] eqn:E.
  - intros [= -> ->]. apply suffix_cons_r. by apply IH.
  - destruct (SubscriptionQueue.is_unsubscribe it); [|done]. by intros [= <- <-].
Qed.

(** [dequeue] returns an item of the queue and leaves a final part of it. *)
Lemma dequeue_suffix it rest :
  ∃ item left,
    SubscriptionQueue.dequeue (it :: rest) = (Some item, left) ∧
    left `suffix_of` rest ∧ item ∈ it :: rest.
Proof.
  unfold SubscriptionQueue.dequeue.
  destruct rest as [|it' rest']; cbn [SubscriptionQueue.isEmpty].
  { exists it, []. split; [done|]. split; [done|by left]. }
  destruct (SubscriptionQueue.last_unsubscribe (it' :: rest')) as [[found after]|] eqn:E.
  - apply last_unsubscribe_suffix in E. exists found, after. split; [done|].
    split.
    + destruct E as [k ->]. by exists (k ++ [found]); rewrite <- app_assoc.
    + right. destruct E as [k ->]. apply elem_of_app. right. by left.
  - exists it, (it' :: rest'). split; [done|]. split; [done|by left].
Qed.

Lemma queue_ok_same s s' : queue s' = queue s → queue_ok s → queue_ok s'.
Proof. unfold queue_ok. by intros ->. Qed.

Lemma queue_ok_suffix s items :
  items `suffix_of` queue s → queue_ok s → queue_ok (set_queue items s).
Proof.
  intros Hsuf [Hwf Htidy]. split; cbn.
  - destruct Hsuf as [k Hk]. rewrite Hk in Hwf. by apply Forall_app in Hwf as [_ ?].
  - by eapply tidy_suffix.
Qed.

Lemma queue_ok_clearPatches s :
  queue_ok s → queue_ok (set_queue (SubscriptionQueue.clearPatches (queue s)) s).
Proof.
  intros [Hwf _]. split; cbn.
  - destruct (clearPatches_one (queue s)) as [->|(it & Hit & ->)]; [constructor|].
    constructor; [|constructor]. by eapply Forall_forall in Hwf.
  - by destruct (clearPatches_one (queue s)) as [->|(it & Hit & ->)].
Qed.

Lemma queue_ok_enqueue s queuedItem :
  well_formed queuedItem → queue_ok s →
  ∃ items, SubscriptionQueue.enqueue (queue s) queuedItem = (Normal, items) ∧
           queue_ok (set_queue items s).
Proof.
  intros Hq [Hwf Htidy]. unfold SubscriptionQueue.enqueue.
  destruct (enqueue_rev_well_formed (reverse (queue s)) queuedItem) as (r & Hr & Hr');
    [by apply Forall_reverse|done|].
  rewrite Hr. eexists. split; [done|]. split; cbn.
  - by apply Forall_reverse.
  - eapply enqueue_rev_tidy; [|exact Hr]. by rewrite reverse_involutive.
Qed.

(** An item with an action is performed without a throw. *)
Lemma dispatchAction_returns queuedItem s :
  is_Some (action queuedItem) →
  outcome_of (dispatchAction queuedItem s) = Ret () ∧
  (queue_ok s → queue_ok (state_of (dispatchAction queuedItem s))).
Proof.
  intros [act Hact]. unfold dispatchAction. rewrite Hact.
  destruct act.
  - unfold performSubscribe. rewrite gets_bind.
    destruct (bool_decide (currentState s = STATE_SUBSCRIBED)); [done|].
    destruct (bool_decide (currentState s = STATE_UNSUBSCRIBED)); [|done].
    rewrite modify_bind, subscribe_run. cbn zeta.
    destruct (build_post _ _) as [[data optionsHeaders] st].
    split; [done|]. intros Hok. apply queue_ok_clearPatches in Hok.
    revert Hok. by apply queue_ok_same.
  - unfold performUnsubscribe, unsubscribe. rewrite gets_bind.
    destruct (bool_decide (currentState s = STATE_SUBSCRIBED)).
    { rewrite setState_bind, get_bind. by split. }
    by destruct (bool_decide (currentState s = STATE_UNSUBSCRIBED)).
  - unfold performModifyPatch, modifyPatch. rewrite gets_bind.
    destruct (bool_decide (currentState s = STATE_SUBSCRIBED)); [|done].
    rewrite setState_bind, get_bind. by split.
  - unfold performUnsubscribeByTagPending, unsubscribeByTagPending. rewrite gets_bind.
    destruct (_ || _); [|done]. rewrite setState_run. by split.
Qed.

(** With the queue in order [performAction] performs the item and those it
    takes from the queue, and returns. *)
Lemma performAction_returns fuel : ∀ queuedItem isLastQueuedAction s,
  is_Some (action queuedItem) → queue_ok s → (length (queue s) < fuel)%nat →
  outcome_of (performAction fuel queuedItem isLastQueuedAction s) = Ret () ∧
  queue_ok (state_of (performAction fuel queuedItem isLastQueuedAction s)).
Proof.
  induction fuel as [|fuel IH]; intros queuedItem isLast s Hact Hok Hfuel; [lia|].
  rewrite performAction_unfold.
  destruct (dispatchAction_returns queuedItem s Hact) as [Ho Hok1].
  specialize (Hok1 Hok).
  pose proof (dispatchAction_settles queuedItem s) as (_ & _ & Hlen & _).
  destruct (dispatchAction queuedItem s) as [[o s1] t1].
  unfold outcome_of, state_of in Ho, Hok1, Hlen. cbn in Ho, Hok1, Hlen. subst o.
  cbn zeta.
  destruct (negb (SubscriptionQueue.isEmpty (queue s1))
            && negb (is_transitioning (currentState s1))) eqn:Hcont; [|done].
  destruct (queue s1) as [|it rest] eqn:Hq; [done|].
  destruct (dequeue_suffix it rest) as (item & left & -> & Hsuf & Hin).
  assert (queue_ok (set_queue left s1)) as Hok2.
  { apply queue_ok_suffix; [|done]. rewrite Hq. by apply suffix_cons_r. }
  assert (is_Some (action item)) as Hitem.
  { destruct Hok1 as [Hwf _]. rewrite Hq in Hwf.
    by eapply Forall_forall in Hwf as [? _]. }
  assert (length (queue (set_queue left s1)) < fuel)%nat as Hfuel'.
  { apply suffix_length in Hsuf. cbn in Hlen |- *. lia. }
  destruct (IH item (SubscriptionQueue.isEmpty left) _ Hitem Hok2 Hfuel') as [Ho3 Hok3].
  by destruct (performAction fuel item _ _) as [[o3 s3] t3].
Qed.

Lemma tryPerformAction_returns action args s :
  well_formed (mkItem (Some action) args) → queue_ok s →
  outcome_of (tryPerformAction action args s) = Ret () ∧
  queue_ok (state_of (tryPerformAction action args s)).
Proof.
  intros Hwf Hok. rewrite tryPerformAction_unfold. cbn zeta.
  set (s0 := if networkErrorSubscribingTimer s
             then set_networkErrorSubscribingTimer false s else s).
  assert (queue s0 = queue s) as Hq0 by (unfold s0; by destruct (networkErrorSubscribingTimer s)).
  assert (queue_ok s0) as Hok0 by (by apply (queue_ok_same s)).
  destruct (negb (connectionAvailable s) || is_transitioning (currentState s)).
  - destruct (queue_ok_enqueue s _ Hwf Hok) as (items & -> & Hitems). by split.
  - destruct (performAction_returns (S (length (queue s))) (mkItem (Some action) args)
                false s0) as [Ho Hok2]; [by eexists|done|rewrite Hq0; lia|].
    by destruct (performAction _ _ _ s0) as [[o s2] t2].
Qed.

Lemma onReadyToPerformNextAction_returns s :
  queue_ok s →
  outcome_of (onReadyToPerformNextAction s) = Ret () ∧
  queue_ok (state_of (onReadyToPerformNextAction s)).
Proof.
  intros Hok. rewrite onReadyToPerformNextAction_unfold.
  destruct (negb (connectionAvailable s) || SubscriptionQueue.isEmpty (queue s)) eqn:Hc;
    [done|].
  destruct (queue s) as [|it rest] eqn:Hq.
  { cbn in Hc. by rewrite orb_true_r in Hc. }
  destruct (dequeue_suffix it rest) as (item & left & -> & Hsuf & Hin).
  apply performAction_returns.
  - destruct Hok as [Hwf _]. rewrite Hq in Hwf.
    by eapply Forall_forall in Hwf as [? _].
  - apply queue_ok_suffix; [|done]. rewrite Hq. by apply suffix_cons_r.
  - cbn. lia.
Qed.






(** *** Computations that return *)

Lemma completes_ret {A} P (a : A) : completes P (mret a) P.
Proof. intros s Hs. split; [by exists a|done]. Qed.

Lemma completes_bind {A B} P Q R (m : M A) (f : A → M B) :
  completes P m Q → (∀ a, completes Q (f a) R) → completes P (m ≫= f) R.
Proof.
  intros Hm Hf s Hs. destruct (Hm s Hs) as [[a Ha] Hq].
  unfold mbind, M_bind, outcome_of, state_of in *.
  destruct (m s) as [[o s1] t1]; cbn in *. subst o.
  destruct (Hf a s1 Hq) as [[b Hb] Hr].
  unfold outcome_of, state_of in *.
  destruct (f a s1) as [[o2 s2] t2]; cbn in *. split; [by exists b|done].
Qed.

Lemma completes_weaken {A} (P P' Q Q' : Subscription → Prop) (m : M A) :
  (∀ s, P' s → P s) → (∀ s, Q s → Q' s) → completes P m Q → completes P' m Q'.
Proof. intros HP HQ Hm s Hs. destruct (Hm s (HP s Hs)) as [Ho Hq]. auto. Qed.

Lemma completes_get P : completes P get P.
Proof. intros s Hs. split; [by exists s|done]. Qed.

Lemma completes_gets {A} P (f : Subscription → A) : completes P (gets f) P.
Proof. intros s Hs. split; [by exists (f s)|done]. Qed.

Lemma completes_skip P : completes P skip P.
Proof. apply completes_ret. Qed.

Lemma completes_modify P Q f : (∀ s, P s → Q (f s)) → completes P (modify f) Q.
Proof. intros Hf s Hs. split; [by exists ()|by apply Hf]. Qed.

Lemma completes_emit P e : completes P (emit e) P.
Proof. intros s Hs. split; [by exists ()|done]. Qed.

Lemma completes_when P (c : bool) m : completes P m P → completes P (when c m) P.
Proof. destruct c; [done|]. intros _. apply completes_ret. Qed.

Lemma completes_setState P Q state :
  (∀ s, P s → Q (set_currentState state s)) → completes P (setState state) Q.
Proof. intros Hf s Hs. rewrite setState_run. split; [by exists ()|by apply Hf]. Qed.


(** Breaks a method body down to its calls, for an invariant: [block] closes
    a part that is not to be broken down, [leaf] a call or a step. *)
Ltac finish_with block leaf :=
  repeat first
  [ solve [block]
  | match goal with
    | |- completes ?I (mbind _ _) ?I => apply (completes_bind I I I); [|intros ?]
    | |- completes _ (mret _) _ => apply completes_ret
    | |- completes _ skip _ => apply completes_skip
    | |- completes _ get _ => apply completes_get
    | |- completes _ (gets _) _ => apply completes_gets
    | |- completes _ (emit _) _ => apply completes_emit
    | |- completes _ (when _ _) _ => apply completes_when
    | |- completes _ (modify _) _ => apply completes_modify; solve [leaf]
    | |- completes _ (setState _) _ => apply completes_setState; solve [leaf]
    | |- completes _ (match ?x with _ => _ end) _ => destruct x
    | |- completes _ _ _ => solve [leaf]
    end ].

Ltac finish leaf := finish_with ltac:(fail) leaf.

Lemma tryPerformAction_completes action args :
  well_formed (mkItem (Some action) args) →
  completes queue_ok (tryPerformAction action args) queue_ok.
Proof.
  intros Hwf s Hok. destruct (tryPerformAction_returns action args s Hwf Hok) as [Ho Hq].
  split; [by exists ()|done].
Qed.

Lemma onReadyToPerformNextAction_completes :
  completes queue_ok onReadyToPerformNextAction queue_ok.
Proof.
  intros s Hok. destruct (onReadyToPerformNextAction_returns s Hok) as [Ho Hq].
  split; [by exists ()|done].
Qed.

(** The items that the methods queue are well formed. *)
Ltac queued_item :=
  split; [by eexists | intros ?; first [discriminate | by eexists]].

(** A step that leaves the queue alone. *)
Ltac queue_untouched :=
  let s := fresh "s" in let Hs := fresh "Hs" in
  intros s Hs; apply (queue_ok_same s); [|exact Hs];
  first [reflexivity | by case_bool_decide].

Ltac completes_leaf :=
  first
    [ apply tryPerformAction_completes; queued_item
    | exact onReadyToPerformNextAction_completes
    | queue_untouched ].

Lemma onUnsubscribe_completes forceUnsubscribe :
  completes queue_ok (onUnsubscribe forceUnsubscribe) queue_ok.
Proof. unfold onUnsubscribe. finish completes_leaf. Qed.

(** *** No subscribe from a steady state *)













(** *** The handlers return *)











(** A forced unsubscribe followed by a subscribe, as [onModify] and [reset]
    do it: the unsubscribe returns and leaves [isDisposed] alone, so that the
    subscribe throws on a disposed subscription, after the unsubscribe was
    performed or queued. *)
Lemma resubscribe_outcome s :
  queue_ok s →
  outcome_of ((onUnsubscribe true;; onSubscribe) s) =
    (if isDisposed s
     then Exc "Subscribing a disposed subscription - you will not get data"
     else Ret ()) ∧
  (isDisposed s = true →
   state_of ((onUnsubscribe true;; onSubscribe) s) = state_of (onUnsubscribe true s)).
Proof.
  intros Hok.
  destruct (onUnsubscribe_completes true s Hok) as [[[] Ho] Hok1].
  pose proof (acting_enter (EnterCall (CallUnsubscribe true)) eq_refl s) as [(Hd & _) _].
  cbn [enter call] in Hd.
  unfold mbind, M_bind.
  destruct (onUnsubscribe true s) as [[o s1] t1].
  unfold outcome_of, state_of in Ho, Hok1, Hd. cbn in Ho, Hok1, Hd. subst o.
  unfold onSubscribe. rewrite gets_bind, Hd.
  destruct (isDisposed s); [by split|].
  destruct (tryPerformAction_returns ACTION_SUBSCRIBE None s1) as [Ho2 _];
    [queued_item|done|].
  unfold outcome_of in *.
  destruct (tryPerformAction ACTION_SUBSCRIBE None s1) as [[o2 s2] t2]; cbn in *.
  by split.
Qed.

(** X29: with the queue in order, the requests of the caller throw in three
    cases and in no other: [onSubscribe] and [onModify] on a disposed
    subscription, and [onModify] for a patch without [patchArgsDelta].
    [onUnsubscribe] and [onUnsubscribeByTagPending] never throw. *)
Theorem calls_throw_only_when_refused c s :
  queue_ok s →
  outcome_of (call c s) =
    match c with
    | CallSubscribe =>
      if isDisposed s
      then Exc "Subscribing a disposed subscription - you will not get data"
      else Ret ()
    | CallModify _ options =>
      if isDisposed s
      then Exc "Modifying a disposed subscription - you will not get data"
      else match options with
           | Some (mkModifyOptions true None) =>
             Exc "Modify options patchArgsDelta is not defined"
           | _ => Ret ()
           end
    | _ => Ret ()
    end.
Proof.
  intros Hok. destruct c as [|forceUnsubscribe|newArgs options|]; cbn [call].
  - unfold onSubscribe. rewrite gets_bind. destruct (isDisposed s); [done|].
    apply tryPerformAction_returns; [queued_item|done].
  - by destruct (onUnsubscribe_completes forceUnsubscribe s Hok) as [[[] Ho] _].
  - unfold onModify. rewrite gets_bind. destruct (isDisposed s) eqn:Hd; [done|].
    rewrite modify_bind.
    set (s1 := set_store _ s).
    assert (queue_ok s1) as Hok1 by (by apply (queue_ok_same s)).
    assert (isDisposed s1 = false) as Hd1 by done.
    assert (outcome_of ((onUnsubscribe true;; onSubscribe) s1) = Ret ()) as Hre.
    { destruct (resubscribe_outcome s1 Hok1) as [Ho _]. by rewrite Hd1 in Ho. }
    destruct options as [[[] [patchArgsDelta|]]|]; [|done|exact Hre..].
    apply tryPerformAction_returns; [queued_item|done].
  - apply tryPerformAction_returns; [queued_item|done].
Qed.

(** X30: with the queue in order, [reset] throws only on a disposed
    subscription that it would resubscribe (one in PATCH_REQUESTED, or in
    SUBSCRIBE_REQUESTED or SUBSCRIBED with no unsubscribe next in the queue):
    then the forced unsubscribe has been performed or queued, the subscribe
    that should follow is refused, and the subscription is left as the
    unsubscribe alone leaves it. *)
Theorem reset_throws_on_a_disposed_subscription s :
  queue_ok s →
  let resubscribes :=
    bool_decide (currentState s = STATE_PATCH_REQUESTED)
    || (bool_decide (currentState s = STATE_SUBSCRIBE_REQUESTED)
        || bool_decide (currentState s = STATE_SUBSCRIBED))
       && negb (peek_is_unsubscribe (queue s)) in
  outcome_of (reset s) =
    (if isDisposed s && resubscribes
     then Exc "Subscribing a disposed subscription - you will not get data"
     else Ret ()) ∧
  (isDisposed s && resubscribes = true →
   state_of (reset s) =
   state_of (onUnsubscribe true
               (if bool_decide (currentState s = STATE_PATCH_REQUESTED)
                then set_currentState STATE_SUBSCRIBED s else s))).
Proof.
  intros Hok. cbn zeta. unfold reset. rewrite gets_bind.
  destruct (bool_decide (currentState s = STATE_UNSUBSCRIBED)) eqn:E1.
  { apply bool_decide_eq_true in E1. rewrite E1. decide_constants.
    cbn. rewrite andb_false_r. by split. }
  destruct (bool_decide (currentState s = STATE_UNSUBSCRIBE_REQUESTED)) eqn:E2.
  { apply bool_decide_eq_true in E2. rewrite E2. decide_constants.
    cbn. rewrite andb_false_r. by split. }
  cbn [orb].
  destruct (bool_decide (currentState s = STATE_SUBSCRIBE_REQUESTED)
            || bool_decide (currentState s = STATE_SUBSCRIBED)) eqn:E3.
  - assert (bool_decide (currentState s = STATE_PATCH_REQUESTED) = false) as ->.
    { apply bool_decide_eq_false. intros E.
      rewrite E in E3. revert E3. by decide_constants. }
    rewrite gets_bind. cbn [orb andb].
    destruct (peek_is_unsubscribe (queue s)).
    { cbn. rewrite andb_false_r. by split. }
    cbn [negb]. rewrite andb_true_r.
    destruct (resubscribe_outcome s Hok) as [Ho Hs]. split; [exact Ho|].
    intros Hd. by apply Hs.
  - cbn [andb orb]. rewrite orb_false_r.
    destruct (bool_decide (currentState s = STATE_PATCH_REQUESTED)) eqn:E4.
    + rewrite andb_true_r, setState_bind.
      set (s1 := set_currentState STATE_SUBSCRIBED s).
      assert (queue_ok s1) as Hok1 by (by apply (queue_ok_same s)).
      destruct (resubscribe_outcome s1 Hok1) as [Ho Hs].
      change (isDisposed s1) with (isDisposed s) in Ho, Hs.
      unfold outcome_of, state_of in *.
      destruct ((onUnsubscribe true;; onSubscribe) s1) as [[o2 s2] t2]; cbn in *.
      split; [exact Ho|exact Hs].
    + rewrite andb_false_r.
      destruct (bool_decide (currentState s = STATE_READY_FOR_UNSUBSCRIBE_BY_TAG));
        by split.
Qed.

End Scenarios.

(** ** More runs in the concrete world *)

Section MoreRuns.

#[local] Existing Instance SchemaList.

Lemma calls_wait_for_the_response_witness :
  requests (calls [CallUnsubscribe false; CallModify (VStr "a") None; CallSubscribe]
              (requested FORMAT_JSON)).2 = 0%nat.
Proof.
  apply (calls_wait_for_the_response _ (requested FORMAT_JSON)).
  vm_compute; reflexivity.
Defined.

Lemma acting_entries_only_act_witness :
  Forall (λ e, is_action_event e = true)
    (enters [EnterCall CallSubscribe; EnterReset; EnterUnsubscribeSuccess (Some "1")]
       (new_subscription FORMAT_JSON)).2.
Proof.
  apply acting_entries_only_act. repeat constructor.
Defined.

Lemma no_request_while_connection_unavailable_witness :
  requests (enters [EnterReset; EnterCall CallSubscribe; EnterHeartbeat;
                    EnterSubscribeError (Some "1") unsupported_format_error]
              disconnected).2 = 0%nat.
Proof.
  apply no_request_while_connection_unavailable.
  - vm_compute; reflexivity.
  - repeat constructor.
Defined.

Lemma observer_is_told_every_state_witness :
  7%nat ∈ onStateChangedCallbacks
    (enters [EnterCall CallSubscribe;
             EnterSubscribeSuccess (Some "1") snapshot_response;
             EnterRemoveStateChangedCallback 8; EnterReset]
       (new_subscription FORMAT_JSON)).1.
Proof.
  apply (observer_is_told_every_state 7).
  - by left.
  - repeat constructor.
Defined.

Lemma unparseable_update_is_not_delivered_witness :
  updates (events_of (onStreamingData (mkMessage "1" "") (subscribed FORMAT_JSON))) = [].
Proof.
  apply unparseable_update_is_not_delivered. vm_compute; reflexivity.
Defined.

Lemma reset_resubscribes_under_a_new_id_witness :
  currentState (state_of (reset (subscribed FORMAT_JSON))) = STATE_UNSUBSCRIBE_REQUESTED.
Proof.
  apply (reset_resubscribes_under_a_new_id (subscribed FORMAT_JSON));
    vm_compute; reflexivity.
Defined.

Lemma modify_replaces_the_subscription_witness :
  length (sent (events_of (onModify (VStr "new") None (subscribed FORMAT_JSON)))) = 1%nat.
Proof.
  rewrite (proj1 (modify_replaces_the_subscription (VStr "new") (subscribed FORMAT_JSON)
                    (obj_at (store (subscribed FORMAT_JSON))
                            (subscriptionData (subscribed FORMAT_JSON)))
                    ltac:(vm_compute; reflexivity) ltac:(vm_compute; reflexivity)
                    ltac:(vm_compute; reflexivity) ltac:(vm_compute; reflexivity)
                    ltac:(vm_compute; reflexivity) ltac:(vm_compute; reflexivity))).
  reflexivity.
Defined.

Lemma modify_patch_without_delta_throws_witness :
  ∃ msg s',
    onModify (VStr "new") (Some (mkModifyOptions true None)) (subscribed FORMAT_JSON)
    = (Exc msg, s', []).
Proof.
  destruct (modify_patch_without_delta_throws (VStr "new") (subscribed FORMAT_JSON)
              ltac:(vm_compute; reflexivity)) as (msg & s' & Hrun & _).
  by exists msg, s'.
Defined.

Lemma modify_patch_round_trip_witness :
  currentState
    (state_of (onModify (VStr "new")
                 (Some (mkModifyOptions true (Some (mkArgs None (Some "delta")))))
                 (subscribed FORMAT_JSON)))
  = STATE_PATCH_REQUESTED.
Proof.
  apply (modify_patch_round_trip (VStr "new") (mkArgs None (Some "delta"))
           (subscribed FORMAT_JSON));
    vm_compute; reflexivity.
Defined.

Lemma subscribe_success_while_unsubscribing_witness :
  updates (events_of (onSubscribeSuccess (referenceId unsubscribing) snapshot_response
                        unsubscribing)) = [].
Proof.
  apply subscribe_success_while_unsubscribing. vm_compute; reflexivity.
Defined.

Lemma duplicate_key_error_retries_at_once_witness :
  currentState
    (state_of (onSubscribeError (referenceId (requested FORMAT_JSON)) duplicate_key_error
                 (requested FORMAT_JSON)))
  = STATE_SUBSCRIBE_REQUESTED.
Proof.
  apply (duplicate_key_error_retries_at_once duplicate_key_error (requested FORMAT_JSON));
    vm_compute; reflexivity.
Defined.

Lemma network_error_retries_after_a_delay_witness :
  sent (events_of (onSubscribeError (referenceId (requested FORMAT_JSON)) network_error
                     (requested FORMAT_JSON))) = [].
Proof.
  apply (network_error_retries_after_a_delay network_error (requested FORMAT_JSON));
    first [vm_compute; reflexivity | vm_compute; discriminate].
Defined.


Lemma state_observers_are_registered_once_witness :
  8%nat ∈ onStateChangedCallbacks
    (state_of (addStateChangedCallback 8 (new_subscription FORMAT_JSON))).
Proof.
  apply (state_observers_are_registered_once 8 (new_subscription FORMAT_JSON)).
  apply NoDup_singleton.
Defined.

Lemma early_updates_are_replayed_in_order_witness :
  events_of (receive [mkMessage "1" "a"; mkMessage "1" "b"] (requested FORMAT_JSON)) = [].
Proof.
  apply (early_updates_are_replayed_in_order Data
           [mkMessage "1" "a"; mkMessage "1" "b"] snapshot_response
           (requested FORMAT_JSON)).
  - vm_compute; reflexivity.
  - vm_compute; reflexivity.
  - vm_compute; reflexivity.
  - vm_compute; discriminate.
  - repeat (constructor; [vm_compute; reflexivity|]). constructor.
Defined.

Lemma patch_behind_a_subscribe_travels_in_the_post_witness :
  events_of (onModify (VStr "newer") (Some (mkModifyOptions true (Some (mkArgs None (Some "delta")))))
               (state_of (onModify (VStr "new") None (subscribed FORMAT_JSON)))) = [].
Proof.
  pose (s := state_of (onModify (VStr "new") None (subscribed FORMAT_JSON))).
  apply (patch_behind_a_subscribe_travels_in_the_post (VStr "newer") (mkArgs None (Some "delta")) s
           (obj_at (store s) (subscriptionData s))
           ltac:(vm_compute; reflexivity) ltac:(vm_compute; reflexivity)
           ltac:(vm_compute; reflexivity) ltac:(vm_compute; reflexivity)
           ltac:(vm_compute; reflexivity) ltac:(vm_compute; reflexivity)).
Defined.



Lemma calls_throw_only_when_refused_witness :
  outcome_of (call (CallModify (VStr "new") (Some (mkModifyOptions true None)))
                (subscribed FORMAT_JSON))
  = Exc "Modify options patchArgsDelta is not defined".
Proof.
  rewrite (calls_throw_only_when_refused
             (CallModify (VStr "new") (Some (mkModifyOptions true None)))
             (subscribed FORMAT_JSON)).
  - vm_compute; reflexivity.
  - split; [vm_compute; constructor|vm_compute; reflexivity].
Defined.

Lemma reset_throws_on_a_disposed_subscription_witness :
  outcome_of (reset (state_of (dispose (subscribed FORMAT_JSON))))
  = Exc "Subscribing a disposed subscription - you will not get data".
Proof.
  rewrite (proj1 (reset_throws_on_a_disposed_subscription
                    (state_of (dispose (subscribed FORMAT_JSON)))
                    ltac:(split; [vm_compute; constructor|vm_compute; reflexivity]))).
  vm_compute; reflexivity.
Defined.

End MoreRuns.
